(** * The per-node consensus agent of [subnet/substrate/consensus.py]

    A shallow embedding of the [Consensus] thread: the epoch arithmetic of
    [run], the attestation policy [should_attest], the extrinsic wrappers
    [_do_validate] and [_do_attest], the attester procedure [attest], the
    activation driver [_activate_subnet] and the epoch loop [run] itself.

    The chain RPC, the scoring probe and the clock are outside the class;
    they are an interface ([ChainClient]) over an arbitrary environment
    type, so every theorem holds for every chain behaviour.  Each call on
    the interface is recorded, with its answer, in the list of events a
    computation emits. *)

From Stdlib Require Import ZArith QArith Lia.
From stdpp Require Import base decidable countable list strings gmap.

Local Open Scope Z_scope.

(** ** Python values the agent manipulates *)

(** The value of one field of a score record (a [str] or an [int]). *)
Inductive FieldVal :=
| FInt (z : Z)
| FStr (s : string).

#[global] Instance FieldVal_eq_dec : EqDecision FieldVal.
Proof. solve_decision. Defined.

#[global] Instance FieldVal_countable : Countable FieldVal.
Proof.
  refine (inj_countable'
            (λ v, match v with FInt z => inl z | FStr s => inr s end)
            (λ x, match x with inl z => FInt z | inr s => FStr s end) _).
  by intros [].
Defined.

(** The fields of a record, in the order a [dict] holds them. *)
Abbreviation Fields := (list (string * FieldVal)).

(** [frozenset(d.items())]: a record as the set of its key/value pairs. *)
Abbreviation RecordKey := (gset (string * FieldVal)).

(** A set of such records, the canonical form [should_attest] compares. *)
Abbreviation ScoreSet := (gset (gset (string * FieldVal))).

(** The objects that reach [asdict] and [.items()]: a [str] (what iterating
    over a dict-like object yields), a [dict] (an element of
    [consensus_data["peers"]]) and a dataclass instance (a decoded
    [RewardsData]). *)
Inductive PyObj :=
| PStr (s : string)
| PDict (items : Fields)
| PDataclass (fields : Fields).

(** The exceptions of the model; all of them derive from [Exception]. *)
Inductive Exn :=
| TypeError
| AttributeError
| ValueError
| ZeroDivisionError
| OverflowError
| RecursionError
| ChainError (msg : string).

(** The result of an evaluation that may raise. *)
Inductive Res (A : Type) :=
| Ok (a : A)
| Raise (e : Exn).
Arguments Ok {A} a.
Arguments Raise {A} e.

Definition res_bind {A B} (r : Res A) (f : A → Res B) : Res B :=
  match r with
  | Ok a => f a
  | Raise e => Raise e
  end.

(** A generator expression consumed left to right: the first element that
    raises ends the evaluation. *)
Fixpoint res_map {A B} (f : A → Res B) (l : list A) : Res (list B) :=
  match l with
  | [] => Ok []
  | x :: l' =>
      match f x with
      | Ok y => match res_map f l' with Ok ys => Ok (y :: ys) | Raise e => Raise e end
      | Raise e => Raise e
      end
  end.

(** [dataclasses.asdict]: a [TypeError] on anything but a dataclass
    instance. *)
Definition asdict (o : PyObj) : Res Fields :=
  match o with
  | PDataclass f => Ok f
  | _ => Raise TypeError
  end.

(** [d.items()]: only a [dict] has the attribute. *)
Definition dict_items (o : PyObj) : Res Fields :=
  match o with
  | PDict d => Ok d
  | _ => Raise AttributeError
  end.

Definition frozenset (f : Fields) : RecordKey := list_to_set f.

(** [set(frozenset(asdict(d).items()) for d in l)] *)
Definition set_of_dataclasses (l : list PyObj) : Res ScoreSet :=
  res_bind (res_map asdict l) (λ fs, Ok (list_to_set (frozenset <$> fs))).

(** [set(frozenset(d.items()) for d in l)] *)
Definition set_of_dicts (l : list PyObj) : Res ScoreSet :=
  res_bind (res_map dict_items l) (λ fs, Ok (list_to_set (frozenset <$> fs))).

Definition symmetric_difference (a b : ScoreSet) : ScoreSet := (a ∖ b) ∪ (b ∖ a).

(** ** Chain data *)

(** What [get_rewards_submission] answers once the validator has
    published.  The object is subscripted with ["data"] and ["attests"];
    iterating over it yields its keys. *)
Record Submission := {
  sub_data : list Fields;
  sub_attests : list (string * Z)
}.

Definition submission_iter (s : Submission) : list PyObj :=
  [PStr "data"; PStr "attests"].

(** Modelled from the spec: [RewardsData.list_from_scale_info] (module
    [subnet.substrate.chain_data]) is not part of the sources at hand; by
    section 3, the [data] of a [ValidatorSubmission] is a list of score
    records, each decoded to one dataclass instance with its field values
    verbatim. *)
Definition list_from_scale_info (raw : list Fields) : list PyObj :=
  PDataclass <$> raw.

Record SubnetNode := { node_account_id : string }.

Record SubnetData := {
  initialized : Z;
  registration_blocks : Z;
  activated : Z
}.

(** An extrinsic receipt; [triggered_events] holds the [event_id] of each
    event. *)
Record Receipt := {
  is_success : bool;
  triggered_events : list string
}.

Inductive AttestReason :=
| WAITING
| ATTESTED
| ATTEST_FAILED
| SHOULD_NOT_ATTEST.

(** ** Events: the calls on the chain, the probe and the clock *)

Inductive Event :=
| EvBlockNumber (r : Res Z)
| EvSubnetIdByPath (path : string) (r : Res (option Z))
| EvSubnetData (sid : Z) (r : Res (option SubnetData))
| EvSubmittableNodes (sid : option Z) (r : Res (list SubnetNode))
| EvRewardsValidator (sid : option Z) (epoch : Z) (r : Res (option string))
| EvRewardsSubmission (sid : option Z) (epoch : Z) (r : Res (option Submission))
| EvConsensusData (sid : option Z) (r : Res (list PyObj))
| EvValidate (sid : option Z) (data : list PyObj) (r : Res (option Receipt))
| EvAttest (sid : option Z) (r : Res (option Receipt))
| EvActivateSubnet (sid : Z) (r : Res (option Receipt))
| EvSleep (secs : Q).

(** The environment of the agent: every query and extrinsic of
    [chain_functions], the scoring probe behind [get_consensus_data] and
    [time.sleep].  Each call may answer, raise, and move the environment on
    (blocks are produced, other nodes act). *)
Module chain_functions.

Class ChainClient (Env : Type) := {
  get_block_number : Env → Res Z * Env;
  get_subnet_id_by_path : string → Env → Res (option Z) * Env;
  get_subnet_data : Z → Env → Res (option SubnetData) * Env;
  get_submittable_nodes : option Z → Env → Res (list SubnetNode) * Env;
  get_rewards_validator : option Z → Z → Env → Res (option string) * Env;
  get_rewards_submission : option Z → Z → Env → Res (option Submission) * Env;
  get_consensus_data : option Z → Env → Res (list PyObj) * Env;
  validate : option Z → list PyObj → Env → Res (option Receipt) * Env;
  attest : option Z → Env → Res (option Receipt) * Env;
  activate_subnet : Z → Env → Res (option Receipt) * Env;
  sleep : Q → Env → Env
}.

End chain_functions.

(** ** Python arithmetic used by the loop *)

(** [n / d] rounded to the nearest integer, ties to the even one
    ([0 <= n], [0 < d]). *)
Definition round_half_even (n d : Z) : Z :=
  let q := n / d in
  let r := n mod d in
  if 2 * r <? d then q
  else if d <? 2 * r then q + 1
  else if Z.even q then q else q + 1.

(** Whether [2^k <= a / b], for positive [a] and [b]. *)
Definition ratio_ge_pow2 (a b k : Z) : bool :=
  if 0 <=? k then b * 2 ^ k <=? a else b <=? a * 2 ^ (- k).

(** [floor (log2 (a / b))], for positive [a] and [b]. *)
Definition ratio_log2 (a b : Z) : Z :=
  let k := Z.log2 a - Z.log2 b in
  if ratio_ge_pow2 a b k then k else k - 1.

(** A binary64 value [mant * 2^expo]. *)
Record float := { mant : Z; expo : Z }.

(** The quotient of two positive integers rounded to binary64: 53
    significant bits, ties to even, exponents from [-1074]. *)
Definition round_binary64 (a b : Z) : float :=
  let e := Z.max (ratio_log2 a b - 52) (-1074) in
  let m := if 0 <=? e then round_half_even a (b * 2 ^ e)
           else round_half_even (a * 2 ^ (- e)) b in
  {| mant := m; expo := e |}.

(** [a / b] on two [int]: Python's true division gives the [float]
    nearest to the exact quotient; it raises [ZeroDivisionError] on a zero
    divisor and [OverflowError] when the quotient is beyond the floats. *)
Definition py_truediv (a b : Z) : Res float :=
  if b =? 0 then Raise ZeroDivisionError
  else if a =? 0 then Ok {| mant := 0; expo := 0 |}
  else
    let f := round_binary64 (Z.abs a) (Z.abs b) in
    if 2 ^ 2098 <=? mant f * 2 ^ (expo f + 1074) then Raise OverflowError
    else Ok {| mant := Z.sgn a * Z.sgn b * mant f; expo := expo f |}.

(** [int(x)] on a [float]: truncation towards zero. *)
Definition py_int (x : float) : Z :=
  if 0 <=? expo x then mant x * 2 ^ expo x
  else Z.quot (mant x) (2 ^ (- expo x)).

(** [int(block_number / self.epoch_length)], the epoch of lines 77 and
    184 of [run]. *)
Definition epoch_of (block_number epoch_length : Z) : Res Z :=
  res_bind (py_truediv block_number epoch_length) (λ q, Ok (py_int q)).

(** Modelled from the spec: [get_next_epoch_start_block] (module
    [subnet.substrate.utils]) is not part of the sources at hand; section
    4.3 gives [next_epoch_start(block, epoch_length) =
    ((block / epoch_length) + 1) * epoch_length] with integer division. *)
Definition get_next_epoch_start_block (epoch_length block_number : Z) : Z :=
  (block_number / epoch_length + 1) * epoch_length.

(** Modelled from the spec: [saturating_sub] (module [subnet.utils.math])
    is not part of the sources at hand; section 4.6 uses it for a sleep
    length, a subtraction that stops at zero. *)
Definition saturating_sub (x y : Q) : Q :=
  if Qlt_le_dec x y then 0%Q else (x - y)%Q.

Definition MAX_ATTEST_CHECKS : Z := 3.

(** ** The agent *)

(** The fields of a [Consensus] object.  [subnet_activated] is assigned an
    [int] or [True]; [True] is the integer [1]. *)
Record Consensus := {
  subnet_id : option Z;
  path : string;
  subnet_accepting_consensus : bool;
  subnet_node_eligible : bool;
  subnet_activated : Z;
  last_validated_or_attested_epoch : Z;
  account_id : string;
  previous_epoch_data : option ScoreSet;
  epoch_length : Z;
  stop : bool
}.

(** [Consensus.__init__], given the account of the keypair and the epoch
    length the chain reports. *)
Definition init (p acct : string) (len : Z) : Consensus :=
  {| subnet_id := None; path := p;
     subnet_accepting_consensus := false; subnet_node_eligible := false;
     subnet_activated := 9223372036854775807;
     last_validated_or_attested_epoch := 0;
     account_id := acct; previous_epoch_data := None;
     epoch_length := len; stop := false |}.

Definition set_previous_epoch_data (v : option ScoreSet) (c : Consensus) : Consensus :=
  {| subnet_id := subnet_id c; path := path c;
     subnet_accepting_consensus := subnet_accepting_consensus c;
     subnet_node_eligible := subnet_node_eligible c;
     subnet_activated := subnet_activated c;
     last_validated_or_attested_epoch := last_validated_or_attested_epoch c;
     account_id := account_id c; previous_epoch_data := v;
     epoch_length := epoch_length c; stop := stop c |}.

Definition set_last_epoch (v : Z) (c : Consensus) : Consensus :=
  {| subnet_id := subnet_id c; path := path c;
     subnet_accepting_consensus := subnet_accepting_consensus c;
     subnet_node_eligible := subnet_node_eligible c;
     subnet_activated := subnet_activated c;
     last_validated_or_attested_epoch := v;
     account_id := account_id c; previous_epoch_data := previous_epoch_data c;
     epoch_length := epoch_length c; stop := stop c |}.

Definition set_eligible (v : bool) (c : Consensus) : Consensus :=
  {| subnet_id := subnet_id c; path := path c;
     subnet_accepting_consensus := subnet_accepting_consensus c;
     subnet_node_eligible := v;
     subnet_activated := subnet_activated c;
     last_validated_or_attested_epoch := last_validated_or_attested_epoch c;
     account_id := account_id c; previous_epoch_data := previous_epoch_data c;
     epoch_length := epoch_length c; stop := stop c |}.

Definition set_stop (v : bool) (c : Consensus) : Consensus :=
  {| subnet_id := subnet_id c; path := path c;
     subnet_accepting_consensus := subnet_accepting_consensus c;
     subnet_node_eligible := subnet_node_eligible c;
     subnet_activated := subnet_activated c;
     last_validated_or_attested_epoch := last_validated_or_attested_epoch c;
     account_id := account_id c; previous_epoch_data := previous_epoch_data c;
     epoch_length := epoch_length c; stop := v |}.

(** The three assignments [_activate_subnet] makes when it finds or makes
    the subnet activated. *)
Definition set_activated (sid act : Z) (c : Consensus) : Consensus :=
  {| subnet_id := Some sid; path := path c;
     subnet_accepting_consensus := true;
     subnet_node_eligible := subnet_node_eligible c;
     subnet_activated := act;
     last_validated_or_attested_epoch := last_validated_or_attested_epoch c;
     account_id := account_id c; previous_epoch_data := previous_epoch_data c;
     epoch_length := epoch_length c; stop := stop c |}.

Section Agent.

Context {Env : Type} `{!chain_functions.ChainClient Env}.

(** [BLOCK_SECS] of [subnet.substrate.config], a constant of the chain. *)
Variable BLOCK_SECS : Z.

Record State := { env : Env; self : Consensus }.

(** A method of the agent: from a state to an outcome, the state it leaves
    (also when it raises) and the events it emitted, oldest first. *)
Definition M (A : Type) : Type := State → Res A * State * list Event.

Definition ret {A} (a : A) : M A := λ s, (Ok a, s, []).

Definition bind {A B} (m : M A) (f : A → M B) : M B := λ s,
  match m s with
  | (Ok a, s1, l1) => let '(r, s2, l2) := f a s1 in (r, s2, l1 ++ l2)
  | (Raise e, s1, l1) => (Raise e, s1, l1)
  end.

Notation "x <- m ;; k" := (bind m (λ x, k))
  (at level 100, m at next level, k at level 200, right associativity).

Definition raise {A} (e : Exn) : M A := λ s, (Raise e, s, []).

Definition lift {A} (r : Res A) : M A := λ s, (r, s, []).

Definition gets {A} (f : Consensus → A) : M A := λ s, (Ok (f (self s)), s, []).

Definition modify (f : Consensus → Consensus) : M unit :=
  λ s, (Ok tt, {| env := env s; self := f (self s) |}, []).

(** The three components of a finished call. *)
Definition outcome {A} (x : Res A * State * list Event) : Res A := x.1.1.
Definition final {A} (x : Res A * State * list Event) : State := x.1.2.
Definition emitted {A} (x : Res A * State * list Event) : list Event := x.2.

(** One call on the environment, recorded with its answer. *)
Definition call {A} (op : Env → Res A * Env) (ev : Res A → Event) : M A :=
  λ s, let '(r, e') := op (env s) in (r, {| env := e'; self := self s |}, [ev r]).

(** [try: m except Exception: h] *)
Definition try_except {A} (m : M A) (h : Exn → M A) : M A := λ s,
  match m s with
  | (Ok a, s1, l1) => (Ok a, s1, l1)
  | (Raise e, s1, l1) => let '(r, s2, l2) := h e s1 in (r, s2, l1 ++ l2)
  end.

(** [time.sleep]: a negative length is a [ValueError]. *)
Definition time_sleep (secs : Q) : M unit := λ s,
  if Qlt_le_dec secs 0 then (Raise ValueError, s, [])
  else (Ok tt, {| env := chain_functions.sleep secs (env s); self := self s |}, [EvSleep secs]).

(** *** Queries through [self] *)

Definition _get_validator_consensus_submission (epoch : Z) : M (option Submission) :=
  sid <- gets subnet_id;;
  call (chain_functions.get_rewards_submission sid epoch) (EvRewardsSubmission sid epoch).

Definition _get_consensus_data : M (list PyObj) :=
  sid <- gets subnet_id;;
  call (chain_functions.get_consensus_data sid) (EvConsensusData sid).

(** *** [should_attest] *)

(** The two logging lines of the last branch are left out: they compute
    percentages with [saturating_div] and change nothing. *)
Definition should_attest (validator_data my_data : list PyObj) (epoch : Z) : M bool :=
  if (length validator_data =? 0)%nat && (length my_data =? 0)%nat then ret true
  else
    set1 <- lift (set_of_dataclasses validator_data);;
    set2 <- lift (set_of_dicts my_data);;
    let success := bool_decide (set1 = set2) in
    previous <- gets previous_epoch_data;;
    success <-
      match success, previous with
      | false, Some prev =>
          let dif := symmetric_difference set1 set2 in
          ret (bool_decide (dif ⊆ prev))
      | false, None =>
          previous_epoch_validator_data <- _get_validator_consensus_submission (epoch - 1);;
          match previous_epoch_validator_data with
          | Some sub =>
              previous_epoch_data_onchain <- lift (set_of_dataclasses (submission_iter sub));;
              let dif := symmetric_difference set1 set2 in
              ret (bool_decide (dif ⊆ previous_epoch_data_onchain))
          | None => ret success
          end
      | true, _ => ret success
      end;;
    _ <- modify (set_previous_epoch_data (Some set2));;
    ret success.

(** *** The extrinsic wrappers *)

(** [receipt.is_success] on a missing receipt is an [AttributeError]. *)
Definition receipt_is_success (receipt : option Receipt) : M bool :=
  match receipt with
  | Some r => ret (is_success r)
  | None => raise AttributeError
  end.

Definition _do_validate (data : list PyObj) : M bool :=
  try_except
    (sid <- gets subnet_id;;
     receipt <- call (chain_functions.validate sid data) (EvValidate sid data);;
     receipt_is_success receipt)
    (λ e, ret false).

Definition _do_attest : M bool :=
  try_except
    (sid <- gets subnet_id;;
     receipt <- call (chain_functions.attest sid) (EvAttest sid);;
     receipt_is_success receipt)
    (λ e, ret false).

Definition validate : M bool :=
  consensus_data <- _get_consensus_data;;
  _do_validate consensus_data.

Definition _has_attested (attestations : list (string * Z)) : M bool :=
  acct <- gets account_id;;
  ret (existsb (λ data : string * Z, bool_decide (data.1 = acct)) attestations).

Definition _get_validator (epoch : Z) : M (option string) :=
  sid <- gets subnet_id;;
  call (chain_functions.get_rewards_validator sid epoch) (EvRewardsValidator sid epoch).

(** *** [attest] *)

Definition attest (epoch : Z) : M (bool * AttestReason) :=
  validator_consensus_submission <- _get_validator_consensus_submission epoch;;
  match validator_consensus_submission with
  | None => ret (false, WAITING)
  | Some sub =>
      attested <- _has_attested (sub_attests sub);;
      if attested then ret (false, ATTESTED)
      else
        let validator_consensus_data := list_from_scale_info (sub_data sub) in
        consensus_data <- _get_consensus_data;;
        ok <- should_attest validator_consensus_data consensus_data epoch;;
        if ok then
          attest_is_success <- _do_attest;;
          if attest_is_success then ret (true, ATTESTED)
          else ret (false, ATTEST_FAILED)
        else ret (false, SHOULD_NOT_ATTEST)
  end.

(** *** [_activate_subnet] *)

Definition shutdown : M unit := modify (set_stop true).

(** The loop that looks for this node among the submittable nodes:
    [n] counts the entries visited, the search stops at the first match. *)
Fixpoint find_node (acct : string) (nodes : list SubnetNode) (n : Z) : bool * Z :=
  match nodes with
  | [] => (false, n)
  | node_set :: rest =>
      let n := n + 1 in
      if bool_decide (node_account_id node_set = acct) then (true, n)
      else find_node acct rest n
  end.

(** [subnet_data['activated'] > 0] on the second read: subscripting an
    absent result is a [TypeError]. *)
Definition activated_of (subnet_data : option SubnetData) : M Z :=
  match subnet_data with
  | Some sd => ret (activated sd)
  | None => raise TypeError
  end.

(** The method calls itself; [depth] is the number of frames left before
    the interpreter raises [RecursionError]. *)
Fixpoint _activate_subnet (depth : nat) : M bool :=
  match depth with
  | O => raise RecursionError
  | S depth' =>
    p <- gets path;;
    subnet_id <- call (chain_functions.get_subnet_id_by_path p) (EvSubnetIdByPath p);;
    match subnet_id with
    | None => _ <- shutdown;; ret false
    | Some sid =>
      subnet_data <- call (chain_functions.get_subnet_data sid) (EvSubnetData sid);;
      match subnet_data with
      | None => _ <- shutdown;; ret false
      | Some sd =>
        let activation_block := initialized sd + registration_blocks sd in
        if 0 <? activated sd then
          _ <- modify (set_activated sid (activated sd));;
          ret true
        else
          submittable_nodes <- call (chain_functions.get_submittable_nodes (Some sid))
                                    (EvSubmittableNodes (Some sid));;
          acct <- gets account_id;;
          let found := find_node acct submittable_nodes 0 in
          let submittable := found.1 in
          let n := found.2 in
          _ <- (if negb submittable then
                  _ <- time_sleep (inject_Z BLOCK_SECS);;
                  _ <- _activate_subnet depth';;
                  ret tt
                else ret tt);;
          let min_node_activation_block := activation_block + BLOCK_SECS * 10 * (n - 1) in
          let max_node_activation_block := activation_block + BLOCK_SECS * 10 * n in
          block_number <- call chain_functions.get_block_number EvBlockNumber;;
          _ <- (if block_number <? min_node_activation_block then
                  let delta := min_node_activation_block - block_number in
                  _ <- time_sleep (inject_Z (BLOCK_SECS * delta));;
                  _ <- _activate_subnet depth';;
                  ret tt
                else ret tt);;
          _ <- (if max_node_activation_block <=? block_number then
                  _ <- time_sleep (inject_Z BLOCK_SECS);;
                  _ <- _activate_subnet depth';;
                  ret tt
                else ret tt);;
          if (min_node_activation_block <=? block_number)
             && (block_number <? max_node_activation_block) then
            subnet_data <- call (chain_functions.get_subnet_data sid) (EvSubnetData sid);;
            act <- activated_of subnet_data;;
            if 0 <? act then
              _ <- modify (set_activated sid 1);;
              ret true
            else
              receipt <- call (chain_functions.activate_subnet sid) (EvActivateSubnet sid);;
              match receipt with
              | None => ret false
              | Some r =>
                  if negb (is_success r) then ret false
                  else
                    let is_success :=
                      existsb (λ event_id, bool_decide (event_id = "SubnetActivated"))
                              (triggered_events r) in
                    if is_success then
                      _ <- modify (set_activated sid 1);;
                      ret true
                    else ret false
              end
          else ret false
      end
    end
  end.

(** *** [run] *)

(** How the inner [while True] of the attester path is left: its four
    [break] statements, in the order of the source. *)
Inductive LoopExit :=
| ExitNextEpoch
| ExitMaxChecks
| ExitAlreadyAttested
| ExitAttested
| OutOfFuel.

(** The inner loop of [run].  Every pass that does not leave the loop
    adds one to [attest_checks], so [MAX_ATTEST_CHECKS + 2] passes are
    enough; [fuel] bounds the passes and [OutOfFuel] is never the result
    (lemma [attest_loop_fuel]). *)
Fixpoint attest_loop (fuel : nat) (initial_epoch attest_checks : Z) : M LoopExit :=
  match fuel with
  | O => ret OutOfFuel
  | S fuel' =>
    _ <- time_sleep (inject_Z BLOCK_SECS);;
    block_number <- call chain_functions.get_block_number EvBlockNumber;;
    len <- gets epoch_length;;
    epoch <- lift (epoch_of block_number len);;
    let next_epoch_start_block := get_next_epoch_start_block len block_number in
    let remaining_blocks_until_next_epoch := next_epoch_start_block - block_number in
    if initial_epoch <? epoch then ret ExitNextEpoch
    else if MAX_ATTEST_CHECKS <? attest_checks then ret ExitMaxChecks
    else
      result <- attest epoch;;
      match result with
      | (false, reason) =>
          let attest_checks := attest_checks + 1 in
          match reason with
          | WAITING | ATTEST_FAILED => attest_loop fuel' initial_epoch attest_checks
          | ATTESTED =>
              _ <- modify (set_last_epoch epoch);;
              ret ExitAlreadyAttested
          | SHOULD_NOT_ATTEST =>
              let delta := (inject_Z remaining_blocks_until_next_epoch / 2)%Q in
              let delta :=
                if Qlt_le_dec (delta / 2)%Q (inject_Z (BLOCK_SECS * 2)) then 0%Q else delta in
              _ <- time_sleep (saturating_sub (delta * inject_Z BLOCK_SECS)%Q
                                              (inject_Z BLOCK_SECS));;
              attest_loop fuel' initial_epoch attest_checks
          end
      | (true, _) =>
          _ <- modify (set_last_epoch epoch);;
          ret ExitAttested
      end
  end.

(** What the body of the outer [while] does to the loop: [continue] (or
    reaching its end), or the [break] after a shutdown. *)
Inductive Flow :=
| Continue
| Break.

(** The body of the [try] of [run]: one pass of the outer loop.
    [depth] is the recursion limit handed to [_activate_subnet]. *)
Definition run_body (depth : nat) : M Flow :=
  block_number <- call chain_functions.get_block_number EvBlockNumber;;
  len <- gets epoch_length;;
  epoch <- lift (epoch_of block_number len);;
  let next_epoch_start_block := get_next_epoch_start_block len block_number in
  let remaining_blocks_until_next_epoch := next_epoch_start_block - block_number in
  last <- gets last_validated_or_attested_epoch;;
  accepting <- gets subnet_accepting_consensus;;
  if (epoch <=? last) && accepting then
    _ <- time_sleep (inject_Z (remaining_blocks_until_next_epoch * BLOCK_SECS));;
    ret Continue
  else if negb accepting then
    activated <- _activate_subnet depth;;
    stopped <- gets stop;;
    if stopped then ret Break
    else if activated then ret Continue
    else
      _ <- time_sleep (inject_Z BLOCK_SECS);;
      ret Continue
  else
    eligible <- gets subnet_node_eligible;;
    go <- (if negb eligible then
             sid <- gets subnet_id;;
             submittable_nodes <- call (chain_functions.get_submittable_nodes sid)
                                       (EvSubmittableNodes sid);;
             acct <- gets account_id;;
             if existsb (λ node_set, bool_decide (node_account_id node_set = acct))
                        submittable_nodes
             then
               _ <- modify (set_eligible true);;
               ret true
             else
               _ <- time_sleep (inject_Z (remaining_blocks_until_next_epoch * BLOCK_SECS));;
               ret false
           else ret true);;
    if negb go then ret Continue
    else
      validator <- _get_validator epoch;;
      match validator with
      | None =>
          _ <- time_sleep (inject_Z BLOCK_SECS);;
          ret Continue
      | Some v =>
          acct <- gets account_id;;
          let is_validator := bool_decide (v = acct) in
          if is_validator then
            validated <- _get_validator_consensus_submission epoch;;
            match validated with
            | None =>
                success <- validate;;
                if success then
                  _ <- modify (set_last_epoch epoch);;
                  _ <- time_sleep (inject_Z (remaining_blocks_until_next_epoch * BLOCK_SECS));;
                  ret Continue
                else
                  _ <- time_sleep (inject_Z BLOCK_SECS);;
                  ret Continue
            | Some _ =>
                _ <- modify (set_last_epoch epoch);;
                _ <- time_sleep (inject_Z (remaining_blocks_until_next_epoch * BLOCK_SECS));;
                ret Continue
            end
          else
            let initial_epoch := epoch in
            _ <- attest_loop (Z.to_nat (MAX_ATTEST_CHECKS + 2)) initial_epoch 0;;
            ret Continue
      end.

(** One pass of [while not self.stop.is_set()]: the body under its
    [except Exception], which logs and goes on. *)
Definition run_once (depth : nat) : M Flow :=
  try_except (run_body depth) (λ e, ret Continue).

(** [run], for at most [passes] passes of the outer loop. *)
Fixpoint run (depth passes : nat) : M unit :=
  match passes with
  | O => ret tt
  | S passes' =>
      stopped <- gets stop;;
      if stopped then ret tt
      else
        flow <- run_once depth;;
        match flow with
        | Break => ret tt
        | Continue => run depth passes'
        end
  end.

(** *** Restarts

    The agent keeps nothing on disk: a restarted process is a fresh
    [Consensus] object for the same path and keypair on the same chain,
    which reports the same epoch length. *)
Definition restart (c : Consensus) : Consensus :=
  init (path c) (account_id c) (epoch_length c).

(** The processes of a node one after the other: each one makes the given
    number of passes of [run] before it is stopped. *)
Fixpoint lifetime (depth : nat) (runs : list nat) (s : State) : list Event :=
  match runs with
  | [] => []
  | passes :: runs' =>
      let '(_, s1, l1) := run depth passes s in
      l1 ++ lifetime depth runs' {| env := env s1; self := restart (self s1) |}
  end.

(** *** Reasoning about a method

    [wp m s Q]: the call [m] from state [s] ends with an outcome, a state
    and events that satisfy [Q]. *)
Definition wp {A} (m : M A) (s : State) (Q : Res A → State → list Event → Prop) : Prop :=
  ∀ r s' l, m s = (r, s', l) → Q r s' l.

End Agent.

(** ** A replayed chain

    An environment that answers from a script: the list of the calls the
    chain will see, each with the answer to give.  A call that does not
    match the head of the script fails as a transport error does.  It is
    the environment of the examples. *)

Definition Replay := list Event.

Definition replay {A} (pick : Event → option (Res A)) (e : Replay) : Res A * Replay :=
  match e with
  | ev :: e' =>
      match pick ev with
      | Some r => (r, e')
      | None => (Raise (ChainError "unexpected call"), e')
      end
  | [] => (Raise (ChainError "no answer"), [])
  end.

#[global] Instance Replay_client : chain_functions.ChainClient Replay := {|
  chain_functions.get_block_number :=
    replay (λ ev, match ev with EvBlockNumber r => Some r | _ => None end);
  chain_functions.get_subnet_id_by_path _ :=
    replay (λ ev, match ev with EvSubnetIdByPath _ r => Some r | _ => None end);
  chain_functions.get_subnet_data _ :=
    replay (λ ev, match ev with EvSubnetData _ r => Some r | _ => None end);
  chain_functions.get_submittable_nodes _ :=
    replay (λ ev, match ev with EvSubmittableNodes _ r => Some r | _ => None end);
  chain_functions.get_rewards_validator _ _ :=
    replay (λ ev, match ev with EvRewardsValidator _ _ r => Some r | _ => None end);
  chain_functions.get_rewards_submission _ _ :=
    replay (λ ev, match ev with EvRewardsSubmission _ _ r => Some r | _ => None end);
  chain_functions.get_consensus_data _ :=
    replay (λ ev, match ev with EvConsensusData _ r => Some r | _ => None end);
  chain_functions.validate _ _ :=
    replay (λ ev, match ev with EvValidate _ _ r => Some r | _ => None end);
  chain_functions.attest _ :=
    replay (λ ev, match ev with EvAttest _ r => Some r | _ => None end);
  chain_functions.activate_subnet _ :=
    replay (λ ev, match ev with EvActivateSubnet _ r => Some r | _ => None end);
  chain_functions.sleep _ e := e
|}.

(** An agent that has joined subnet [1] as ["me"], on a chain of epochs of
    ten blocks. *)
Definition joined : Consensus :=
  {| subnet_id := Some 1; path := "subnet";
     subnet_accepting_consensus := true; subnet_node_eligible := true;
     subnet_activated := 1;
     last_validated_or_attested_epoch := 0;
     account_id := "me"; previous_epoch_data := None;
     epoch_length := 10; stop := false |}.

Definition p1 : Fields := [("peer_id", FStr "p1"); ("score", FInt 7)].

Definition p2 : Fields := [("peer_id", FStr "p2"); ("score", FInt 9)].


(** The verdict section 4.4 of the specification asks for when the agent
    has no previous score set of its own: the discrepancies between the
    validator's set and the node's set are compared with the score records
    of the previous epoch's submission, brought to the same canonical form. *)
Definition fallback_verdict (set1 set2 : ScoreSet) (previous : Submission) : Res bool :=
  res_bind (set_of_dataclasses (list_from_scale_info (sub_data previous)))
           (λ onchain, Ok (bool_decide (symmetric_difference set1 set2 ⊆ onchain))).

(** A submission on chain for [p1], first without attestation, then
    attested by ["me"]. *)
Definition submitted : Submission := {| sub_data := [p1]; sub_attests := [] |}.

Definition attested_by_me : Submission :=
  {| sub_data := [p1]; sub_attests := [("other", 100); ("me", 101)] |}.

(** A chain on which the validator of epoch [10] never publishes. *)
Definition silent_chain : Replay :=
  [EvBlockNumber (Ok 101); EvRewardsSubmission (Some 1) 10 (Ok None);
   EvBlockNumber (Ok 102); EvRewardsSubmission (Some 1) 10 (Ok None);
   EvBlockNumber (Ok 103); EvRewardsSubmission (Some 1) 10 (Ok None);
   EvBlockNumber (Ok 104); EvRewardsSubmission (Some 1) 10 (Ok None);
   EvBlockNumber (Ok 105)].

(** ** Properties of a list of events *)

(** The number of attestation attempts: each call of [attest] starts with
    one [get_rewards_submission] query. *)
Definition is_submission_query (ev : Event) : bool :=
  match ev with
  | EvRewardsSubmission _ _ _ => true
  | _ => false
  end.

Definition attest_attempts (evs : list Event) : nat :=
  length (List.filter is_submission_query evs).

(** What the chain shows during an epoch in which the validator never
    publishes: the clock runs, the block number stays within epoch
    [initial_epoch] or before, and no submission is found. *)
Definition silent (len initial_epoch : Z) (ev : Event) : Prop :=
  match ev with
  | EvSleep _ => True
  | EvBlockNumber (Ok b) =>
      match epoch_of b len with Ok e => e <= initial_epoch | Raise _ => False end
  | EvRewardsSubmission _ _ (Ok None) => True
  | _ => False
  end.

(** [n] is the 1-based index of the entry of account [acct] among the
    submittable nodes (of its first entry, were the account listed
    twice). *)
Definition listed_at (acct : string) (nodes : list SubnetNode) (n : Z) : Prop :=
  1 <= n
  ∧ (node_account_id <$> nodes) !! Z.to_nat (n - 1) = Some acct
  ∧ Forall (λ a, a ≠ acct) (take (Z.to_nat (n - 1)) (node_account_id <$> nodes)).

(** What the chain shows of a subnet in registration: the node at index
    [n] of the submittable nodes, and [base] the sum of the block of
    initialization and the registration blocks. *)
Definition registered (acct : string) (n base : Z) (ev : Event) : Prop :=
  match ev with
  | EvSubmittableNodes _ (Ok nodes) => listed_at acct nodes n
  | EvSubnetData _ (Ok (Some d)) => initialized d + registration_blocks d = base
  | _ => True
  end.

(** A subnet in registration on which ["me"] is the second node: the
    agent waits for its slot, then activates the subnet. *)
Definition registering : SubnetData :=
  {| initialized := 100; registration_blocks := 50; activated := 0 |}.

Definition two_nodes : list SubnetNode :=
  [{| node_account_id := "other" |}; {| node_account_id := "me" |}].

Definition activation_chain : Replay :=
  [EvSubnetIdByPath "subnet" (Ok (Some 1));
   EvSubnetData 1 (Ok (Some registering));
   EvSubmittableNodes (Some 1) (Ok two_nodes);
   EvBlockNumber (Ok 200);
   EvSubnetIdByPath "subnet" (Ok (Some 1));
   EvSubnetData 1 (Ok (Some registering));
   EvSubmittableNodes (Some 1) (Ok two_nodes);
   EvBlockNumber (Ok 215);
   EvSubnetData 1 (Ok (Some registering));
   EvActivateSubnet 1 (Ok (Some {| is_success := true;
                                   triggered_events := ["SubnetActivated"] |}))].

(** The same subnet seen by a node that is not listed yet.  The first
    call of [_activate_subnet] finds only ["other"] among the submittable
    nodes and calls the method again; that call finds ["me"] listed second,
    at block [170], before its slot, and calls the method again; there the
    lookup of the path finds nothing.  The chain is then at block
    [175]. *)
Definition early_chain : Replay :=
  [EvSubnetIdByPath "subnet" (Ok (Some 1));
   EvSubnetData 1 (Ok (Some registering));
   EvSubmittableNodes (Some 1) (Ok [{| node_account_id := "other" |}]);
   EvSubnetIdByPath "subnet" (Ok (Some 1));
   EvSubnetData 1 (Ok (Some registering));
   EvSubmittableNodes (Some 1) (Ok two_nodes);
   EvBlockNumber (Ok 170);
   EvSubnetIdByPath "subnet" (Ok None);
   EvBlockNumber (Ok 175);
   EvSubnetData 1 (Ok (Some registering));
   EvActivateSubnet 1 (Ok (Some {| is_success := true;
                                   triggered_events := ["SubnetActivated"] |}))].

(** The epochs the agent derives from the block numbers it fetches, in
    the order of the fetches. *)
Fixpoint block_epochs (len : Z) (evs : list Event) : list Z :=
  match evs with
  | [] => []
  | EvBlockNumber (Ok b) :: evs' =>
      match epoch_of b len with
      | Ok e => e :: block_epochs len evs'
      | Raise _ => block_epochs len evs'
      end
  | _ :: evs' => block_epochs len evs'
  end.

(** The block numbers the chain answered, in the order of the fetches. *)
Fixpoint block_numbers (evs : list Event) : list Z :=
  match evs with
  | [] => []
  | EvBlockNumber (Ok b) :: evs' => b :: block_numbers evs'
  | _ :: evs' => block_numbers evs'
  end.

(** No element is followed by a smaller one. *)
Fixpoint nondecreasing (l : list Z) : Prop :=
  match l with
  | [] => True
  | x :: l' => Forall (λ y, x <= y) l' ∧ nondecreasing l'
  end.

(** [last_validated_or_attested_epoch] after [passes] passes of [run]. *)
Definition last_epoch_after `{!chain_functions.ChainClient Env}
    (BLOCK_SECS : Z) (depth passes : nat) (s : State) : Z :=
  last_validated_or_attested_epoch (self (final (run BLOCK_SECS depth passes s))).

(** A chain whose block number goes back from [110] to [95] while the
    agent is in its inner loop. *)
Definition regressing_chain : Replay :=
  [EvBlockNumber (Ok 100); EvRewardsValidator (Some 1) 10 (Ok (Some "other"));
   EvBlockNumber (Ok 101); EvRewardsSubmission (Some 1) 10 (Ok (Some attested_by_me));
   EvBlockNumber (Ok 110); EvRewardsValidator (Some 1) 11 (Ok (Some "other"));
   EvBlockNumber (Ok 95); EvRewardsSubmission (Some 1) 9 (Ok (Some attested_by_me))].

(** The same chain without the step back. *)
Definition advancing_chain : Replay :=
  [EvBlockNumber (Ok 100); EvRewardsValidator (Some 1) 10 (Ok (Some "other"));
   EvBlockNumber (Ok 101); EvRewardsSubmission (Some 1) 10 (Ok (Some attested_by_me));
   EvBlockNumber (Ok 110); EvRewardsValidator (Some 1) 11 (Ok (Some "other"));
   EvBlockNumber (Ok 111); EvRewardsSubmission (Some 1) 11 (Ok (Some attested_by_me))].

(** *** Extrinsics and the epoch they are submitted in *)

(** The epoch the agent derives from an answer of [get_block_number]. *)
Definition block_epoch (len : Z) (r : Res Z) : option Z :=
  match r with
  | Ok b => match epoch_of b len with Ok e => Some e | Raise _ => None end
  | Raise _ => None
  end.

(** Whether the answer to an extrinsic is a receipt of success. *)
Definition succeeded (r : Res (option Receipt)) : bool :=
  match r with
  | Ok (Some receipt) => is_success receipt
  | _ => false
  end.

Inductive Role :=
| Validator
| Attester.

#[global] Instance Role_eq_dec : EqDecision Role.
Proof. solve_decision. Defined.

(** The [validate] and [attest] extrinsics among the events, each with
    the epoch the agent was in (the epoch of the latest block number it
    fetched, starting from [cur]) and whether it succeeded. *)
Fixpoint extrinsics (len : Z) (cur : option Z) (evs : list Event)
    : list (Role * option Z * bool) :=
  match evs with
  | [] => []
  | EvBlockNumber r :: evs' => extrinsics len (block_epoch len r) evs'
  | EvValidate _ _ r :: evs' => (Validator, cur, succeeded r) :: extrinsics len cur evs'
  | EvAttest _ r :: evs' => (Attester, cur, succeeded r) :: extrinsics len cur evs'
  | _ :: evs' => extrinsics len cur evs'
  end.

(** The number of extrinsics of a role submitted in epoch [e], and the
    number of those that succeeded. *)
Definition submissions (role : Role) (e : Z) (xs : list (Role * option Z * bool)) : nat :=
  length (List.filter (λ x : Role * option Z * bool,
                         bool_decide (x.1.1 = role) && bool_decide (x.1.2 = Some e)) xs).

Definition successes (role : Role) (e : Z) (xs : list (Role * option Z * bool)) : nat :=
  length (List.filter (λ x : Role * option Z * bool,
                         bool_decide (x.1.1 = role) && bool_decide (x.1.2 = Some e) && x.2) xs).

(** The chain check before each extrinsic: a [validate] comes right after
    [get_rewards_submission] found nothing for the epoch the agent is in,
    an [attest] right after it found a submission without the account
    [acct] among its attestations; only the call of the scoring probe
    comes in between.  [pend] is the answer of such a query when it is the
    latest event but for the probe. *)
Fixpoint guarded (acct : string) (len : Z) (cur : option Z)
    (pend : option (option Submission)) (evs : list Event) : Prop :=
  match evs with
  | [] => True
  | EvBlockNumber r :: evs' => guarded acct len (block_epoch len r) None evs'
  | EvRewardsSubmission _ e r :: evs' =>
      guarded acct len cur
        (match r with
         | Ok a => if bool_decide (cur = Some e) then Some a else None
         | Raise _ => None
         end) evs'
  | EvConsensusData _ _ :: evs' => guarded acct len cur pend evs'
  | EvValidate _ _ _ :: evs' => pend = Some None ∧ guarded acct len cur None evs'
  | EvAttest _ _ :: evs' =>
      (∃ sub, pend = Some (Some sub) ∧ ¬ In acct (map fst (sub_attests sub)))
      ∧ guarded acct len cur None evs'
  | _ :: evs' => guarded acct len cur None evs'
  end.

(** The number of [attest] extrinsics among the events. *)
Definition is_attest (ev : Event) : bool :=
  match ev with
  | EvAttest _ _ => true
  | _ => false
  end.

Definition attest_extrinsics (evs : list Event) : nat :=
  length (List.filter is_attest evs).

(** An event that is neither a [validate] nor an [attest]. *)
Definition quiet (ev : Event) : Prop :=
  match ev with
  | EvValidate _ _ _ | EvAttest _ _ => False
  | _ => True
  end.

(** What the chain keeps of the agent's successes: once a [validate]
    succeeded in an epoch (the epochs [V]), the chain has a submission for
    that epoch; once an [attest] succeeded in an epoch (the epochs [A]),
    the submission of that epoch, when the chain shows it, lists the
    account [acct]. *)
Fixpoint chain_remembers (acct : string) (len : Z) (cur : option Z) (V A : list Z)
    (evs : list Event) : Prop :=
  match evs with
  | [] => True
  | EvBlockNumber r :: evs' => chain_remembers acct len (block_epoch len r) V A evs'
  | EvValidate _ _ r :: evs' =>
      chain_remembers acct len cur
        (match cur with Some e => if succeeded r then e :: V else V | None => V end) A evs'
  | EvAttest _ r :: evs' =>
      chain_remembers acct len cur V
        (match cur with Some e => if succeeded r then e :: A else A | None => A end) evs'
  | EvRewardsSubmission _ e (Ok None) :: evs' =>
      ¬ In e V ∧ chain_remembers acct len cur V A evs'
  | EvRewardsSubmission _ e (Ok (Some sub)) :: evs' =>
      (In e A → In acct (map fst (sub_attests sub)))
      ∧ chain_remembers acct len cur V A evs'
  | _ :: evs' => chain_remembers acct len cur V A evs'
  end.

(** A chain on which the first [validate] of epoch [10] is rejected. *)
Definition rejecting_chain : Replay :=
  [EvBlockNumber (Ok 100); EvRewardsValidator (Some 1) 10 (Ok (Some "me"));
   EvRewardsSubmission (Some 1) 10 (Ok None);
   EvConsensusData (Some 1) (Ok [PDict p1]);
   EvValidate (Some 1) [PDict p1]
     (Ok (Some {| is_success := false; triggered_events := [] |}));
   EvBlockNumber (Ok 101); EvRewardsValidator (Some 1) 10 (Ok (Some "me"));
   EvRewardsSubmission (Some 1) 10 (Ok None);
   EvConsensusData (Some 1) (Ok [PDict p1]);
   EvValidate (Some 1) [PDict p1]
     (Ok (Some {| is_success := true; triggered_events := [] |}))].

(** A chain on which the [validate] of epoch [10] succeeds; the process
    is then restarted within the epoch and finds the submission. *)
Definition remembering_chain : Replay :=
  [EvBlockNumber (Ok 100); EvRewardsValidator (Some 1) 10 (Ok (Some "me"));
   EvRewardsSubmission (Some 1) 10 (Ok None);
   EvConsensusData (Some 1) (Ok [PDict p1]);
   EvValidate (Some 1) [PDict p1]
     (Ok (Some {| is_success := true; triggered_events := [] |}));
   EvBlockNumber (Ok 102);
   EvSubnetIdByPath "subnet" (Ok (Some 1));
   EvSubnetData 1 (Ok (Some {| initialized := 10; registration_blocks := 20;
                               activated := 40 |}));
   EvBlockNumber (Ok 103);
   EvSubmittableNodes (Some 1) (Ok two_nodes);
   EvRewardsValidator (Some 1) 10 (Ok (Some "me"));
   EvRewardsSubmission (Some 1) 10 (Ok (Some submitted))].

(** *** What the methods keep *)

(** What [attest] and the inner loop of [run] leave alone: every field
    but the completed epoch and the remembered score set, and that one is
    never forgotten. *)
Definition untouched (c c' : Consensus) : Prop :=
  subnet_id c' = subnet_id c ∧ path c' = path c
  ∧ subnet_accepting_consensus c' = subnet_accepting_consensus c
  ∧ subnet_node_eligible c' = subnet_node_eligible c
  ∧ subnet_activated c' = subnet_activated c
  ∧ account_id c' = account_id c ∧ epoch_length c' = epoch_length c
  ∧ stop c' = stop c
  ∧ (is_Some (previous_epoch_data c) → is_Some (previous_epoch_data c')).

(** What no method undoes: the path, the account and the epoch length
    stay, and the flags and the remembered score set, once set, stay
    set. *)
Definition keeps (c c' : Consensus) : Prop :=
  path c' = path c ∧ account_id c' = account_id c ∧ epoch_length c' = epoch_length c
  ∧ (subnet_accepting_consensus c = true → subnet_accepting_consensus c' = true)
  ∧ (subnet_node_eligible c = true → subnet_node_eligible c' = true)
  ∧ (stop c = true → stop c' = true)
  ∧ (is_Some (previous_epoch_data c) → is_Some (previous_epoch_data c')).

(** The flags of an agent agree with its fields: it accepts consensus
    only with a subnet id and a positive [subnet_activated], and it is
    eligible only when it accepts consensus. *)
Definition well_formed (c : Consensus) : Prop :=
  (subnet_accepting_consensus c = true → is_Some (subnet_id c) ∧ 0 < subnet_activated c)
  ∧ (subnet_node_eligible c = true → subnet_accepting_consensus c = true).

(** An event that is not a lookup of the subnet that found nothing:
    [get_subnet_id_by_path] and [get_subnet_data] answer [None] for a path
    or an id the chain does not know. *)
Definition found (ev : Event) : Prop :=
  match ev with
  | EvSubnetIdByPath _ (Ok None) | EvSubnetData _ (Ok None) => False
  | _ => True
  end.

(** A call that names a subnet does so by an id, not by [None]. *)
Definition with_subnet_id (ev : Event) : Prop :=
  match ev with
  | EvSubmittableNodes sid _ | EvRewardsValidator sid _ _ | EvRewardsSubmission sid _ _
  | EvConsensusData sid _ | EvValidate sid _ _ | EvAttest sid _ => is_Some sid
  | _ => True
  end.

(** *** Who submits, and what *)

(** The validator the chain names in an answer of [get_rewards_validator],
    with the epoch asked for. *)
Definition named (e : Z) (r : Res (option string)) : option (Z * string) :=
  match r with
  | Ok (Some w) => Some (e, w)
  | _ => None
  end.

(** Every extrinsic follows the election: a [validate] is submitted only
    when the latest answer of [get_rewards_validator] named the account
    [acct] validator of the epoch the agent is in ([cur], the epoch of the
    latest block number fetched); an [attest] only when that answer named
    another account, for an epoch that is not before the one the agent is
    in.  [v] is the latest answer. *)
Fixpoint elected (acct : string) (len : Z) (cur : option Z) (v : option (Z * string))
    (evs : list Event) : Prop :=
  match evs with
  | [] => True
  | EvBlockNumber r :: evs' => elected acct len (block_epoch len r) v evs'
  | EvRewardsValidator _ e r :: evs' => elected acct len cur (named e r) evs'
  | EvValidate _ _ _ :: evs' =>
      (∃ e, cur = Some e ∧ v = Some (e, acct)) ∧ elected acct len cur v evs'
  | EvAttest _ _ :: evs' =>
      (∃ e w c, v = Some (e, w) ∧ w ≠ acct ∧ cur = Some c ∧ c <= e)
      ∧ elected acct len cur v evs'
  | _ :: evs' => elected acct len cur v evs'
  end.

(** Every [validate] submits the answer the scoring probe gave in the call
    just before, for the same subnet.  [d] is that answer when the latest
    event is a call of the probe. *)
Fixpoint probed (d : option (option Z * list PyObj)) (evs : list Event) : Prop :=
  match evs with
  | [] => True
  | EvConsensusData sid (Ok data) :: evs' => probed (Some (sid, data)) evs'
  | EvValidate sid data _ :: evs' => d = Some (sid, data) ∧ probed None evs'
  | _ :: evs' => probed None evs'
  end.

(** *** The activation slot *)

(** Every [activate_subnet] among the events is submitted in the slot
    [lo <= block < hi], [block] the latest block number fetched, and right
    after a read of the subnet data that shows it not activated.  [cur] is
    the latest block number, [fresh] the subnet data when the latest event
    is a read of it. *)
Fixpoint in_slot (lo hi : Z) (cur : option Z) (fresh : option SubnetData)
    (evs : list Event) : Prop :=
  match evs with
  | [] => True
  | EvBlockNumber r :: evs' =>
      in_slot lo hi (match r with Ok b => Some b | Raise _ => None end) None evs'
  | EvSubnetData _ r :: evs' =>
      in_slot lo hi cur (match r with Ok (Some d) => Some d | _ => None end) evs'
  | EvActivateSubnet _ _ :: evs' =>
      (∃ b d, cur = Some b ∧ lo <= b < hi ∧ fresh = Some d ∧ activated d <= 0)
      ∧ in_slot lo hi cur None evs'
  | _ :: evs' => in_slot lo hi cur None evs'
  end.

(** What the chain shows while the subnet is in registration and the
    account [acct] is not among the submittable nodes. *)
Definition unlisted (acct : string) (ev : Event) : Prop :=
  match ev with
  | EvSubnetIdByPath _ (Ok (Some _)) => True
  | EvSubnetData _ (Ok (Some d)) => activated d <= 0
  | EvSubmittableNodes _ (Ok nodes) => Forall (λ a, a ≠ acct) (node_account_id <$> nodes)
  | EvSleep _ => True
  | _ => False
  end.

(** The number of calls of [time.sleep] among the events. *)
Definition is_sleep (ev : Event) : bool :=
  match ev with
  | EvSleep _ => true
  | _ => false
  end.

Definition sleeps (evs : list Event) : nat := length (List.filter is_sleep evs).

(** Whether the answer to [activate_subnet] shows the activation: a
    receipt of success with a [SubnetActivated] event. *)
Definition activation_succeeded (receipt : option Receipt) : bool :=
  match receipt with
  | Some r =>
      is_success r
      && existsb (λ event_id, bool_decide (event_id = "SubnetActivated")) (triggered_events r)
  | None => false
  end.

(** *** Eligibility *)

(** Whether an answer of [get_submittable_nodes] lists the account. *)
Definition lists (acct : string) (r : Res (list SubnetNode)) : bool :=
  match r with
  | Ok nodes => existsb (λ node_set, bool_decide (node_account_id node_set = acct)) nodes
  | Raise _ => false
  end.

(** The agent asks for the validator, reads submissions, probes the
    scores and submits extrinsics only once an answer of
    [get_submittable_nodes] has listed the account [acct]; [seen] tells
    whether one has. *)
Fixpoint listed_first (acct : string) (seen : bool) (evs : list Event) : Prop :=
  match evs with
  | [] => True
  | EvSubmittableNodes _ r :: evs' => listed_first acct (seen || lists acct r) evs'
  | EvRewardsValidator _ _ _ :: evs' | EvRewardsSubmission _ _ _ :: evs'
  | EvConsensusData _ _ :: evs' | EvValidate _ _ _ :: evs' | EvAttest _ _ :: evs' =>
      seen = true ∧ listed_first acct seen evs'
  | _ :: evs' => listed_first acct seen evs'
  end.

(** An event that needs no listing. *)
Definition ungated (ev : Event) : Prop :=
  match ev with
  | EvRewardsValidator _ _ _ | EvRewardsSubmission _ _ _ | EvConsensusData _ _
  | EvValidate _ _ _ | EvAttest _ _ => False
  | _ => True
  end.

(** *** Chains and records of the examples *)

(** The record [p1] with its fields in the other order. *)
Definition p1_reordered : Fields := [("score", FInt 7); ("peer_id", FStr "p1")].

(** A subnet in registration whose submittable nodes do not include
    ["me"], read twice. *)
Definition unlisted_chain : Replay :=
  [EvSubnetIdByPath "subnet" (Ok (Some 1));
   EvSubnetData 1 (Ok (Some registering));
   EvSubmittableNodes (Some 1) (Ok [{| node_account_id := "other" |}]);
   EvSubnetIdByPath "subnet" (Ok (Some 1));
   EvSubnetData 1 (Ok (Some registering));
   EvSubmittableNodes (Some 1) (Ok [{| node_account_id := "other" |}])].

(** The second of two nodes calls [_activate_subnet] inside its slot. *)
Definition slot_chain : Replay :=
  [EvSubnetIdByPath "subnet" (Ok (Some 1));
   EvSubnetData 1 (Ok (Some registering));
   EvSubmittableNodes (Some 1) (Ok two_nodes);
   EvBlockNumber (Ok 215);
   EvSubnetData 1 (Ok (Some registering));
   EvActivateSubnet 1 (Ok (Some {| is_success := true;
                                   triggered_events := ["SubnetActivated"] |}))].

(** What a fresh process finds in epoch [10] of an activated subnet whose
    validator, ["me"], has already published. *)
Definition restart_chain : Replay :=
  [EvBlockNumber (Ok 102);
   EvSubnetIdByPath "subnet" (Ok (Some 1));
   EvSubnetData 1 (Ok (Some {| initialized := 10; registration_blocks := 20;
                               activated := 40 |}));
   EvBlockNumber (Ok 103);
   EvSubmittableNodes (Some 1) (Ok two_nodes);
   EvRewardsValidator (Some 1) 10 (Ok (Some "me"));
   EvRewardsSubmission (Some 1) 10 (Ok (Some submitted))].

(** * Theorems *)

(** ** Epoch arithmetic *)

(** C9 (evaluation of the code where the claim fails): at block number
    [2^53 + 1] with epochs of one block, the loop computes epoch [2^53],
    one less than the integer quotient: the float quotient of line 77 is
    rounded before [int] truncates it. *)
Theorem epoch_of_not_floor_at_2p53 :
  epoch_of 9007199254740993 1 = Ok 9007199254740992
  ∧ 9007199254740993 / 1 = 9007199254740993
  ∧ 0 <= 9007199254740993 ∧ 0 < 1.
Proof. vm_compute. repeat split; congruence. Qed.

(** Below [2^53] nothing is lost: the rounded quotient lies in the same
    unit interval as the exact one, so [int] gives the integer quotient. *)

(** [ratio_log2] is a lower bound of the binary logarithm. *)
Lemma ratio_log2_ge (a b : Z) :
  0 < a → 0 < b → ratio_ge_pow2 a b (ratio_log2 a b) = true.
Proof.
  intros Ha Hb. unfold ratio_log2.
  destruct (ratio_ge_pow2 a b (Z.log2 a - Z.log2 b)) eqn:Hk; [exact Hk|].
  pose proof (Z.log2_spec a Ha) as [Hla _].
  pose proof (Z.log2_spec b Hb) as [_ Hlb].
  pose proof (Z.log2_nonneg a) as Hna. pose proof (Z.log2_nonneg b) as Hnb.
  unfold ratio_ge_pow2. destruct (0 <=? _) eqn:Hs.
  - apply Z.leb_le in Hs. apply Z.leb_le.
    assert (2 ^ Z.log2 a = 2 ^ (Z.log2 b + 1) * 2 ^ (Z.log2 a - Z.log2 b - 1)) as Hp.
    { rewrite <- Z.pow_add_r by lia; f_equal; lia. }
    assert (0 < 2 ^ (Z.log2 a - Z.log2 b - 1)) by (apply Z.pow_pos_nonneg; lia).
    nia.
  - apply Z.leb_gt in Hs. apply Z.leb_le.
    assert (2 ^ (Z.log2 b + 1) = 2 ^ Z.log2 a * 2 ^ (- (Z.log2 a - Z.log2 b - 1))) as Hp.
    { rewrite <- Z.pow_add_r by lia; f_equal; lia. }
    assert (0 < 2 ^ (- (Z.log2 a - Z.log2 b - 1))) by (apply Z.pow_pos_nonneg; lia).
    nia.
Qed.

Lemma round_half_even_bounds (n d : Z) :
  0 < d →
  n / d <= round_half_even n d <= n / d + 1
  ∧ (round_half_even n d = n / d + 1 → d <= 2 * (n mod d)).
Proof.
  intros Hd. unfold round_half_even.
  destruct (2 * (n mod d) <? d) eqn:H1; [apply Z.ltb_lt in H1; lia|].
  apply Z.ltb_ge in H1.
  destruct (d <? 2 * (n mod d)) eqn:H2; [lia|].
  destruct (Z.even (n / d)); lia.
Qed.

(** A quotient below [2^53] with [2^fl] under it. *)
Lemma ratio_below (a b fl : Z) :
  0 < a < 2 ^ 53 → 0 < b → ratio_ge_pow2 a b fl = true →
  fl <= 52 ∧ b < 2 ^ (53 - fl).
Proof.
  intros Ha Hb Hge. unfold ratio_ge_pow2 in Hge.
  destruct (0 <=? fl) eqn:Hs.
  - apply Z.leb_le in Hs. apply Z.leb_le in Hge.
    assert (0 < 2 ^ fl) by (apply Z.pow_pos_nonneg; lia).
    assert (fl <= 52) as Hfl.
    { destruct (Z.le_gt_cases fl 52) as [|Hgt]; [assumption|].
      assert (2 ^ 53 <= 2 ^ fl) by (apply Z.pow_le_mono_r; lia). nia. }
    split; [exact Hfl|].
    assert (2 ^ 53 = 2 ^ fl * 2 ^ (53 - fl)) as Hp.
    { rewrite <- Z.pow_add_r by lia; f_equal; lia. }
    nia.
  - apply Z.leb_gt in Hs. apply Z.leb_le in Hge. split; [lia|].
    assert (2 ^ (53 - fl) = 2 ^ 53 * 2 ^ (- fl)) as Hp.
    { rewrite <- Z.pow_add_r by lia; f_equal; lia. }
    assert (0 < 2 ^ (- fl)) by (apply Z.pow_pos_nonneg; lia).
    nia.
Qed.

(** The rounded quotient of [a < 2^53] by [b]: no overflow, and its integer
    part is [a / b]. *)
Lemma round_binary64_exact (a b : Z) :
  0 < a < 2 ^ 53 → 0 < b →
  let f := round_binary64 a b in
  0 <= mant f ∧ mant f * 2 ^ (expo f + 1074) < 2 ^ 2098 ∧ py_int f = a / b.
Proof.
  intros Ha Hb. unfold round_binary64, py_int. cbn [mant expo].
  pose proof (ratio_log2_ge a b ltac:(lia) Hb) as Hge.
  pose proof (ratio_below a b _ Ha Hb Hge) as [Hfl Hbl].
  remember (ratio_log2 a b) as fl eqn:Efl.
  remember (Z.max (fl - 52) (-1074)) as e eqn:Ee.
  assert (e <= 0 ∧ -1074 <= e) as [He0 He1] by lia.
  assert (e = fl - 52 ∨ (e = -1074 ∧ fl - 52 < -1074)) as Hclip by lia.
  clear Ee Efl Hge.
  pose proof (Z.div_mod a b ltac:(lia)) as Hdm.
  pose proof (Z.mod_pos_bound a b Hb) as Hmb.
  remember (a / b) as q eqn:Eq.
  remember (a mod b) as r eqn:Er.
  assert (0 <= q) as Hq0 by (subst q; apply Z.div_pos; lia).
  (* the powers of two, as numbers with the facts used about them *)
  assert (2 ^ 53 * 2 ^ 1074 <= 2 ^ 2098) as HW.
  { rewrite <- Z.pow_add_r by lia. apply Z.pow_le_mono_r; lia. }
  assert (2 ^ 53 <= 2 ^ 1074) as HTK by (apply Z.pow_le_mono_r; lia).
  assert (2 <= 2 ^ 53) as HT2.
  { change 2 with (2 ^ 1) at 1. apply Z.pow_le_mono_r; lia. }
  assert (2 ^ (- e) * 2 ^ (e + 1074) = 2 ^ 1074) as HPX.
  { rewrite <- Z.pow_add_r by lia. f_equal; lia. }
  assert (0 < 2 ^ (e + 1074)) as HX by (apply Z.pow_pos_nonneg; lia).
  assert (1 <= 2 ^ (- e)) as HP1.
  { change 1 with (2 ^ 0) at 1. apply Z.pow_le_mono_r; lia. }
  assert (e < 0 → 2 <= 2 ^ (- e)) as HP2.
  { intros. change 2 with (2 ^ 1) at 1. apply Z.pow_le_mono_r; lia. }
  assert (e = fl - 52 → 2 * 2 ^ (- e) = 2 ^ (53 - fl)) as HPfl.
  { intros ->. change 2 with (2 ^ 1) at 1. rewrite <- Z.pow_add_r by lia. f_equal; lia. }
  assert (e = -1074 → 2 ^ (- e) = 2 ^ 1074) as HPclip by (intros ->; reflexivity).
  remember (2 ^ 53) as T eqn:ET.
  remember (2 ^ 1074) as K eqn:EK.
  remember (2 ^ 2098) as W eqn:EW.
  remember (2 ^ (e + 1074)) as X eqn:EX.
  remember (2 ^ (53 - fl)) as B eqn:EB.
  assert (q + 1 <= T) as Hq53 by nia.
  destruct (0 <=? e) eqn:Hs.
  - apply Z.leb_le in Hs. assert (e = 0) as -> by lia.
    change (2 ^ 0) with 1. change (- 0) with 0 in *. change (2 ^ 0) with 1 in *.
    rewrite Z.mul_1_r.
    assert (b = 1) as ->.
    { destruct Hclip as [Hc|[Hc _]]; [|lia]. specialize (HPfl Hc). lia. }
    pose proof (round_half_even_bounds a 1 ltac:(lia)) as [Hr Hup].
    rewrite Z.div_1_r in Hr, Hup. rewrite Z.mod_1_r in Hup.
    assert (round_half_even a 1 = a) as -> by lia.
    rewrite Z.div_1_r in Eq. split; [lia|]. split; [nia|lia].
  - apply Z.leb_gt in Hs. specialize (HP2 Hs).
    remember (2 ^ (- e)) as P eqn:EP.
    pose proof (round_half_even_bounds (a * P) b Hb) as [Hr Hup].
    remember (round_half_even (a * P) b) as m eqn:Em.
    pose proof (Z.div_mod (a * P) b ltac:(lia)) as Hdm2.
    pose proof (Z.mod_pos_bound (a * P) b Hb) as Hmb2.
    remember (a * P / b) as t eqn:Et.
    remember ((a * P) mod b) as r2 eqn:Er2.
    clear Em Et Er2 Eq Er EP ET EK EW EX EB.
    assert (q * P <= t) as Hqt by nia.
    assert (t < (q + 1) * P) as Htq by nia.
    assert (m < (q + 1) * P) as Hm.
    { destruct (Z.eq_dec m (t + 1)) as [Hmt|]; [|lia].
      destruct (Z.eq_dec (t + 1) ((q + 1) * P)) as [Hedge|]; [|lia].
      exfalso. specialize (Hup Hmt).
      assert ((b - r) * P = b - r2) as Hbr.
      { assert (t = (q + 1) * P - 1) as Ht by lia.
        rewrite Ht, Hdm in Hdm2. lia. }
      assert (0 <= (b - r - 1) * P) by (apply Z.mul_nonneg_nonneg; lia).
      assert (2 * P <= b) as H2P by lia.
      destruct Hclip as [Hc|[Hc _]].
      - specialize (HPfl Hc). lia.
      - specialize (HPclip Hc). assert (2 * t <= a) by nia. nia. }
    split; [lia|]. split.
    + assert (m * X < (q + 1) * K) by nia. nia.
    + rewrite Z.quot_div_nonneg by lia.
      symmetry. apply Z.div_unique with (r := m - q * P); lia.
Qed.

(** For block numbers below [2^53] the epoch of the loop is the integer
    quotient. *)
Lemma epoch_of_exact (a b : Z) :
  0 <= a < 2 ^ 53 → 0 < b → epoch_of a b = Ok (a / b).
Proof.
  intros Ha Hb. unfold epoch_of, py_truediv.
  rewrite (proj2 (Z.eqb_neq b 0)) by lia.
  destruct (a =? 0) eqn:Ha0.
  - apply Z.eqb_eq in Ha0. subst a. reflexivity.
  - apply Z.eqb_neq in Ha0.
    rewrite (Z.abs_eq a), (Z.abs_eq b) by lia.
    pose proof (round_binary64_exact a b ltac:(lia) Hb) as (Hm & Hov & Hint).
    cbn zeta in *. rewrite (proj2 (Z.leb_gt _ _) Hov).
    rewrite (Z.sgn_pos a), (Z.sgn_pos b) by lia. cbn [res_bind]. f_equal.
    rewrite <- Hint. unfold py_int. cbn [mant expo].
    by rewrite !Z.mul_1_l.
Qed.

(** X1: for a block number in [0, 2^53) and a positive epoch length, the
    epoch of lines 77 and 184, [int(block_number / self.epoch_length)], is
    the integer quotient: the epoch [e] with
    [e * epoch_length <= block_number < (e + 1) * epoch_length]. *)
Theorem epoch_of_floor_below_2p53 (block_number len : Z) :
  0 <= block_number < 2 ^ 53 → 0 < len →
  ∃ epoch, epoch_of block_number len = Ok epoch
           ∧ epoch = block_number / len
           ∧ epoch * len <= block_number < (epoch + 1) * len.
Proof.
  intros Hb Hlen. exists (block_number / len).
  split; [by apply epoch_of_exact|]. split; [reflexivity|].
  pose proof (Z.div_mod block_number len ltac:(lia)).
  pose proof (Z.mod_pos_bound block_number len Hlen). lia.
Qed.

Section Proofs.

Context {Env : Type} `{!chain_functions.ChainClient Env}.

Variable BLOCK_SECS : Z.

Implicit Types (s : State (Env:=Env)) (c : Consensus).

(** ** Canonical forms *)

Lemma res_map_asdict (A : list Fields) : res_map asdict (PDataclass <$> A) = Ok A.
Proof. induction A as [|f A IH]; csimpl; [done|]. by rewrite IH. Qed.

Lemma res_map_dict_items (A : list Fields) : res_map dict_items (PDict <$> A) = Ok A.
Proof. induction A as [|f A IH]; csimpl; [done|]. by rewrite IH. Qed.

Lemma set_of_dataclasses_decoded (A : list Fields) :
  set_of_dataclasses (PDataclass <$> A) = Ok (list_to_set (frozenset <$> A)).
Proof. unfold set_of_dataclasses. by rewrite res_map_asdict. Qed.

Lemma set_of_dicts_probe (A : list Fields) :
  set_of_dicts (PDict <$> A) = Ok (list_to_set (frozenset <$> A)).
Proof. unfold set_of_dicts. by rewrite res_map_dict_items. Qed.

(** Iterating over a submission yields [str] keys, and [asdict] refuses
    them. *)
Lemma set_of_dataclasses_submission (sub : Submission) :
  set_of_dataclasses (submission_iter sub) = Raise TypeError.
Proof. reflexivity. Qed.

(** ** [should_attest] *)

(** Equal canonical sets are attested, whatever the agent remembers, and
    the node's set becomes the remembered one. *)
Lemma should_attest_equal_sets (v m : list PyObj) (S : ScoreSet) (epoch : Z) s :
  set_of_dataclasses v = Ok S →
  set_of_dicts m = Ok S →
  (v ≠ [] ∨ m ≠ []) →
  should_attest v m epoch s
  = (Ok true, {| env := env s; self := set_previous_epoch_data (Some S) (self s) |}, []).
Proof.
  intros Hv Hm Hne. unfold should_attest.
  assert ((length v =? 0)%nat && (length m =? 0)%nat = false) as ->.
  { destruct v, m; simpl; try reflexivity. destruct Hne; congruence. }
  unfold bind, lift, gets, modify, ret. rewrite Hv, Hm. simpl.
  rewrite bool_decide_eq_true_2 by reflexivity. reflexivity.
Qed.

(** C4: for every score vector [A], the empty one included, and every
    epoch, [should_attest] called with [A] as the validator's decoded data
    and [A] as the node's own data returns [True]: both sides have the
    same canonical set of field tuples. *)
Theorem should_attest_reflexive (A : list Fields) (epoch : Z) s :
  outcome (should_attest (PDataclass <$> A) (PDict <$> A) epoch s) = Ok true.
Proof.
  destruct A as [|f A].
  - reflexivity.
  - erewrite should_attest_equal_sets; [reflexivity | apply set_of_dataclasses_decoded
      | apply set_of_dicts_probe | left; discriminate].
Qed.

(** C5 (evaluation of the code where the claim fails): with both lists
    empty, [should_attest] returns at its first test and the remembered
    score set stays what it was, here the set holding [p1], although the
    node's fresh score set is the empty one. *)
Theorem should_attest_both_empty_keeps_previous (e : Env) (epoch : Z) :
  let s := {| env := e;
              self := set_previous_epoch_data (Some {[ frozenset p1 ]}) joined |} in
  should_attest [] [] epoch s = (Ok true, s, [])
  ∧ previous_epoch_data (self (final (should_attest [] [] epoch s)))
    = Some {[ frozenset p1 ]}
  ∧ set_of_dicts [] = Ok ∅
  ∧ ({[ frozenset p1 ]} : ScoreSet) ≠ ∅.
Proof.
  simpl. repeat split. intros Heq.
  assert (frozenset p1 ∈ (∅ : ScoreSet)) as Hin by (rewrite <- Heq; set_solver).
  set_solver.
Qed.

(** On the first epoch of the agent, a disagreement sends [should_attest]
    to the chain for the previous submission; when there is one, the
    generator over it raises and nothing is remembered. *)
Lemma should_attest_fallback_raises (v m : list PyObj) (S1 S2 : ScoreSet) (epoch : Z)
    (sub : Submission) (e1 : Env) s :
  set_of_dataclasses v = Ok S1 →
  set_of_dicts m = Ok S2 →
  S1 ≠ S2 →
  previous_epoch_data (self s) = None →
  chain_functions.get_rewards_submission (subnet_id (self s)) (epoch - 1) (env s)
    = (Ok (Some sub), e1) →
  should_attest v m epoch s
  = (Raise TypeError, {| env := e1; self := self s |},
     [EvRewardsSubmission (subnet_id (self s)) (epoch - 1) (Ok (Some sub))]).
Proof.
  intros Hv Hm Hne Hprev Hsub. unfold should_attest.
  assert ((length v =? 0)%nat && (length m =? 0)%nat = false) as ->.
  { destruct v, m; try reflexivity. cbn in Hv, Hm. congruence. }
  unfold bind, lift, gets, _get_validator_consensus_submission, call, bind, gets.
  rewrite Hv, Hm. cbn [self env]. rewrite Hprev.
  rewrite (bool_decide_eq_false_2 _ Hne). rewrite Hsub. reflexivity.
Qed.

(** X2: an agent that remembers a score set [prev] decides without the
    chain: with the two lists not both empty, [should_attest] approves
    exactly when every record of the symmetric difference of the two
    canonical sets is in [prev] (none, when the sets are equal), calls
    nothing, and remembers the node's set. *)
Theorem should_attest_remembered (v m : list PyObj) (S1 S2 prev : ScoreSet) (epoch : Z) s :
  set_of_dataclasses v = Ok S1 →
  set_of_dicts m = Ok S2 →
  (v ≠ [] ∨ m ≠ []) →
  previous_epoch_data (self s) = Some prev →
  should_attest v m epoch s
  = (Ok (bool_decide (symmetric_difference S1 S2 ⊆ prev)),
     {| env := env s; self := set_previous_epoch_data (Some S2) (self s) |}, []).
Proof.
  intros Hv Hm Hne Hprev. unfold should_attest.
  assert ((length v =? 0)%nat && (length m =? 0)%nat = false) as ->.
  { destruct v, m; simpl; try reflexivity. destruct Hne; congruence. }
  unfold bind, lift, gets, modify, ret. rewrite Hv, Hm. cbn [self env]. rewrite Hprev.
  destruct (bool_decide (S1 = S2)) eqn:Heq; [|reflexivity].
  apply bool_decide_eq_true_1 in Heq. subst S2.
  rewrite (bool_decide_eq_true_2 (symmetric_difference S1 S1 ⊆ prev)); [reflexivity|].
  unfold symmetric_difference. intros k Hk.
  apply elem_of_union in Hk as [Hk|Hk]; apply elem_of_difference in Hk; tauto.
Qed.

(** X3: the result of [should_attest] depends on the two lists only
    through their canonical sets: lists that hold the same records, in
    another order, with repetitions, or with the fields of a record in
    another order, give the same verdict, the same remembered set and the
    same calls. *)
Theorem should_attest_order_irrelevant (A A' B B' : list Fields) (epoch : Z) s :
  (∀ k, k ∈ frozenset <$> A ↔ k ∈ frozenset <$> A') →
  (∀ k, k ∈ frozenset <$> B ↔ k ∈ frozenset <$> B') →
  should_attest (PDataclass <$> A) (PDict <$> B) epoch s
  = should_attest (PDataclass <$> A') (PDict <$> B') epoch s.
Proof.
  intros HA HB. unfold should_attest.
  rewrite !set_of_dataclasses_decoded, !set_of_dicts_probe.
  assert (list_to_set (frozenset <$> A) =@{ScoreSet} list_to_set (frozenset <$> A')) as ->.
  { apply set_eq. intros k. rewrite !elem_of_list_to_set. apply HA. }
  assert (list_to_set (frozenset <$> B) =@{ScoreSet} list_to_set (frozenset <$> B')) as ->.
  { apply set_eq. intros k. rewrite !elem_of_list_to_set. apply HB. }
  assert (∀ (T : Type) (f : Fields → T) (L L' : list Fields),
            (∀ k, k ∈ frozenset <$> L ↔ k ∈ frozenset <$> L') →
            (length (f <$> L) =? 0)%nat = (length (f <$> L') =? 0)%nat) as Hlen.
  { intros T f L L' Hk. destruct L as [|x L], L' as [|x' L']; try reflexivity; exfalso.
    - apply (not_elem_of_nil (frozenset x')). apply (Hk (frozenset x')). csimpl. left.
    - apply (not_elem_of_nil (frozenset x)). apply (Hk (frozenset x)). csimpl. left. }
  rewrite (Hlen _ PDataclass A A' HA), (Hlen _ PDict B B' HB). reflexivity.
Qed.

(** X4: an agent that remembers no score set never approves data that
    differs from its own: [should_attest] asks the chain for the submission
    of the previous epoch and returns [False] when there is none, raises
    [TypeError] when there is one, and raises what the query raised. *)
Theorem should_attest_first_epoch_never_approves
    (v m : list PyObj) (S1 S2 : ScoreSet) (epoch : Z) s :
  set_of_dataclasses v = Ok S1 →
  set_of_dicts m = Ok S2 →
  S1 ≠ S2 →
  previous_epoch_data (self s) = None →
  outcome (should_attest v m epoch s) ≠ Ok true
  ∧ outcome (should_attest v m epoch s)
    = match (chain_functions.get_rewards_submission
               (subnet_id (self s)) (epoch - 1) (env s)).1 with
      | Ok None => Ok false
      | Ok (Some _) => Raise TypeError
      | Raise x => Raise x
      end.
Proof.
  intros Hv Hm Hne Hprev.
  assert (outcome (should_attest v m epoch s)
          = match (chain_functions.get_rewards_submission
                     (subnet_id (self s)) (epoch - 1) (env s)).1 with
            | Ok None => Ok false
            | Ok (Some _) => Raise TypeError
            | Raise x => Raise x
            end) as Hout.
  { unfold should_attest.
    assert ((length v =? 0)%nat && (length m =? 0)%nat = false) as ->.
    { destruct v, m; try reflexivity. cbn in Hv, Hm. congruence. }
    unfold bind, lift, gets, _get_validator_consensus_submission, call, bind, gets.
    rewrite Hv, Hm. cbn [self env]. rewrite Hprev.
    rewrite (bool_decide_eq_false_2 _ Hne).
    destruct (chain_functions.get_rewards_submission _ _ _) as [[[sub|]|x] e1]; reflexivity. }
  split; [|exact Hout]. rewrite Hout.
  destruct (chain_functions.get_rewards_submission _ _ _).1 as [[sub|]|x]; discriminate.
Qed.

(** ** The extrinsic wrappers *)

(** C10: [_do_validate] and [_do_attest] never raise: they return the
    receipt's [is_success] when the chain call answers with a receipt, and
    [False] when it raises or brings no receipt. *)
Theorem do_validate_do_attest_catch (data : list PyObj) s :
  (match chain_functions.validate (subnet_id (self s)) data (env s) with
   | (Ok (Some receipt), _) => outcome (_do_validate data s) = Ok (is_success receipt)
   | _ => outcome (_do_validate data s) = Ok false
   end)
  ∧
  (match chain_functions.attest (subnet_id (self s)) (env s) with
   | (Ok (Some receipt), _) => outcome (_do_attest s) = Ok (is_success receipt)
   | _ => outcome (_do_attest s) = Ok false
   end).
Proof.
  split.
  - unfold _do_validate, try_except, bind, call, gets, receipt_is_success, outcome. simpl.
    destruct (chain_functions.validate _ _ _) as [[[r|]|x] e']; reflexivity.
  - unfold _do_attest, try_except, bind, call, gets, receipt_is_success, outcome. simpl.
    destruct (chain_functions.attest _ _) as [[[r|]|x] e']; reflexivity.
Qed.

(** ** The rules of [wp] *)

Lemma wp_ret {A} (a : A) s Q : Q (Ok a) s [] → wp (ret a) s Q.
Proof. intros HQ r s' l [= <- <- <-]. exact HQ. Qed.

Lemma wp_raise {A} (x : Exn) s (Q : Res A → _) : Q (Raise x) s [] → wp (raise x) s Q.
Proof. intros HQ r s' l [= <- <- <-]. exact HQ. Qed.

Lemma wp_lift {A} (r0 : Res A) s Q : Q r0 s [] → wp (lift r0) s Q.
Proof. intros HQ r s' l [= <- <- <-]. exact HQ. Qed.

Lemma wp_gets {A} (f : Consensus → A) s Q : Q (Ok (f (self s))) s [] → wp (gets f) s Q.
Proof. intros HQ r s' l [= <- <- <-]. exact HQ. Qed.

Lemma wp_modify (f : Consensus → Consensus) s Q :
  Q (Ok tt) {| env := env s; self := f (self s) |} [] → wp (modify f) s Q.
Proof. intros HQ r s' l [= <- <- <-]. exact HQ. Qed.

Lemma wp_call {A} (op : Env → Res A * Env) (ev : Res A → Event) s Q :
  (∀ r e', op (env s) = (r, e') → Q r {| env := e'; self := self s |} [ev r]) →
  wp (call op ev) s Q.
Proof.
  intros HQ r s' l. unfold call. destruct (op (env s)) as [r0 e'] eqn:Hop.
  intros [= <- <- <-]. by apply HQ.
Qed.

Lemma wp_time_sleep (secs : Q) s P :
  ((secs < 0)%Q → P (Raise ValueError) s []) →
  ((0 <= secs)%Q →
   P (Ok tt) {| env := chain_functions.sleep secs (env s); self := self s |} [EvSleep secs]) →
  wp (time_sleep secs) s P.
Proof.
  intros Hneg Hpos r s' l. unfold time_sleep.
  destruct (Qlt_le_dec secs 0); intros [= <- <- <-]; auto.
Qed.

Lemma wp_bind {A B} (m : M A) (f : A → M B) s Q :
  wp m s (λ r s1 l1,
    match r with
    | Ok a => wp (f a) s1 (λ r2 s2 l2, Q r2 s2 (l1 ++ l2))
    | Raise x => Q (Raise x) s1 l1
    end) →
  wp (bind m f) s Q.
Proof.
  intros Hm r s' l. unfold bind.
  destruct (m s) as [[[a|x] s1] l1] eqn:Hms; specialize (Hm _ _ _ Hms); simpl in Hm.
  - destruct (f a s1) as [[r2 s2] l2] eqn:Hf. intros [= <- <- <-]. by apply Hm.
  - intros [= <- <- <-]. exact Hm.
Qed.

Lemma wp_try_except {A} (m : M A) (h : Exn → M A) s Q :
  wp m s (λ r s1 l1,
    match r with
    | Ok a => Q (Ok a) s1 l1
    | Raise x => wp (h x) s1 (λ r2 s2 l2, Q r2 s2 (l1 ++ l2))
    end) →
  wp (try_except m h) s Q.
Proof.
  intros Hm r s' l. unfold try_except.
  destruct (m s) as [[[a|x] s1] l1] eqn:Hms; specialize (Hm _ _ _ Hms); simpl in Hm.
  - intros [= <- <- <-]. exact Hm.
  - destruct (h x s1) as [[r2 s2] l2] eqn:Hh. intros [= <- <- <-]. by apply Hm.
Qed.

Lemma wp_mono {A} (m : M A) s (Q Q' : Res A → State → list Event → Prop) :
  wp m s Q → (∀ r s' l, Q r s' l → Q' r s' l) → wp m s Q'.
Proof. intros Hm HQ r s' l Hms. apply HQ. by apply Hm. Qed.

Lemma wp_elim {A} (m : M A) s Q :
  wp m s Q → Q (outcome (m s)) (final (m s)) (emitted (m s)).
Proof. intros Hm. apply Hm. by destruct (m s) as [[r s'] l]. Qed.

Lemma wp_intro {A} (m : M A) s (Q : Res A → State → list Event → Prop) :
  Q (outcome (m s)) (final (m s)) (emitted (m s)) → wp m s Q.
Proof. intros HQ r s' l Hms. by rewrite Hms in HQ. Qed.

(** ** Running a method step by step *)

Lemma bind_Ok {A B} (m : M A) (f : A → M B) s a s1 l1 :
  m s = (Ok a, s1, l1) →
  bind m f s = (let '(r, s2, l2) := f a s1 in (r, s2, l1 ++ l2)).
Proof. intros Hm. unfold bind. by rewrite Hm. Qed.

Lemma bind_Raise {A B} (m : M A) (f : A → M B) s x s1 l1 :
  m s = (Raise x, s1, l1) → bind m f s = (Raise x, s1, l1).
Proof. intros Hm. unfold bind. by rewrite Hm. Qed.

Lemma time_sleep_Ok (z : Z) s :
  0 <= z →
  time_sleep (inject_Z z) s
  = (Ok tt, {| env := chain_functions.sleep (inject_Z z) (env s); self := self s |},
     [EvSleep (inject_Z z)]).
Proof.
  intros Hz. unfold time_sleep. destruct (Qlt_le_dec (inject_Z z) 0) as [Hlt|Hle]; [|done].
  exfalso. change 0%Q with (inject_Z 0) in Hlt. rewrite <- Zlt_Qlt in Hlt. lia.
Qed.

Lemma has_attested_In (acct : string) (attestations : list (string * Z)) :
  In acct (map fst attestations) →
  existsb (λ data : string * Z, bool_decide (data.1 = acct)) attestations = true.
Proof.
  intros Hin. apply existsb_exists. apply in_map_iff in Hin as [d [Hd Hin]].
  exists d. split; [exact Hin|]. by apply bool_decide_eq_true_2.
Qed.

(** ** [attest] and the inner loop *)

(** C6: when the validator's submission for the epoch already lists this
    node's account among its attestations, [attest] returns
    [(False, ATTESTED)] after its one query, submitting nothing, and the
    pass of the inner loop that made the call stores the epoch in
    [last_validated_or_attested_epoch] and leaves the loop. *)
Theorem already_attested_completes
    (fuel : nat) (initial_epoch attest_checks b epoch : Z)
    (sub : Submission) (e1 e2 : Env) s :
  0 <= BLOCK_SECS →
  chain_functions.get_block_number
    (chain_functions.sleep (inject_Z BLOCK_SECS) (env s)) = (Ok b, e1) →
  epoch_of b (epoch_length (self s)) = Ok epoch →
  epoch <= initial_epoch →
  attest_checks <= MAX_ATTEST_CHECKS →
  chain_functions.get_rewards_submission (subnet_id (self s)) epoch e1
    = (Ok (Some sub), e2) →
  In (account_id (self s)) (map fst (sub_attests sub)) →
  attest epoch {| env := e1; self := self s |}
  = (Ok (false, ATTESTED), {| env := e2; self := self s |},
     [EvRewardsSubmission (subnet_id (self s)) epoch (Ok (Some sub))])
  ∧ attest_loop BLOCK_SECS (S fuel) initial_epoch attest_checks s
    = (Ok ExitAlreadyAttested,
       {| env := e2; self := set_last_epoch epoch (self s) |},
       [EvSleep (inject_Z BLOCK_SECS); EvBlockNumber (Ok b);
        EvRewardsSubmission (subnet_id (self s)) epoch (Ok (Some sub))]).
Proof.
  intros HBS Hb Hep Hle Hchk Hsub Hin.
  assert (attest epoch {| env := e1; self := self s |}
          = (Ok (false, ATTESTED), {| env := e2; self := self s |},
             [EvRewardsSubmission (subnet_id (self s)) epoch (Ok (Some sub))])) as Hatt.
  { unfold attest, _get_validator_consensus_submission, _has_attested, bind, gets, call, ret.
    simpl. rewrite Hsub. simpl. rewrite (has_attested_In _ _ Hin). reflexivity. }
  split; [exact Hatt|].
  cbn [attest_loop].
  erewrite bind_Ok by (by apply time_sleep_Ok).
  erewrite bind_Ok by (unfold call; cbn [env self]; rewrite Hb; reflexivity).
  erewrite bind_Ok by reflexivity.
  erewrite bind_Ok by (unfold lift; cbn [env self]; rewrite Hep; reflexivity).
  assert ((initial_epoch <? epoch) = false) as -> by lia.
  assert ((MAX_ATTEST_CHECKS <? attest_checks) = false) as -> by lia.
  erewrite bind_Ok by exact Hatt.
  reflexivity.
Qed.

Lemma wp_any {A} (m : M A) s (Q : Res A → State → list Event → Prop) :
  (∀ r s' l, Q r s' l) → wp m s Q.
Proof. intros HQ r s' l _. apply HQ. Qed.

Ltac wp_step :=
  lazymatch goal with
  | |- wp (bind _ _) _ _ => apply wp_bind
  | |- wp (ret _) _ _ => apply wp_ret
  | |- wp (raise _) _ _ => apply wp_raise
  | |- wp (lift _) _ _ => apply wp_lift
  | |- wp (gets _) _ _ => apply wp_gets
  | |- wp (modify _) _ _ => apply wp_modify
  | |- wp shutdown _ _ => apply wp_modify
  | |- wp (call _ _) _ _ => apply wp_call; intros [?|?] ? ?
  | |- wp (time_sleep _) _ _ => apply wp_time_sleep; intros ?
  | |- wp (try_except _ _) _ _ => apply wp_try_except
  | |- wp (if ?b then _ else _) _ _ => destruct b eqn:?
  | |- wp (match ?x with _ => _ end) _ _ => destruct x eqn:?
  | |- match ?r with Ok _ => _ | Raise _ => _ end => destruct r eqn:?
  end; cbn beta iota zeta; cbn [self env] in *.

Ltac wp_steps := repeat wp_step.

(** The steps that do not branch. *)
Ltac wp_lin :=
  repeat (lazymatch goal with
          | |- wp (bind _ _) _ _ => apply wp_bind
          | |- wp (ret _) _ _ => apply wp_ret
          | |- wp (raise _) _ _ => apply wp_raise
          | |- wp (lift _) _ _ => apply wp_lift
          | |- wp (gets _) _ _ => apply wp_gets
          | |- wp (modify _) _ _ => apply wp_modify
          | |- wp shutdown _ _ => apply wp_modify
          end; cbn beta iota zeta; cbn [self env] in *).

(** Taking a list of events apart. *)
Ltac split_Forall H :=
  repeat first [ rewrite Forall_app in H | rewrite Forall_cons in H
               | rewrite Forall_nil in H ].

(** The same, leaving one hypothesis for each event and each sublist. *)
Ltac forall_parts H :=
  lazymatch type of H with
  | Forall _ (_ ++ _) =>
      let H1 := fresh "HF" in
      let H2 := fresh "HF" in
      apply Forall_app in H; destruct H as [H1 H2]; forall_parts H1; forall_parts H2
  | Forall _ (_ :: _) =>
      let H1 := fresh "HF" in
      let H2 := fresh "HF" in
      apply Forall_cons_1 in H; destruct H as [H1 H2]; forall_parts H2
  | Forall _ [] => clear H
  | _ => idtac
  end.

(** Using the facts about the parts of a list of events. *)
Ltac use_parts :=
  repeat match goal with
  | Hi : Forall ?P ?l → _, Hl : Forall ?P ?l |- _ => specialize (Hi Hl)
  end.

(** A negative sleep is impossible with a non-negative [BLOCK_SECS]. *)
Ltac sleep_neg :=
  exfalso;
  match goal with
  | Hlt : (inject_Z _ < 0)%Q |- _ =>
      change 0%Q with (inject_Z 0) in Hlt; rewrite <- Zlt_Qlt in Hlt; lia
  end.

(** An event that a silent epoch does not show. *)
Ltac silent_contra :=
  let HF := fresh "HF" in
  intros HF; split_Forall HF; cbn [silent] in HF;
  repeat match goal with
  | E : epoch_of ?b ?l = _, HF' : context [epoch_of ?b ?l] |- _ => rewrite E in HF'
  end;
  first [ tauto | exfalso; lia ].

(** The inner loop ends: from [attest_checks] at most
    [MAX_ATTEST_CHECKS + 1], [MAX_ATTEST_CHECKS + 2 - attest_checks] passes
    are enough, whatever the chain answers. *)
Lemma attest_loop_fuel (fuel : nat) (initial_epoch attest_checks : Z) s :
  attest_checks <= MAX_ATTEST_CHECKS + 1 →
  MAX_ATTEST_CHECKS + 2 - attest_checks <= Z.of_nat fuel →
  outcome (attest_loop BLOCK_SECS fuel initial_epoch attest_checks s) ≠ Ok OutOfFuel.
Proof.
  intros Hc Hf.
  apply (wp_elim _ _ (λ r _ _, r ≠ Ok OutOfFuel)).
  revert attest_checks s Hc Hf.
  induction fuel as [|fuel IH]; intros attest_checks s Hc Hf.
  { unfold MAX_ATTEST_CHECKS in *. lia. }
  cbn [attest_loop]. wp_steps; try discriminate.
  apply wp_any. intros [[[|] reason]|x] s1 l1; [| |discriminate].
  - wp_steps. discriminate.
  - assert (attest_checks <= MAX_ATTEST_CHECKS) by lia.
    destruct reason; wp_steps; try discriminate;
      (eapply wp_mono; [apply IH; unfold MAX_ATTEST_CHECKS in *; lia
                        | cbn beta; intros; assumption]).
Qed.

(** The loop of an epoch in which the validator stays silent, [k] attempts
    before the counter passes [MAX_ATTEST_CHECKS]. *)
Lemma attest_loop_silent (k fuel : nat) (initial_epoch attest_checks : Z) s :
  0 <= BLOCK_SECS →
  attest_checks = MAX_ATTEST_CHECKS + 1 - Z.of_nat k →
  (k + 1 <= fuel)%nat →
  wp (attest_loop BLOCK_SECS fuel initial_epoch attest_checks) s
     (λ r s' l,
        Forall (silent (epoch_length (self s)) initial_epoch) l →
        r = Ok ExitMaxChecks ∧ self s' = self s ∧ attest_attempts l = k).
Proof.
  intros HBS. revert fuel attest_checks s.
  induction k as [|k IH]; intros fuel attest_checks s Hc Hf;
    (destruct fuel as [|fuel]; [lia|]); cbn [attest_loop]; unfold MAX_ATTEST_CHECKS in *.
  - wp_lin. wp_step; [sleep_neg|]. wp_lin. wp_step; [|silent_contra].
    wp_lin. wp_step; [|silent_contra]. wp_step; [wp_lin; silent_contra|].
    wp_step; [|lia]. wp_lin. intros _. done.
  - wp_lin. wp_step; [sleep_neg|]. wp_lin. wp_step; [|silent_contra].
    wp_lin. wp_step; [|silent_contra]. wp_step; [wp_lin; silent_contra|].
    wp_step; [lia|]. wp_lin.
    unfold attest, _get_validator_consensus_submission. wp_lin.
    wp_step; [|silent_contra]. wp_step.
    + apply wp_any. intros r1 s1 l1. destruct r1 as [ok|x]; [|silent_contra].
      apply wp_any. intros r2 s2 l2. silent_contra.
    + wp_lin. eapply wp_mono; [apply IH; lia|]. cbn beta. intros r s' l Hrec HF.
      split_Forall HF. destruct Hrec as (-> & -> & Hk); [tauto|].
      split; [done|]. split; [done|].
      unfold attest_attempts in *. cbn. rewrite Hk. reflexivity.
Qed.

(** C7: when every attempt of the epoch finds no submission and the epoch
    does not roll over, the inner loop started by [run] ends at the test of
    the counter against [MAX_ATTEST_CHECKS], after exactly four attempts,
    and leaves [last_validated_or_attested_epoch] and the rest of the agent
    as they were. *)
Theorem attest_loop_max_checks (initial_epoch : Z) s :
  0 <= BLOCK_SECS →
  Forall (silent (epoch_length (self s)) initial_epoch)
         (emitted (attest_loop BLOCK_SECS (Z.to_nat (MAX_ATTEST_CHECKS + 2)) initial_epoch 0 s)) →
  outcome (attest_loop BLOCK_SECS (Z.to_nat (MAX_ATTEST_CHECKS + 2)) initial_epoch 0 s)
  = Ok ExitMaxChecks
  ∧ attest_attempts
      (emitted (attest_loop BLOCK_SECS (Z.to_nat (MAX_ATTEST_CHECKS + 2)) initial_epoch 0 s))
    = 4%nat
  ∧ self (final (attest_loop BLOCK_SECS (Z.to_nat (MAX_ATTEST_CHECKS + 2)) initial_epoch 0 s))
    = self s.
Proof.
  intros HBS HF.
  pose proof (wp_elim _ _ _
    (attest_loop_silent 4 (Z.to_nat (MAX_ATTEST_CHECKS + 2)) initial_epoch 0 s
       HBS eq_refl ltac:(unfold MAX_ATTEST_CHECKS; lia)) HF) as (Ho & Hs & Hk).
  auto.
Qed.

(** ** [_activate_subnet] *)

Lemma find_node_from (acct : string) (nodes : list SubnetNode) (m : nat) (k : Z) :
  (node_account_id <$> nodes) !! m = Some acct →
  Forall (λ a, a ≠ acct) (take m (node_account_id <$> nodes)) →
  find_node acct nodes k = (true, k + Z.of_nat m + 1).
Proof.
  revert m k. induction nodes as [|node nodes IH]; intros m k Hat Hbefore; [done|].
  destruct m as [|m]; csimpl in *.
  - injection Hat as Hat. rewrite bool_decide_eq_true_2 by done. f_equal. lia.
  - apply Forall_cons in Hbefore as [Hne Hbefore].
    rewrite bool_decide_eq_false_2 by done.
    rewrite (IH m (k + 1) Hat Hbefore). f_equal. lia.
Qed.

Lemma find_node_listed (acct : string) (nodes : list SubnetNode) (n : Z) :
  listed_at acct nodes n → find_node acct nodes 0 = (true, n).
Proof.
  intros (Hn & Hat & Hbefore).
  rewrite (find_node_from _ _ _ 0 Hat Hbefore). f_equal. lia.
Qed.

Lemma find_node_spec (acct : string) (nodes : list SubnetNode) (k : Z) :
  match find_node acct nodes k with
  | (true, n) =>
      ∃ m : nat, n = k + Z.of_nat m + 1
                 ∧ (node_account_id <$> nodes) !! m = Some acct
                 ∧ Forall (λ a, a ≠ acct) (take m (node_account_id <$> nodes))
  | (false, n) =>
      Forall (λ a, a ≠ acct) (node_account_id <$> nodes)
      ∧ n = k + Z.of_nat (length nodes)
  end.
Proof.
  revert k. induction nodes as [|node nodes IH]; intros k; cbn [find_node].
  { split; [constructor|]. cbn. lia. }
  case_bool_decide as Hnode.
  - exists 0%nat. csimpl. split; [lia|]. split; [by rewrite Hnode|constructor].
  - specialize (IH (k + 1)). destruct (find_node acct nodes (k + 1)) as [[|] n].
    + destruct IH as (m & Hn & Hat & Hbefore). exists (S m). csimpl.
      split; [lia|]. split; [exact Hat|]. by constructor.
    + destruct IH as [Habsent Hn]. csimpl. split; [by constructor|]. lia.
Qed.

(** X5: the search of lines 393-399 of [_activate_subnet].  When it finds
    the account, [n] is the 1-based index of its first entry among the
    submittable nodes; when it does not, [n] is the number of nodes, and
    the method goes on with that [n] once its recursive call has
    returned. *)
Theorem find_node_position (acct : string) (nodes : list SubnetNode) :
  match find_node acct nodes 0 with
  | (true, n) => listed_at acct nodes n
  | (false, n) =>
      Forall (λ a, a ≠ acct) (node_account_id <$> nodes)
      ∧ n = Z.of_nat (length nodes)
  end.
Proof.
  pose proof (find_node_spec acct nodes 0) as Hspec.
  destruct (find_node acct nodes 0) as [[|] n].
  - destruct Hspec as (m & -> & Hat & Hbefore). unfold listed_at.
    replace (Z.to_nat (0 + Z.of_nat m + 1 - 1)) with m by lia.
    split; [lia|]. split; assumption.
  - destruct Hspec as [Habsent ->]. split; [exact Habsent|lia].
Qed.

Ltac bool_to_prop :=
  repeat match goal with
  | Hb : (_ && _) = true |- _ => apply andb_prop in Hb as [? ?]
  | Hb : (_ <? _) = true |- _ => apply Z.ltb_lt in Hb
  | Hb : (_ <? _) = false |- _ => apply Z.ltb_ge in Hb
  | Hb : (_ <=? _) = true |- _ => apply Z.leb_le in Hb
  | Hb : (_ <=? _) = false |- _ => apply Z.leb_gt in Hb
  end.

(** The events of one call, with the lists of events flattened. *)
Ltac flatten_events :=
  repeat first [ rewrite <- app_assoc | rewrite app_nil_r | rewrite app_nil_l
               | progress cbn [app] ].

(** ** The inner loop ends *)

Lemma bind_ext {A B} (m : M A) (f g : A → M B) s :
  (∀ a s1, f a s1 = g a s1) → bind m f s = bind m g s.
Proof.
  intros Hfg. unfold bind. destruct (m s) as [[[a|x] s1] l1]; [|reflexivity].
  by rewrite Hfg.
Qed.

(** More fuel than the loop needs changes nothing. *)
Lemma attest_loop_enough_fuel (fuel fuel' : nat) (initial_epoch attest_checks : Z) s :
  (1 <= fuel)%nat → MAX_ATTEST_CHECKS + 2 - attest_checks <= Z.of_nat fuel →
  (1 <= fuel')%nat → MAX_ATTEST_CHECKS + 2 - attest_checks <= Z.of_nat fuel' →
  attest_loop BLOCK_SECS fuel initial_epoch attest_checks s
  = attest_loop BLOCK_SECS fuel' initial_epoch attest_checks s.
Proof.
  revert fuel' attest_checks s.
  induction fuel as [|fuel IH]; intros fuel' attest_checks s H1 Hf H1' Hf'; [lia|].
  destruct fuel' as [|fuel']; [lia|]. cbn [attest_loop].
  apply bind_ext. intros _ s1. apply bind_ext. intros block_number s2.
  apply bind_ext. intros len s3. apply bind_ext. intros epoch s4.
  destruct (initial_epoch <? epoch); [reflexivity|].
  destruct (MAX_ATTEST_CHECKS <? attest_checks) eqn:Hc; [reflexivity|].
  apply Z.ltb_ge in Hc.
  apply bind_ext. intros [[|] reason] s5; [reflexivity|].
  destruct reason; try reflexivity.
  - apply IH; lia.
  - apply IH; lia.
  - apply bind_ext. intros _ s6. apply IH; lia.
Qed.

Lemma attest_extrinsics_app (l1 l2 : list Event) :
  attest_extrinsics (l1 ++ l2) = (attest_extrinsics l1 + attest_extrinsics l2)%nat.
Proof. unfold attest_extrinsics. by rewrite List.filter_app, length_app. Qed.

Lemma attest_at_most_one (epoch : Z) s :
  wp (attest epoch) s (λ r s' l, (attest_extrinsics l <= 1)%nat).
Proof.
  unfold attest, should_attest, _do_attest, receipt_is_success,
    _get_validator_consensus_submission, _has_attested, _get_consensus_data.
  repeat wp_step.
  all: flatten_events; cbn; lia.
Qed.

Lemma attest_loop_at_most (fuel : nat) (initial_epoch attest_checks : Z) s :
  attest_checks <= MAX_ATTEST_CHECKS + 1 →
  wp (attest_loop BLOCK_SECS fuel initial_epoch attest_checks) s
     (λ r s' l, Z.of_nat (attest_extrinsics l) <= MAX_ATTEST_CHECKS + 1 - attest_checks).
Proof.
  revert attest_checks s. induction fuel as [|fuel IH]; intros attest_checks s Hc;
    cbn [attest_loop].
  { wp_lin. cbn. lia. }
  repeat first
    [ wp_step
    | lazymatch goal with
      | |- wp (attest _) ?s1 _ =>
          eapply wp_mono; [apply (attest_at_most_one _ s1)|];
          cbn beta; intros ? ? ? Hone
      | |- wp (attest_loop _ _ _ ?c) ?s1 _ =>
          bool_to_prop;
          eapply wp_mono; [apply (IH c s1); lia|];
          cbn beta; intros ? ? ? Hrec
      end ].
  all: bool_to_prop.
  all: rewrite ?attest_extrinsics_app; cbn [attest_extrinsics List.filter is_attest length].
  all: lia.
Qed.

(** X6: the inner [while True] of [run] ends by itself, whatever the
    chain answers: started with [attest_checks = 0] it makes at most
    [MAX_ATTEST_CHECKS + 2] passes (more fuel changes nothing and the fuel
    never runs out) and submits at most [MAX_ATTEST_CHECKS + 1] [attest]
    extrinsics. *)
Theorem attest_loop_terminates (initial_epoch : Z) s :
  outcome (attest_loop BLOCK_SECS (Z.to_nat (MAX_ATTEST_CHECKS + 2)) initial_epoch 0 s)
  ≠ Ok OutOfFuel
  ∧ (∀ fuel, (Z.to_nat (MAX_ATTEST_CHECKS + 2) <= fuel)%nat →
       attest_loop BLOCK_SECS fuel initial_epoch 0 s
       = attest_loop BLOCK_SECS (Z.to_nat (MAX_ATTEST_CHECKS + 2)) initial_epoch 0 s)
  ∧ (attest_extrinsics
       (emitted (attest_loop BLOCK_SECS (Z.to_nat (MAX_ATTEST_CHECKS + 2)) initial_epoch 0 s))
     <= Z.to_nat (MAX_ATTEST_CHECKS + 1))%nat.
Proof.
  split; [|split].
  - apply attest_loop_fuel; unfold MAX_ATTEST_CHECKS; lia.
  - intros fuel Hfuel. apply attest_loop_enough_fuel; unfold MAX_ATTEST_CHECKS in *; lia.
  - pose proof (wp_elim _ _ _
      (attest_loop_at_most (Z.to_nat (MAX_ATTEST_CHECKS + 2)) initial_epoch 0 s
         ltac:(unfold MAX_ATTEST_CHECKS; lia))) as Hmost.
    cbn beta in Hmost. unfold MAX_ATTEST_CHECKS in *. lia.
Qed.

(** ** The activation slot *)

Lemma in_slot_app_any (lo hi : Z) (l1 l2 : list Event) cur fresh :
  in_slot lo hi cur fresh l1 →
  (∀ cur' fresh', in_slot lo hi cur' fresh' l2) →
  in_slot lo hi cur fresh (l1 ++ l2).
Proof.
  intros H1 H2. revert cur fresh H1.
  induction l1 as [|ev l1 IH]; intros cur fresh H1; [apply H2|].
  destruct ev; cbn [app in_slot] in *; try (apply IH; exact H1).
  destruct H1 as [Hp H1]. split; [exact Hp|]. by apply IH.
Qed.

Lemma activate_subnet_in_slot (n base : Z) (acct : string) (depth : nat) s :
  account_id (self s) = acct →
  wp (_activate_subnet BLOCK_SECS depth) s
     (λ r s' l,
        account_id (self s') = acct
        ∧ (Forall (registered acct n base) l →
           ∀ cur fresh,
             in_slot (base + 10 * BLOCK_SECS * (n - 1)) (base + 10 * BLOCK_SECS * n)
                     cur fresh l)).
Proof.
  revert s. induction depth as [|depth IH]; intros s Hacc; cbn [_activate_subnet].
  { wp_lin. split; [done|]. intros _ cur fresh. exact I. }
  repeat first
    [ wp_step
    | lazymatch goal with
      | |- wp (_activate_subnet _ _) ?s1 _ =>
          eapply wp_mono; [apply (IH s1); cbn [self]; congruence|];
          cbn beta; intros ? ? ? [? ?]
      | |- wp (activated_of ?d) _ _ => destruct d; unfold activated_of
      end ].
  all: (split; [cbn [self account_id set_stop set_activated]; congruence|]).
  all: intros HF cur fresh; forall_parts HF; cbn [registered] in *.
  all: repeat match goal with
       | Hl : listed_at _ _ _ |- _ =>
           apply find_node_listed in Hl; rewrite <- Hacc in Hl;
           rewrite ?Hl in *; clear Hl
       end; cbn [fst snd negb] in *; try discriminate; bool_to_prop.
  all: use_parts.
  all: flatten_events.
  all: repeat first [ progress cbn [in_slot app]
                    | exact I
                    | apply in_slot_app_any; [solve [auto] | intros ? ?]
                    | solve [auto]
                    | split
                    | exfalso; lia
                    | eexists _, _; split; [reflexivity|]; split; [lia|];
                      split; [reflexivity|lia] ].
Qed.

(** X7: in any call of [_activate_subnet], on a chain that lists the
    node at index [n] of the submittable nodes and gives [base] as the sum
    of the block of initialization and the registration blocks, every
    [activate_subnet] extrinsic is submitted inside the node's slot, the
    latest block number fetched being at least
    [base + 10 * BLOCK_SECS * (n - 1)] and below [base + 10 * BLOCK_SECS * n],
    and right after a second read of the subnet data that shows
    [activated] not positive. *)
Theorem activation_in_slot (depth : nat) (n base : Z) s :
  Forall (registered (account_id (self s)) n base)
         (emitted (_activate_subnet BLOCK_SECS depth s)) →
  in_slot (base + 10 * BLOCK_SECS * (n - 1)) (base + 10 * BLOCK_SECS * n) None None
          (emitted (_activate_subnet BLOCK_SECS depth s)).
Proof.
  intros HF.
  pose proof (wp_elim _ _ _
    (activate_subnet_in_slot n base (account_id (self s)) depth s eq_refl))
    as [_ Hslot].
  apply (Hslot HF).
Qed.

Lemma find_node_unlisted (acct : string) (nodes : list SubnetNode) :
  Forall (λ a, a ≠ acct) (node_account_id <$> nodes) →
  (find_node acct nodes 0).1 = false.
Proof.
  intros Habsent. pose proof (find_node_spec acct nodes 0) as Hspec.
  destruct (find_node acct nodes 0) as [[|] n]; [|reflexivity].
  destruct Hspec as (m & _ & Hat & _). rewrite Forall_forall in Habsent.
  exfalso. apply (Habsent acct); [|reflexivity].
  by apply list_elem_of_lookup_2 in Hat.
Qed.

(** An event that the chain does not show while the node is unlisted. *)
Ltac unlisted_contra :=
  let HF := fresh "HF" in
  intros HF; forall_parts HF; cbn [unlisted] in *;
  first [ contradiction | exfalso; lia ].

Lemma activate_subnet_unlisted (acct : string) (depth : nat) s :
  0 <= BLOCK_SECS →
  account_id (self s) = acct →
  wp (_activate_subnet BLOCK_SECS depth) s
     (λ r s' l,
        Forall (unlisted acct) l →
        r = Raise RecursionError ∧ self s' = self s ∧ sleeps l = depth).
Proof.
  intros HBS. revert s. induction depth as [|depth IH]; intros s Hacc;
    cbn [_activate_subnet].
  { wp_lin. intros _. done. }
  repeat (wp_lin;
          lazymatch goal with
          | |- wp (if negb _ then _ else _) _ _ => fail
          | _ => wp_step; try (wp_lin; unlisted_contra)
          end).
  wp_lin. wp_step.
  - wp_lin. wp_step; [sleep_neg|]. wp_lin.
    eapply wp_mono; [apply IH; exact Hacc|]. cbn beta.
    intros r s' l Hrec. cbn [self] in Hrec. destruct r as [b|x].
    + apply wp_ret. cbn beta iota. apply wp_any. intros r2 s2 l2 HF. exfalso.
      forall_parts HF. destruct (Hrec ltac:(assumption)) as [Hr _]. discriminate.
    + intros HF. forall_parts HF. destruct (Hrec ltac:(assumption)) as (Hr & Hs & Hn).
      split; [exact Hr|]. split; [exact Hs|].
      flatten_events. unfold sleeps in *. cbn [List.filter is_sleep length].
      by rewrite Hn.
  - apply wp_ret. cbn beta iota. apply wp_any. intros r2 s2 l2 HF. exfalso.
    forall_parts HF.
    cbn [unlisted] in *.
    rewrite Hacc, find_node_unlisted in Heqb0 by assumption. discriminate.
Qed.

(** X8: [_activate_subnet] waits by calling itself.  While the subnet is
    in registration and the account is not among the submittable nodes,
    each call sleeps [BLOCK_SECS] and calls the method again; when this
    goes on for as many calls as the interpreter allows frames ([depth]),
    the call ends with [RecursionError], after [depth] sleeps, and leaves
    the agent as it was. *)
Theorem activate_subnet_recursion_limit (depth : nat) s :
  0 <= BLOCK_SECS →
  Forall (unlisted (account_id (self s))) (emitted (_activate_subnet BLOCK_SECS depth s)) →
  outcome (_activate_subnet BLOCK_SECS depth s) = Raise RecursionError
  ∧ self (final (_activate_subnet BLOCK_SECS depth s)) = self s
  ∧ sleeps (emitted (_activate_subnet BLOCK_SECS depth s)) = depth.
Proof.
  intros HBS HF.
  apply (wp_elim _ _ _ (activate_subnet_unlisted _ depth s HBS eq_refl) HF).
Qed.

(** X27: the subnet is already activated.  When the first read of the
    subnet data shows [activated] positive, [_activate_subnet] makes its
    two lookups and nothing else, takes the subnet id and the activation
    block from the chain, starts accepting consensus and returns
    [True]. *)
Theorem activate_subnet_already_activated (depth : nat) (sid : Z) (sd : SubnetData)
    (e1 e2 : Env) s :
  chain_functions.get_subnet_id_by_path (path (self s)) (env s) = (Ok (Some sid), e1) →
  chain_functions.get_subnet_data sid e1 = (Ok (Some sd), e2) →
  0 < activated sd →
  _activate_subnet BLOCK_SECS (S depth) s
  = (Ok true, {| env := e2; self := set_activated sid (activated sd) (self s) |},
     [EvSubnetIdByPath (path (self s)) (Ok (Some sid)); EvSubnetData sid (Ok (Some sd))]).
Proof.
  intros Hid Hdata Hact. cbn [_activate_subnet].
  erewrite bind_Ok by reflexivity.
  erewrite bind_Ok by (unfold call; cbn [env self]; rewrite Hid; reflexivity).
  cbn beta iota.
  erewrite bind_Ok by (unfold call; cbn [env self]; rewrite Hdata; reflexivity).
  cbn beta iota zeta.
  assert ((0 <? activated sd) = true) as -> by lia.
  reflexivity.
Qed.

(** X28: the node's slot.  When the subnet is in registration, the node
    is listed at index [n] and the block number fetched lies in the
    node's slot, [_activate_subnet] reads the subnet data again and, if it
    is still not activated, submits [activate_subnet]; it starts accepting
    consensus and returns [True] exactly when the answer is a receipt of
    success with a [SubnetActivated] event, and otherwise returns [False]
    and leaves the agent as it was. *)
Theorem activate_subnet_in_slot_pass (depth : nat) (sid n b : Z) (sd sd' : SubnetData)
    (nodes : list SubnetNode) (receipt : option Receipt) (e1 e2 e3 e4 e5 e6 : Env) s :
  let base := initialized sd + registration_blocks sd in
  chain_functions.get_subnet_id_by_path (path (self s)) (env s) = (Ok (Some sid), e1) →
  chain_functions.get_subnet_data sid e1 = (Ok (Some sd), e2) →
  activated sd <= 0 →
  chain_functions.get_submittable_nodes (Some sid) e2 = (Ok nodes, e3) →
  listed_at (account_id (self s)) nodes n →
  chain_functions.get_block_number e3 = (Ok b, e4) →
  base + BLOCK_SECS * 10 * (n - 1) <= b < base + BLOCK_SECS * 10 * n →
  chain_functions.get_subnet_data sid e4 = (Ok (Some sd'), e5) →
  activated sd' <= 0 →
  chain_functions.activate_subnet sid e5 = (Ok receipt, e6) →
  _activate_subnet BLOCK_SECS (S depth) s
  = (Ok (activation_succeeded receipt),
     {| env := e6;
        self := if activation_succeeded receipt then set_activated sid 1 (self s)
                else self s |},
     [EvSubnetIdByPath (path (self s)) (Ok (Some sid)); EvSubnetData sid (Ok (Some sd));
      EvSubmittableNodes (Some sid) (Ok nodes); EvBlockNumber (Ok b);
      EvSubnetData sid (Ok (Some sd')); EvActivateSubnet sid (Ok receipt)]).
Proof.
  intros base Hid Hdata Hact Hnodes Hlisted Hb Hslot Hdata' Hact' Hreceipt.
  apply find_node_listed in Hlisted.
  cbn [_activate_subnet].
  erewrite bind_Ok by reflexivity.
  erewrite bind_Ok by (unfold call; cbn [env self]; rewrite Hid; reflexivity).
  cbn beta iota.
  erewrite bind_Ok by (unfold call; cbn [env self]; rewrite Hdata; reflexivity).
  cbn beta iota zeta.
  assert ((0 <? activated sd) = false) as -> by lia.
  erewrite bind_Ok by (unfold call; cbn [env self]; rewrite Hnodes; reflexivity).
  erewrite bind_Ok by reflexivity.
  cbn [self]. rewrite Hlisted. cbn [fst snd negb].
  erewrite bind_Ok by reflexivity.
  erewrite bind_Ok by (unfold call; cbn [env self]; rewrite Hb; reflexivity).
  fold base.
  assert ((b <? base + BLOCK_SECS * 10 * (n - 1)) = false) as -> by lia.
  erewrite bind_Ok by reflexivity.
  assert ((base + BLOCK_SECS * 10 * n <=? b) = false) as -> by lia.
  erewrite bind_Ok by reflexivity.
  assert ((base + BLOCK_SECS * 10 * (n - 1) <=? b) = true) as -> by lia.
  assert ((b <? base + BLOCK_SECS * 10 * n) = true) as -> by lia.
  cbn [andb].
  erewrite bind_Ok by (unfold call; cbn [env self]; rewrite Hdata'; reflexivity).
  erewrite bind_Ok by reflexivity.
  assert ((0 <? activated sd') = false) as -> by lia.
  erewrite bind_Ok by (unfold call; cbn [env self]; rewrite Hreceipt; reflexivity).
  destruct receipt as [r|]; [|reflexivity]. cbn [activation_succeeded].
  destruct (is_success r); [|reflexivity]. cbn [negb andb].
  destruct (existsb _ _); reflexivity.
Qed.

(** X9: a call of [_activate_subnet] that returns [True] leaves the
    agent accepting consensus, with a subnet id and a positive
    [subnet_activated]. *)
Theorem activate_subnet_true (depth : nat) s :
  outcome (_activate_subnet BLOCK_SECS depth s) = Ok true →
  subnet_accepting_consensus (self (final (_activate_subnet BLOCK_SECS depth s))) = true
  ∧ is_Some (subnet_id (self (final (_activate_subnet BLOCK_SECS depth s))))
  ∧ 0 < subnet_activated (self (final (_activate_subnet BLOCK_SECS depth s))).
Proof.
  apply (wp_elim _ _ (λ r s' l,
    r = Ok true →
    subnet_accepting_consensus (self s') = true
    ∧ is_Some (subnet_id (self s')) ∧ 0 < subnet_activated (self s'))).
  destruct depth as [|depth]; cbn [_activate_subnet].
  { wp_lin. discriminate. }
  repeat first
    [ wp_step
    | lazymatch goal with
      | |- wp (_activate_subnet _ _) _ _ => apply wp_any; intros [?|?] ? ?
      | |- wp (activated_of ?d) _ _ => destruct d; unfold activated_of
      end ].
  all: intros [=]; cbn [self subnet_accepting_consensus subnet_id subnet_activated
                        set_activated]; bool_to_prop.
  all: repeat split; first [ lia | by eexists ].
Qed.

(** ** What the methods leave unchanged *)

(** [attest] changes nothing of the agent but the remembered score set. *)
Lemma attest_frame (epoch : Z) s :
  wp (attest epoch) s
     (λ r s' l,
        last_validated_or_attested_epoch (self s')
        = last_validated_or_attested_epoch (self s)
        ∧ epoch_length (self s') = epoch_length (self s)
        ∧ account_id (self s') = account_id (self s)).
Proof.
  unfold attest, should_attest, _do_attest, receipt_is_success,
    _get_validator_consensus_submission, _has_attested, _get_consensus_data.
  repeat wp_step; repeat split; reflexivity.
Qed.

(** X10: with the two lists not both empty, a call of [should_attest] that
    returns leaves the canonical set of the node's own data in
    [previous_epoch_data], whatever the verdict; a call that raises leaves
    the agent as it was. *)
Theorem should_attest_remembers (v m : list PyObj) (epoch : Z) s :
  (v ≠ [] ∨ m ≠ []) →
  match outcome (should_attest v m epoch s) with
  | Ok _ =>
      ∃ S2, set_of_dicts m = Ok S2
            ∧ self (final (should_attest v m epoch s))
              = set_previous_epoch_data (Some S2) (self s)
  | Raise _ => self (final (should_attest v m epoch s)) = self s
  end.
Proof.
  intros Hne.
  apply (wp_elim _ _ (λ r s' l,
    match r with
    | Ok _ => ∃ S2, set_of_dicts m = Ok S2
                    ∧ self s' = set_previous_epoch_data (Some S2) (self s)
    | Raise _ => self s' = self s
    end)).
  unfold should_attest, _get_validator_consensus_submission.
  assert ((length v =? 0)%nat && (length m =? 0)%nat = false) as ->.
  { destruct v, m; simpl; try reflexivity. destruct Hne; congruence. }
  repeat wp_step; first [ reflexivity | eexists; split; reflexivity ].
Qed.

(** X11: what the result of [attest] says of the call.  [(True, reason)]
    comes with [ATTESTED], after exactly one [attest] extrinsic, the last
    call, answered by a receipt of success; [ATTEST_FAILED] after exactly
    one, the last call, that did not succeed; [WAITING] after the one query
    that found no submission; [(False, ATTESTED)] after the one query whose
    submission lists the account; [SHOULD_NOT_ATTEST] and an exception
    without any extrinsic. *)
Theorem attest_result_codes (epoch : Z) s :
  let l := emitted (attest epoch s) in
  match outcome (attest epoch s) with
  | Ok (true, reason) =>
      reason = ATTESTED
      ∧ (∃ sid receipt, last l = Some (EvAttest sid (Ok (Some receipt)))
                        ∧ is_success receipt = true)
      ∧ attest_extrinsics l = 1%nat
  | Ok (false, ATTEST_FAILED) =>
      (∃ sid r, last l = Some (EvAttest sid r) ∧ succeeded r = false)
      ∧ attest_extrinsics l = 1%nat
  | Ok (false, WAITING) =>
      l = [EvRewardsSubmission (subnet_id (self s)) epoch (Ok None)]
  | Ok (false, ATTESTED) =>
      ∃ sub, l = [EvRewardsSubmission (subnet_id (self s)) epoch (Ok (Some sub))]
             ∧ In (account_id (self s)) (map fst (sub_attests sub))
  | Ok (false, SHOULD_NOT_ATTEST) => Forall quiet l
  | Raise _ => Forall quiet l
  end.
Proof.
  cbn zeta.
  apply (wp_elim _ _ (λ r s' l,
    match r with
    | Ok (true, reason) =>
        reason = ATTESTED
        ∧ (∃ sid receipt, last l = Some (EvAttest sid (Ok (Some receipt)))
                          ∧ is_success receipt = true)
        ∧ attest_extrinsics l = 1%nat
    | Ok (false, ATTEST_FAILED) =>
        (∃ sid r, last l = Some (EvAttest sid r) ∧ succeeded r = false)
        ∧ attest_extrinsics l = 1%nat
    | Ok (false, WAITING) =>
        l = [EvRewardsSubmission (subnet_id (self s)) epoch (Ok None)]
    | Ok (false, ATTESTED) =>
        ∃ sub, l = [EvRewardsSubmission (subnet_id (self s)) epoch (Ok (Some sub))]
               ∧ In (account_id (self s)) (map fst (sub_attests sub))
    | Ok (false, SHOULD_NOT_ATTEST) => Forall quiet l
    | Raise _ => Forall quiet l
    end)).
  unfold attest, should_attest, _do_attest, receipt_is_success,
    _get_validator_consensus_submission, _has_attested, _get_consensus_data.
  repeat wp_step.
  all: flatten_events.
  all: try (repeat constructor; fail).
  all: try (split; [|reflexivity]; eexists _, _; split; [reflexivity|]; cbn [succeeded];
            first [assumption | reflexivity]).
  all: try (split; [reflexivity|]; split; [|reflexivity]; eexists _, _;
            split; [reflexivity|assumption]).
  all: eexists; split; [reflexivity|].
  all: apply in_map_iff; apply existsb_exists in Heqb as [d [Hd Hacc]];
    exists d; split; [by apply bool_decide_eq_true_1 in Hacc | exact Hd].
Qed.

(** [_activate_subnet] leaves the completed epoch, the account and the
    epoch length alone. *)
Lemma activate_subnet_frame (depth : nat) s :
  wp (_activate_subnet BLOCK_SECS depth) s
     (λ r s' l,
        last_validated_or_attested_epoch (self s')
        = last_validated_or_attested_epoch (self s)
        ∧ epoch_length (self s') = epoch_length (self s)
        ∧ account_id (self s') = account_id (self s)).
Proof.
  revert s. induction depth as [|depth IH]; intros s; cbn [_activate_subnet].
  { wp_lin. repeat split; reflexivity. }
  repeat first
    [ wp_step
    | lazymatch goal with
      | |- wp (_activate_subnet _ _) ?s1 _ =>
          eapply wp_mono; [apply (IH s1)|];
          cbn beta; intros ? ? ? (? & ? & ?)
      | |- wp (activated_of ?d) _ _ => destruct d; unfold activated_of
      end ].
  all: cbn [self last_validated_or_attested_epoch epoch_length account_id
            set_stop set_activated] in *.
  all: repeat split; congruence.
Qed.

(** ** What the methods keep *)

Ltac fields :=
  cbn [self env path account_id epoch_length subnet_id subnet_accepting_consensus
       subnet_node_eligible subnet_activated last_validated_or_attested_epoch
       previous_epoch_data stop set_previous_epoch_data set_last_epoch set_eligible
       set_stop set_activated] in *.

Ltac solve_Forall :=
  repeat first [ apply Forall_app; split | apply Forall_cons; split | apply Forall_nil
               | assumption | exact I | by eexists ].

Lemma well_formed_set_activated (sid act : Z) c :
  0 < act → well_formed (set_activated sid act c).
Proof. intros Hact. split; cbn; [intros _; split; [by eexists|exact Hact] | done]. Qed.

Lemma well_formed_set_stop (b : bool) c : well_formed c → well_formed (set_stop b c).
Proof. intros Hwf. exact Hwf. Qed.

Lemma well_formed_set_last_epoch (e : Z) c :
  well_formed c → well_formed (set_last_epoch e c).
Proof. intros Hwf. exact Hwf. Qed.

Lemma well_formed_set_eligible c :
  subnet_accepting_consensus c = true → well_formed c → well_formed (set_eligible true c).
Proof. intros Hacc [Hwa Hwe]. split; cbn; auto. Qed.

Lemma well_formed_untouched c c' : untouched c c' → well_formed c → well_formed c'.
Proof.
  unfold untouched, well_formed. intros Hu [Hwa Hwe]. destruct_and?.
  split; intros Hc.
  - assert (subnet_accepting_consensus c = true) as Hacc by congruence.
    destruct (Hwa Hacc). split; congruence.
  - assert (subnet_node_eligible c = true) as Hel by congruence.
    specialize (Hwe Hel). congruence.
Qed.

Lemma attest_untouched (epoch : Z) s :
  wp (attest epoch) s
     (λ r s' l,
        untouched (self s) (self s')
        ∧ (is_Some (subnet_id (self s)) → Forall with_subnet_id l)).
Proof.
  unfold attest, should_attest, _do_attest, receipt_is_success,
    _get_validator_consensus_submission, _has_attested, _get_consensus_data.
  repeat wp_step.
  all: split; [unfold untouched; fields; repeat split; first [solve [auto] | intros; by eexists]|].
  all: intros Hsid; solve_Forall.
Qed.

Lemma attest_loop_untouched (fuel : nat) (initial_epoch attest_checks : Z) s :
  wp (attest_loop BLOCK_SECS fuel initial_epoch attest_checks) s
     (λ r s' l,
        untouched (self s) (self s')
        ∧ (is_Some (subnet_id (self s)) → Forall with_subnet_id l)).
Proof.
  revert attest_checks s. induction fuel as [|fuel IH]; intros attest_checks s;
    cbn [attest_loop].
  { wp_lin. split; [unfold untouched; repeat split; auto|]. intros _. constructor. }
  repeat first
    [ wp_step
    | lazymatch goal with
      | |- wp (attest _) ?s1 _ =>
          eapply wp_mono; [apply (attest_untouched _ s1)|];
          cbn beta; intros ? ? ? [Hu1 Hf1]
      | |- wp (attest_loop _ _ _ _) ?s1 _ =>
          eapply wp_mono; [apply (IH _ s1)|];
          cbn beta; intros ? ? ? [Hu2 Hf2]
      end ].
  all: unfold untouched in *; fields; destruct_and?.
  all: split; [repeat split; first [congruence | auto]|].
  all: intros Hsid; solve_Forall.
  all: first [ apply Hf1; assumption | apply Hf2; congruence ].
Qed.

Lemma activate_subnet_keeps (depth : nat) s :
  wp (_activate_subnet BLOCK_SECS depth) s
     (λ r s' l,
        (path (self s') = path (self s) ∧ account_id (self s') = account_id (self s)
         ∧ epoch_length (self s') = epoch_length (self s)
         ∧ subnet_node_eligible (self s') = subnet_node_eligible (self s)
         ∧ previous_epoch_data (self s') = previous_epoch_data (self s))
        ∧ (subnet_accepting_consensus (self s) = true
           → subnet_accepting_consensus (self s') = true)
        ∧ (stop (self s) = true → stop (self s') = true)
        ∧ (well_formed (self s) → well_formed (self s'))
        ∧ Forall with_subnet_id l
        ∧ (Forall found l → stop (self s') = stop (self s))).
Proof.
  revert s. induction depth as [|depth IH]; intros s; cbn [_activate_subnet].
  { wp_lin. split; [repeat split|]. split; [auto|]. split; [auto|]. split; [auto|].
    split; [constructor|auto]. }
  repeat first
    [ wp_step
    | lazymatch goal with
      | |- wp (_activate_subnet _ _) ?s1 _ =>
          eapply wp_mono; [apply (IH s1)|];
          cbn beta; intros ? ? ? (? & ? & ? & ? & ? & ?)
      | |- wp (activated_of ?d) _ _ => destruct d; unfold activated_of
      end ].
  all: fields; destruct_and?; bool_to_prop.
  all: split; [repeat split; congruence|].
  all: split; [solve [auto]|].
  all: split; [solve [auto]|].
  all: split; [solve [eauto using well_formed_set_activated, well_formed_set_stop, Z.lt_0_1]|].
  all: split; [solve_Forall|].
  all: intros HF; forall_parts HF; use_parts; cbn [found] in *;
    first [ contradiction | congruence ].
Qed.

(** One pass of the outer loop. *)
Lemma run_body_keeps (depth : nat) s :
  wp (run_body BLOCK_SECS depth) s
     (λ r s' l,
        keeps (self s) (self s')
        ∧ (well_formed (self s) → well_formed (self s') ∧ Forall with_subnet_id l)
        ∧ (Forall found l → stop (self s') = stop (self s))
        ∧ (subnet_accepting_consensus (self s) = true
           → subnet_id (self s') = subnet_id (self s))).
Proof.
  unfold run_body, validate, _get_validator, _get_validator_consensus_submission,
    _get_consensus_data, _do_validate, receipt_is_success.
  repeat first
    [ wp_step
    | lazymatch goal with
      | |- wp (_activate_subnet _ _) ?s1 _ =>
          eapply wp_mono; [apply (activate_subnet_keeps _ s1)|];
          cbn beta; intros ? ? ? (? & ? & ? & Hwf1 & Hf1 & Hnf1)
      | |- wp (attest_loop _ _ _ _) ?s1 _ =>
          eapply wp_mono; [apply (attest_loop_untouched _ _ _ s1)|];
          cbn beta; intros ? ? ? [Hu2 Hf2];
          pose proof (well_formed_untouched _ _ Hu2) as Hwf2
      end ].
  all: unfold keeps, untouched in *; fields; destruct_and?.
  all: destruct (subnet_accepting_consensus (self s)) eqn:Hacc;
    cbn [negb andb] in *; try discriminate.
  all: split; [repeat split;
               first [congruence | solve [auto] | intros; by eexists
                     | solve [intuition congruence]]|].
  all: split;
    [intros Hwf;
     try (pose proof (proj1 (proj1 Hwf Hacc)) as Hsid);
     split;
     [solve [eauto using well_formed_set_last_epoch, well_formed_set_eligible]
     |solve_Forall; try (apply Hf2; congruence)]|].
  all: split; [intros HF; forall_parts HF; use_parts; congruence|].
  all: first [ congruence | discriminate ].
Qed.

Lemma keeps_trans c1 c2 c3 : keeps c1 c2 → keeps c2 c3 → keeps c1 c3.
Proof.
  unfold keeps. intros H12 H23. destruct_and?.
  repeat split; first [congruence | auto].
Qed.

Lemma run_keeps (depth passes : nat) s :
  wp (run BLOCK_SECS depth passes) s
     (λ r s' l,
        keeps (self s) (self s')
        ∧ (well_formed (self s) → well_formed (self s') ∧ Forall with_subnet_id l)
        ∧ (Forall found l → stop (self s') = stop (self s))
        ∧ (subnet_accepting_consensus (self s) = true
           → subnet_id (self s') = subnet_id (self s))).
Proof.
  assert (∀ c, keeps c c) as Hrefl by (intros c; unfold keeps; repeat split; auto).
  assert (∀ c, keeps c c
               ∧ (well_formed c → well_formed c ∧ Forall with_subnet_id [])
               ∧ (Forall found [] → stop c = stop c)
               ∧ (subnet_accepting_consensus c = true → subnet_id c = subnet_id c))
    as Hbase.
  { intros c. split; [apply Hrefl|]. split; [intros Hwf; split; [exact Hwf|constructor]|].
    split; reflexivity. }
  revert s. induction passes as [|passes IH]; intros s; cbn [run].
  { wp_lin. apply Hbase. }
  wp_lin. wp_step.
  { wp_lin. cbn [app]. destruct (Hbase (self s)) as (Hk & Hw & _ & Hi).
    split; [exact Hk|]. split; [exact Hw|]. split; [intros _; exact Heqb|exact Hi]. }
  wp_step. unfold run_once. apply wp_try_except.
  eapply wp_mono; [apply (run_body_keeps depth s)|]. cbn beta.
  intros [flow|x] s1 l1 (Hk1 & Hwf1 & Hst1 & Hid1); [destruct flow|]; wp_lin.
  1, 3: eapply wp_mono; [apply (IH s1)|]; cbn beta;
    intros r2 s2 l2 (Hk2 & Hwf2 & Hst2 & Hid2).
  all: flatten_events.
  all: split; [eauto using keeps_trans|].
  all: split; [intros Hwf; destruct (Hwf1 Hwf) as [Hwf1' Hf1];
               try destruct (Hwf2 Hwf1') as [Hwf2' Hf2];
               split; [assumption | solve_Forall]|].
  all: split; [intros HF; forall_parts HF; use_parts; congruence|].
  all: intros Hacc; try rewrite Hid2; auto.
  all: by apply Hk1.
Qed.

(** X12: no pass of [run] changes the path, the account or the epoch
    length of the agent, and none takes back a flag or forgets the
    remembered score set: [subnet_accepting_consensus],
    [subnet_node_eligible] and [stop], once set, stay set. *)
Theorem run_keeps_config (depth passes : nat) s :
  keeps (self s) (self (final (run BLOCK_SECS depth passes s))).
Proof. apply (wp_elim _ _ _ (run_keeps depth passes s)). Qed.

(** X13: [run] sets the [stop] flag only when a lookup of the subnet finds
    nothing: as long as [get_subnet_id_by_path] and [get_subnet_data] find
    the subnet, the flag is what it was. *)
Theorem run_stops_only_when_not_found (depth passes : nat) s :
  Forall found (emitted (run BLOCK_SECS depth passes s)) →
  stop (self (final (run BLOCK_SECS depth passes s))) = stop (self s).
Proof. apply (wp_elim _ _ _ (run_keeps depth passes s)). Qed.

(** X14: [run] keeps the agent well formed: it accepts consensus only
    with a subnet id and a positive [subnet_activated], and is eligible
    only when it accepts consensus; and from the moment it accepts
    consensus its subnet id never changes. *)
Theorem run_well_formed (depth passes : nat) s :
  well_formed (self s) →
  well_formed (self (final (run BLOCK_SECS depth passes s)))
  ∧ (subnet_accepting_consensus (self s) = true
     → subnet_id (self (final (run BLOCK_SECS depth passes s))) = subnet_id (self s)).
Proof.
  intros Hwf.
  destruct (wp_elim _ _ _ (run_keeps depth passes s)) as (_ & Hwf' & _ & Hid).
  split; [apply (Hwf' Hwf) | exact Hid].
Qed.

(** X15: over the successive processes of a well-formed agent, a fresh
    one for instance, every call that names the subnet names it by an id:
    no query and no extrinsic is sent with [subnet_id] still [None]. *)
Theorem calls_carry_subnet_id (depth : nat) (runs : list nat) s :
  well_formed (self s) →
  Forall with_subnet_id (lifetime BLOCK_SECS depth runs s).
Proof.
  revert s. induction runs as [|passes runs IH]; intros s Hwf; cbn [lifetime];
    [constructor|].
  pose proof (run_keeps depth passes s) as Hrun.
  destruct (run BLOCK_SECS depth passes s) as [[r s1] l1] eqn:Hr.
  destruct (Hrun _ _ _ Hr) as (_ & Hwf1 & _ & _).
  apply Forall_app. split; [apply (Hwf1 Hwf)|].
  apply IH. split; cbn; discriminate.
Qed.

(** ** The completed epoch *)

Lemma block_epochs_app (len : Z) (l1 l2 : list Event) :
  block_epochs len (l1 ++ l2) = block_epochs len l1 ++ block_epochs len l2.
Proof.
  induction l1 as [|ev l1 IH]; [done|].
  destruct ev as [[b|x]| | | | | | | | | |]; cbn [app block_epochs]; try apply IH.
  destruct (epoch_of b len); [cbn [app]; by rewrite IH | apply IH].
Qed.

Lemma nondecreasing_app (l1 l2 : list Z) :
  nondecreasing (l1 ++ l2) → nondecreasing l1 ∧ nondecreasing l2.
Proof.
  induction l1 as [|x l1 IH]; cbn [app nondecreasing]; [tauto|].
  intros [Hx Hrest]. apply Forall_app in Hx as [Hx1 Hx2]. tauto.
Qed.

(** In the inner loop the completed epoch is either kept or set to the
    epoch the loop started in, as long as the chain does not fall back
    behind that epoch. *)
Lemma attest_loop_last (fuel : nat) (initial_epoch attest_checks : Z) s :
  wp (attest_loop BLOCK_SECS fuel initial_epoch attest_checks) s
     (λ r s' l,
        epoch_length (self s') = epoch_length (self s)
        ∧ (Forall (λ e, initial_epoch <= e) (block_epochs (epoch_length (self s)) l) →
           last_validated_or_attested_epoch (self s')
           = last_validated_or_attested_epoch (self s)
           ∨ last_validated_or_attested_epoch (self s') = initial_epoch)).
Proof.
  revert attest_checks s. induction fuel as [|fuel IH]; intros attest_checks s;
    cbn [attest_loop].
  { wp_lin. split; [done|]. intros _. by left. }
  repeat first
    [ wp_step
    | lazymatch goal with
      | |- wp (attest _) ?s1 _ =>
          eapply wp_mono; [apply (attest_frame _ s1)|];
          cbn beta; intros ? ? ? (Hlast1 & Hlen1 & Hacc1)
      | |- wp (attest_loop _ _ _ _) ?s1 _ =>
          eapply wp_mono; [apply (IH _ s1)|];
          cbn beta; intros ? ? ? (Hlen2 & Hrec);
          cbn [self] in Hlen2, Hrec; rewrite ?Hlen1 in Hlen2, Hrec
      end ].
  all: (split; [cbn [self epoch_length set_last_epoch]; congruence|]).
  all: intros HFe; rewrite ?block_epochs_app in HFe; cbn [block_epochs app] in HFe.
  all: repeat match goal with
       | E : epoch_of ?b ?l = _, HF' : context [epoch_of ?b ?l] |- _ => rewrite E in HF'
       end.
  all: forall_parts HFe; bool_to_prop.
  all: cbn [self last_validated_or_attested_epoch set_last_epoch].
  all: try (left; congruence).
  all: try (right; lia).
  all: destruct (Hrec ltac:(assumption)) as [Hr|Hr]; [left; congruence | right; exact Hr].
Qed.

(** One pass of the outer loop does not lower the completed epoch, as
    long as the epochs it reads from the chain do not go back. *)
Lemma run_body_last (depth : nat) s :
  wp (run_body BLOCK_SECS depth) s
     (λ r s' l,
        epoch_length (self s') = epoch_length (self s)
        ∧ (nondecreasing (block_epochs (epoch_length (self s)) l) →
           last_validated_or_attested_epoch (self s)
           <= last_validated_or_attested_epoch (self s'))).
Proof.
  unfold run_body, validate, _get_validator, _get_validator_consensus_submission,
    _get_consensus_data, _do_validate, receipt_is_success.
  repeat first
    [ wp_step
    | lazymatch goal with
      | |- wp (_activate_subnet _ _) ?s1 _ =>
          eapply wp_mono; [apply (activate_subnet_frame _ s1)|];
          cbn beta; intros ? ? ? (Hlast1 & Hlen1 & Hacc1)
      | |- wp (attest_loop _ _ _ _) ?s1 _ =>
          eapply wp_mono; [apply (attest_loop_last _ _ _ s1)|];
          cbn beta; intros ? ? ? (Hlen2 & Hrec);
          cbn [self epoch_length set_eligible] in Hlen2, Hrec
      end ].
  all: (split; [cbn [self epoch_length set_last_epoch set_eligible]; congruence|]).
  all: intros HFe; rewrite ?block_epochs_app in HFe; cbn [block_epochs app] in HFe.
  all: repeat match goal with
       | E : epoch_of ?b ?l = _, HF' : context [epoch_of ?b ?l] |- _ => rewrite E in HF'
       end.
  all: cbn [nondecreasing] in HFe.
  all: cbn [self last_validated_or_attested_epoch set_last_epoch set_eligible] in *.
  all: try lia.
  all: assert (last_validated_or_attested_epoch (self s) < a0)
         by (destruct (subnet_accepting_consensus (self s)); [|discriminate];
             rewrite andb_true_r in Heqb; bool_to_prop; lia).
  all: try lia.
  all: rewrite ?app_nil_r in HFe; cbn [app nondecreasing] in HFe;
    destruct HFe as [HFe _]; destruct (Hrec HFe) as [Hr|Hr]; lia.
Qed.

Lemma run_once_last (depth : nat) s :
  wp (run_once BLOCK_SECS depth) s
     (λ r s' l,
        (∃ flow, r = Ok flow)
        ∧ epoch_length (self s') = epoch_length (self s)
        ∧ (nondecreasing (block_epochs (epoch_length (self s)) l) →
           last_validated_or_attested_epoch (self s)
           <= last_validated_or_attested_epoch (self s'))).
Proof.
  unfold run_once. apply wp_try_except.
  eapply wp_mono; [apply run_body_last|]. cbn beta.
  intros [flow|x] s' l [Hlen Hlast].
  - eauto.
  - wp_lin. rewrite app_nil_r. eauto.
Qed.

Lemma run_last (depth passes : nat) s :
  wp (run BLOCK_SECS depth passes) s
     (λ r s' l,
        epoch_length (self s') = epoch_length (self s)
        ∧ (nondecreasing (block_epochs (epoch_length (self s)) l) →
           last_validated_or_attested_epoch (self s)
           <= last_validated_or_attested_epoch (self s'))).
Proof.
  revert s. induction passes as [|passes IH]; intros s; cbn [run].
  { wp_lin. split; [done|]. intros _. lia. }
  wp_lin. wp_step; [wp_lin; split; [done|]; intros _; lia|].
  wp_step. eapply wp_mono; [apply run_once_last|]. cbn beta.
  intros r s1 l1 ([flow ->] & Hlen1 & Hlast1).
  destruct flow.
  - eapply wp_mono; [apply (IH s1)|]. cbn beta. intros r2 s2 l2 [Hlen2 Hlast2].
    split; [congruence|]. intros Hnd. cbn [app] in Hnd.
    rewrite block_epochs_app in Hnd. apply nondecreasing_app in Hnd as [Hnd1 Hnd2].
    rewrite Hlen1 in Hlast2. specialize (Hlast1 Hnd1). specialize (Hlast2 Hnd2). lia.
  - wp_lin. rewrite app_nil_r. cbn [app]. auto.
Qed.

(** A chain whose height never goes back, with heights below [2^53],
    gives epochs that never go back. *)
Lemma block_epochs_of_heights (len : Z) (evs : list Event) :
  0 < len →
  Forall (λ b, 0 <= b < 2 ^ 53) (block_numbers evs) →
  nondecreasing (block_numbers evs) →
  nondecreasing (block_epochs len evs)
  ∧ block_epochs len evs = (λ b, b / len) <$> block_numbers evs.
Proof.
  intros Hlen. induction evs as [|ev evs IH]; intros Hb Hnd; [done|].
  destruct ev as [[b|x]| | | | | | | | | |]; cbn [block_numbers block_epochs] in *; auto.
  apply Forall_cons in Hb as [Hb0 Hb]. destruct Hnd as [Hhd Hnd].
  rewrite (epoch_of_exact b len Hb0 Hlen).
  destruct (IH Hb Hnd) as [IHnd IHeq]. rewrite IHeq. split; [|done].
  cbn [nondecreasing]. split; [|by rewrite <- IHeq].
  apply Forall_fmap. eapply Forall_impl; [exact Hhd|].
  intros y Hy. cbn in *. apply Z.div_le_mono; lia.
Qed.

(** A pass never raises, and it breaks the loop only once [stop] is set. *)
Lemma run_once_flow (depth : nat) s :
  wp (run_once BLOCK_SECS depth) s
     (λ r s' l, (∃ flow, r = Ok flow) ∧ (r = Ok Break → stop (self s') = true)).
Proof.
  unfold run_once, run_body, validate, _get_validator, _get_validator_consensus_submission,
    _get_consensus_data, _do_validate, receipt_is_success.
  repeat first [ wp_step | apply wp_any; intros [?|?] ? ? ].
  all: split; [eexists; reflexivity | intros [=]; try assumption ].
Qed.

(** ** The passes of [run] *)

(** X16: when the block number cannot be fetched, or the epoch cannot be
    computed from it (an epoch length of zero, a quotient beyond the
    floats), the pass of [run] ends with that one call: nothing else is
    called, the agent is as it was, and no [time.sleep] separates the pass
    from the next one. *)
Theorem run_once_fetch_failure (depth : nat) (r : Res Z) (x : Exn) (e1 : Env) s :
  chain_functions.get_block_number (env s) = (r, e1) →
  res_bind r (λ block_number, epoch_of block_number (epoch_length (self s))) = Raise x →
  run_once BLOCK_SECS depth s
  = (Ok Continue, {| env := e1; self := self s |}, [EvBlockNumber r]).
Proof.
  intros Hb Hx. unfold run_once, try_except, run_body.
  destruct r as [b|y]; cbn [res_bind] in Hx.
  - erewrite bind_Ok by (unfold call; rewrite Hb; reflexivity).
    erewrite bind_Ok by reflexivity.
    erewrite bind_Raise by (unfold lift; cbn [self]; rewrite Hx; reflexivity).
    reflexivity.
  - erewrite bind_Raise by (unfold call; rewrite Hb; reflexivity).
    reflexivity.
Qed.

(** X17: [run] never raises, whatever the chain answers and however deep
    [_activate_subnet] recurses: every exception of a pass ends the pass
    and the loop goes on; and a pass leaves the loop ([break]) only with
    the [stop] flag set. *)
Theorem run_never_raises (depth passes : nat) s :
  outcome (run BLOCK_SECS depth passes s) = Ok tt
  ∧ ∃ flow, outcome (run_once BLOCK_SECS depth s) = Ok flow
            ∧ (flow = Break → stop (self (final (run_once BLOCK_SECS depth s))) = true).
Proof.
  split.
  - apply (wp_elim _ _ (λ r _ _, r = Ok tt)).
    revert s. induction passes as [|passes IH]; intros s; cbn [run].
    { by wp_lin. }
    wp_lin. wp_step; [by wp_lin|]. wp_step.
    eapply wp_mono; [apply run_once_flow|]. cbn beta.
    intros r s1 l1 [[flow ->] _]. destruct flow; [|by wp_lin].
    eapply wp_mono; [apply IH|]. cbn beta. auto.
  - destruct (wp_elim _ _ _ (run_once_flow depth s)) as [[flow Hflow] Hbreak].
    exists flow. split; [exact Hflow|]. intros ->. auto.
Qed.

(** X18: when no subnet is registered at the agent's path, the first pass
    of an agent that is not yet accepting consensus fetches the block
    number, looks the path up, sets [stop], and [run] returns: whatever the
    number of passes left, nothing else is called. *)
Theorem run_shuts_down_without_subnet
    (depth passes : nat) (b epoch : Z) (e1 e2 : Env) s :
  stop (self s) = false →
  subnet_accepting_consensus (self s) = false →
  chain_functions.get_block_number (env s) = (Ok b, e1) →
  epoch_of b (epoch_length (self s)) = Ok epoch →
  chain_functions.get_subnet_id_by_path (path (self s)) e1 = (Ok None, e2) →
  run BLOCK_SECS (S depth) (S passes) s
  = (Ok tt, {| env := e2; self := set_stop true (self s) |},
     [EvBlockNumber (Ok b); EvSubnetIdByPath (path (self s)) (Ok None)]).
Proof.
  intros Hstop Hacc Hb Hep Hid.
  assert (_activate_subnet BLOCK_SECS (S depth) {| env := e1; self := self s |}
          = (Ok false, {| env := e2; self := set_stop true (self s) |},
             [EvSubnetIdByPath (path (self s)) (Ok None)])) as Hact.
  { cbn [_activate_subnet].
    erewrite bind_Ok by reflexivity.
    erewrite bind_Ok by (unfold call; cbn [env self]; rewrite Hid; reflexivity).
    reflexivity. }
  assert (run_once BLOCK_SECS (S depth) s
          = (Ok Break, {| env := e2; self := set_stop true (self s) |},
             [EvBlockNumber (Ok b); EvSubnetIdByPath (path (self s)) (Ok None)])) as Honce.
  { unfold run_once, try_except, run_body.
    erewrite bind_Ok by (unfold call; rewrite Hb; reflexivity).
    erewrite bind_Ok by reflexivity.
    erewrite bind_Ok by (unfold lift; cbn [self]; rewrite Hep; reflexivity).
    erewrite bind_Ok by reflexivity.
    erewrite bind_Ok by reflexivity.
    cbn [self]. rewrite Hacc, andb_false_r. cbn [negb].
    erewrite bind_Ok by exact Hact.
    reflexivity. }
  cbn [run].
  erewrite bind_Ok by reflexivity. rewrite Hstop.
  erewrite bind_Ok by exact Honce.
  reflexivity.
Qed.

(** X19: the pass of the elected validator.  When the agent accepts
    consensus and is eligible, the epoch is not completed yet, the chain
    names the agent validator and holds no submission for the epoch, the
    pass probes the scores and submits them with [validate]; on a receipt
    of success it records the epoch and sleeps to the start of the next
    epoch, otherwise it records nothing and sleeps [BLOCK_SECS] before the
    next pass tries again. *)
Theorem validator_pass (depth : nat) (b epoch : Z) (data : list PyObj)
    (r : Res (option Receipt)) (e1 e2 e3 e4 e5 : Env) s :
  let sid := subnet_id (self s) in
  let remaining := get_next_epoch_start_block (epoch_length (self s)) b - b in
  subnet_accepting_consensus (self s) = true →
  subnet_node_eligible (self s) = true →
  chain_functions.get_block_number (env s) = (Ok b, e1) →
  epoch_of b (epoch_length (self s)) = Ok epoch →
  last_validated_or_attested_epoch (self s) < epoch →
  chain_functions.get_rewards_validator sid epoch e1 = (Ok (Some (account_id (self s))), e2) →
  chain_functions.get_rewards_submission sid epoch e2 = (Ok None, e3) →
  chain_functions.get_consensus_data sid e3 = (Ok data, e4) →
  chain_functions.validate sid data e4 = (r, e5) →
  0 <= BLOCK_SECS → 0 <= remaining * BLOCK_SECS →
  run_body BLOCK_SECS depth s
  = (Ok Continue,
     {| env := chain_functions.sleep
                 (inject_Z (if succeeded r then remaining * BLOCK_SECS else BLOCK_SECS)) e5;
        self := if succeeded r then set_last_epoch epoch (self s) else self s |},
     [EvBlockNumber (Ok b); EvRewardsValidator sid epoch (Ok (Some (account_id (self s))));
      EvRewardsSubmission sid epoch (Ok None); EvConsensusData sid (Ok data);
      EvValidate sid data r;
      EvSleep (inject_Z (if succeeded r then remaining * BLOCK_SECS else BLOCK_SECS))]).
Proof.
  intros sid remaining Hacc Hel Hb Hep Hlast Hv Hsub Hdata Hval HBS Hrem.
  assert (validate {| env := e3; self := self s |}
          = (Ok (succeeded r), {| env := e5; self := self s |},
             [EvConsensusData sid (Ok data); EvValidate sid data r])) as Hvalidate.
  { unfold validate, _get_consensus_data, _do_validate, try_except.
    erewrite bind_Ok by
      (erewrite bind_Ok by reflexivity; unfold call; cbn [env self];
       fold sid; rewrite Hdata; reflexivity).
    unfold bind, gets, call, receipt_is_success, ret, raise. cbn [env self].
    fold sid. rewrite Hval. destruct r as [[receipt|]|x]; reflexivity. }
  unfold run_body.
  erewrite bind_Ok by (unfold call; rewrite Hb; reflexivity).
  erewrite bind_Ok by reflexivity.
  erewrite bind_Ok by (unfold lift; cbn [self]; rewrite Hep; reflexivity).
  erewrite bind_Ok by reflexivity.
  erewrite bind_Ok by reflexivity.
  cbn [self]. rewrite Hacc, andb_true_r.
  assert ((epoch <=? last_validated_or_attested_epoch (self s)) = false) as -> by lia.
  cbn [negb].
  erewrite bind_Ok by reflexivity.
  cbn [self]. rewrite Hel. cbn [negb].
  erewrite bind_Ok by reflexivity. cbn [negb].
  erewrite bind_Ok by
    (unfold _get_validator; erewrite bind_Ok by reflexivity; unfold call; cbn [env self];
     fold sid; rewrite Hv; reflexivity).
  cbn beta iota.
  erewrite bind_Ok by reflexivity. cbn [self].
  rewrite bool_decide_eq_true_2 by reflexivity.
  erewrite bind_Ok by
    (unfold _get_validator_consensus_submission; erewrite bind_Ok by reflexivity;
     unfold call; cbn [env self]; fold sid; rewrite Hsub; reflexivity).
  cbn beta iota.
  erewrite bind_Ok by exact Hvalidate.
  destruct (succeeded r).
  - erewrite bind_Ok by reflexivity.
    erewrite bind_Ok by (by apply time_sleep_Ok).
    reflexivity.
  - erewrite bind_Ok by (by apply time_sleep_Ok).
    reflexivity.
Qed.

(** X20: the elected validator does not submit twice.  When the chain
    already holds a submission for the epoch (the agent was restarted, or
    an earlier receipt was lost), the pass submits nothing, records the
    epoch and sleeps to the start of the next epoch. *)
Theorem validator_already_submitted (depth : nat) (b epoch : Z) (sub : Submission)
    (e1 e2 e3 : Env) s :
  let sid := subnet_id (self s) in
  let remaining := get_next_epoch_start_block (epoch_length (self s)) b - b in
  subnet_accepting_consensus (self s) = true →
  subnet_node_eligible (self s) = true →
  chain_functions.get_block_number (env s) = (Ok b, e1) →
  epoch_of b (epoch_length (self s)) = Ok epoch →
  last_validated_or_attested_epoch (self s) < epoch →
  chain_functions.get_rewards_validator sid epoch e1 = (Ok (Some (account_id (self s))), e2) →
  chain_functions.get_rewards_submission sid epoch e2 = (Ok (Some sub), e3) →
  0 <= remaining * BLOCK_SECS →
  run_body BLOCK_SECS depth s
  = (Ok Continue,
     {| env := chain_functions.sleep (inject_Z (remaining * BLOCK_SECS)) e3;
        self := set_last_epoch epoch (self s) |},
     [EvBlockNumber (Ok b); EvRewardsValidator sid epoch (Ok (Some (account_id (self s))));
      EvRewardsSubmission sid epoch (Ok (Some sub));
      EvSleep (inject_Z (remaining * BLOCK_SECS))]).
Proof.
  intros sid remaining Hacc Hel Hb Hep Hlast Hv Hsub Hrem.
  unfold run_body.
  erewrite bind_Ok by (unfold call; rewrite Hb; reflexivity).
  erewrite bind_Ok by reflexivity.
  erewrite bind_Ok by (unfold lift; cbn [self]; rewrite Hep; reflexivity).
  erewrite bind_Ok by reflexivity.
  erewrite bind_Ok by reflexivity.
  cbn [self]. rewrite Hacc, andb_true_r.
  assert ((epoch <=? last_validated_or_attested_epoch (self s)) = false) as -> by lia.
  cbn [negb].
  erewrite bind_Ok by reflexivity.
  cbn [self]. rewrite Hel. cbn [negb].
  erewrite bind_Ok by reflexivity. cbn [negb].
  erewrite bind_Ok by
    (unfold _get_validator; erewrite bind_Ok by reflexivity; unfold call; cbn [env self];
     fold sid; rewrite Hv; reflexivity).
  cbn beta iota.
  erewrite bind_Ok by reflexivity. cbn [self].
  rewrite bool_decide_eq_true_2 by reflexivity.
  erewrite bind_Ok by
    (unfold _get_validator_consensus_submission; erewrite bind_Ok by reflexivity;
     unfold call; cbn [env self]; fold sid; rewrite Hsub; reflexivity).
  cbn beta iota.
  erewrite bind_Ok by reflexivity.
  erewrite bind_Ok by (by apply time_sleep_Ok).
  reflexivity.
Qed.

(** X21: in an epoch it has completed, an agent that accepts consensus
    only fetches the block number and sleeps to the start of the next
    epoch: no other call is made and nothing of the agent changes. *)
Theorem completed_epoch_pass (depth : nat) (b epoch : Z) (e1 : Env) s :
  let remaining := get_next_epoch_start_block (epoch_length (self s)) b - b in
  subnet_accepting_consensus (self s) = true →
  chain_functions.get_block_number (env s) = (Ok b, e1) →
  epoch_of b (epoch_length (self s)) = Ok epoch →
  epoch <= last_validated_or_attested_epoch (self s) →
  0 <= remaining * BLOCK_SECS →
  run_body BLOCK_SECS depth s
  = (Ok Continue,
     {| env := chain_functions.sleep (inject_Z (remaining * BLOCK_SECS)) e1;
        self := self s |},
     [EvBlockNumber (Ok b); EvSleep (inject_Z (remaining * BLOCK_SECS))]).
Proof.
  intros remaining Hacc Hb Hep Hlast Hrem.
  unfold run_body.
  erewrite bind_Ok by (unfold call; rewrite Hb; reflexivity).
  erewrite bind_Ok by reflexivity.
  erewrite bind_Ok by (unfold lift; cbn [self]; rewrite Hep; reflexivity).
  erewrite bind_Ok by reflexivity.
  erewrite bind_Ok by reflexivity.
  cbn [self]. rewrite Hacc, andb_true_r.
  assert ((epoch <=? last_validated_or_attested_epoch (self s)) = true) as -> by lia.
  erewrite bind_Ok by (by apply time_sleep_Ok).
  reflexivity.
Qed.

(** X22: when the block number fetched by a pass of the inner loop is in
    an epoch after the one the loop started in, the pass leaves the loop
    at once: [attest] is not called, nothing is submitted and the completed
    epoch stays what it was. *)
Theorem attest_loop_next_epoch (fuel : nat) (initial_epoch attest_checks b epoch : Z)
    (e1 : Env) s :
  0 <= BLOCK_SECS →
  chain_functions.get_block_number
    (chain_functions.sleep (inject_Z BLOCK_SECS) (env s)) = (Ok b, e1) →
  epoch_of b (epoch_length (self s)) = Ok epoch →
  initial_epoch < epoch →
  attest_loop BLOCK_SECS (S fuel) initial_epoch attest_checks s
  = (Ok ExitNextEpoch, {| env := e1; self := self s |},
     [EvSleep (inject_Z BLOCK_SECS); EvBlockNumber (Ok b)]).
Proof.
  intros HBS Hb Hep Hnext. cbn [attest_loop].
  erewrite bind_Ok by (by apply time_sleep_Ok).
  erewrite bind_Ok by (unfold call; cbn [env self]; rewrite Hb; reflexivity).
  erewrite bind_Ok by reflexivity.
  erewrite bind_Ok by (unfold lift; cbn [env self]; rewrite Hep; reflexivity).
  assert ((initial_epoch <? epoch) = true) as -> by lia.
  reflexivity.
Qed.

(** X26: the pass of an attester that agrees with the validator.  When
    the epoch has not rolled over, the counter has not passed
    [MAX_ATTEST_CHECKS], the chain holds a submission that does not list
    the agent's account, and the scores of the node have the canonical set
    of the submitted ones, the pass submits one [attest]; on a receipt of
    success it stores the epoch in [last_validated_or_attested_epoch],
    remembers the node's score set and leaves the loop. *)
Theorem attester_attests (fuel : nat) (initial_epoch attest_checks b epoch : Z)
    (sub : Submission) (mine : list Fields) (receipt : Receipt) (e1 e2 e3 e4 : Env) s :
  let sid := subnet_id (self s) in
  0 <= BLOCK_SECS →
  chain_functions.get_block_number
    (chain_functions.sleep (inject_Z BLOCK_SECS) (env s)) = (Ok b, e1) →
  epoch_of b (epoch_length (self s)) = Ok epoch →
  epoch <= initial_epoch →
  attest_checks <= MAX_ATTEST_CHECKS →
  chain_functions.get_rewards_submission sid epoch e1 = (Ok (Some sub), e2) →
  ¬ In (account_id (self s)) (map fst (sub_attests sub)) →
  sub_data sub ≠ [] →
  chain_functions.get_consensus_data sid e2 = (Ok (PDict <$> mine), e3) →
  list_to_set (frozenset <$> sub_data sub) =@{ScoreSet} list_to_set (frozenset <$> mine) →
  chain_functions.attest sid e3 = (Ok (Some receipt), e4) →
  is_success receipt = true →
  attest_loop BLOCK_SECS (S fuel) initial_epoch attest_checks s
  = (Ok ExitAttested,
     {| env := e4;
        self := set_last_epoch epoch
                  (set_previous_epoch_data (Some (list_to_set (frozenset <$> mine)))
                     (self s)) |},
     [EvSleep (inject_Z BLOCK_SECS); EvBlockNumber (Ok b);
      EvRewardsSubmission sid epoch (Ok (Some sub));
      EvConsensusData sid (Ok (PDict <$> mine));
      EvAttest sid (Ok (Some receipt))]).
Proof.
  intros sid HBS Hb Hep Hle Hchk Hsub Hnot Hdata Hprobe Hsame Hatt Hok.
  assert (existsb (λ data : string * Z, bool_decide (data.1 = account_id (self s)))
                  (sub_attests sub) = false) as Hhas.
  { destruct (existsb _ _) eqn:Hex; [|reflexivity]. exfalso. apply Hnot.
    apply existsb_exists in Hex as [d [Hd Hacc]]. apply in_map_iff. exists d.
    split; [by apply bool_decide_eq_true_1 in Hacc | exact Hd]. }
  assert (attest epoch {| env := e1; self := self s |}
          = (Ok (true, ATTESTED),
             {| env := e4;
                self := set_previous_epoch_data (Some (list_to_set (frozenset <$> mine)))
                          (self s) |},
             [EvRewardsSubmission sid epoch (Ok (Some sub));
              EvConsensusData sid (Ok (PDict <$> mine));
              EvAttest sid (Ok (Some receipt))])) as Hattest.
  { unfold attest.
    erewrite bind_Ok by
      (unfold _get_validator_consensus_submission; erewrite bind_Ok by reflexivity;
       unfold call; cbn [env self]; fold sid; rewrite Hsub; reflexivity).
    cbn beta iota.
    erewrite bind_Ok by (unfold _has_attested, bind, gets, ret; cbn [self];
                         rewrite Hhas; reflexivity).
    cbn beta iota.
    erewrite bind_Ok by
      (unfold _get_consensus_data; erewrite bind_Ok by reflexivity;
       unfold call; cbn [env self]; fold sid; rewrite Hprobe; reflexivity).
    cbn beta iota.
    erewrite bind_Ok by
      (apply (should_attest_equal_sets _ _ (list_to_set (frozenset <$> mine)));
       [unfold list_from_scale_info; rewrite set_of_dataclasses_decoded; by rewrite Hsame
       |apply set_of_dicts_probe
       |left; unfold list_from_scale_info; by destruct (sub_data sub)]).
    cbn beta iota. cbn [env self].
    erewrite bind_Ok by
      (unfold _do_attest, try_except, bind, gets, call, receipt_is_success, ret;
       cbn [env self subnet_id set_previous_epoch_data]; fold sid; rewrite Hatt, Hok;
       reflexivity).
    reflexivity. }
  cbn [attest_loop].
  erewrite bind_Ok by (by apply time_sleep_Ok).
  erewrite bind_Ok by (unfold call; cbn [env self]; rewrite Hb; reflexivity).
  erewrite bind_Ok by reflexivity.
  erewrite bind_Ok by (unfold lift; cbn [env self]; rewrite Hep; reflexivity).
  assert ((initial_epoch <? epoch) = false) as -> by lia.
  assert ((MAX_ATTEST_CHECKS <? attest_checks) = false) as -> by lia.
  erewrite bind_Ok by exact Hattest.
  reflexivity.
Qed.

(** ** Composing passes *)

Lemma run_stopped (depth passes : nat) s :
  stop (self s) = true → run BLOCK_SECS depth passes s = (Ok tt, s, []).
Proof.
  intros Hstop. destruct passes as [|passes]; [reflexivity|].
  cbn [run]. unfold bind, gets. rewrite Hstop. reflexivity.
Qed.

(** [p + q] passes are [p] passes followed by [q] passes. *)
Lemma run_add (depth p q : nat) s :
  run BLOCK_SECS depth (p + q) s
  = (let '(_, s1, l1) := run BLOCK_SECS depth p s in
     let '(r2, s2, l2) := run BLOCK_SECS depth q s1 in
     (r2, s2, l1 ++ l2)).
Proof.
  revert s. induction p as [|p IH]; intros s.
  { cbn [Nat.add run ret]. by destruct (run BLOCK_SECS depth q s) as [[r2 s2] l2]. }
  destruct (stop (self s)) eqn:Hstop.
  { rewrite !run_stopped by exact Hstop. cbn iota zeta beta.
    rewrite ?run_stopped by exact Hstop. reflexivity. }
  cbn [Nat.add run]. unfold bind at 1 3, gets at 1 2. rewrite Hstop.
  pose proof (run_once_flow depth s) as Hflow.
  unfold bind. destruct (run_once BLOCK_SECS depth s) as [[r s1] l1] eqn:Honce.
  destruct (Hflow _ _ _ Honce) as [[flow ->] Hbreak].
  destruct flow.
  - rewrite IH.
    destruct (run BLOCK_SECS depth p s1) as [[r1 s1'] l1'].
    destruct (run BLOCK_SECS depth q s1') as [[r2 s2] l2].
    cbn [app]. by rewrite app_assoc.
  - cbn [ret]. rewrite run_stopped by auto. cbn [app]. by rewrite !app_nil_r.
Qed.

(** C2 (amended): across any sequence of passes of the loop,
    [last_validated_or_attested_epoch] is non-decreasing (its value after
    [p] passes is at most its value after [p + q] passes), provided the
    epochs the loop derives from the block numbers it fetches never go
    back. *)
Theorem last_epoch_never_decreases (depth p q : nat) s :
  nondecreasing (block_epochs (epoch_length (self s))
                   (emitted (run BLOCK_SECS depth (p + q) s))) →
  last_epoch_after BLOCK_SECS depth p s <= last_epoch_after BLOCK_SECS depth (p + q) s.
Proof.
  unfold last_epoch_after. rewrite run_add.
  pose proof (wp_elim _ _ _ (run_last depth p s)) as [Hlen1 _].
  destruct (run BLOCK_SECS depth p s) as [[r1 s1] l1]. cbn [final] in Hlen1.
  pose proof (wp_elim _ _ _ (run_last depth q s1)) as [_ Hlast].
  destruct (run BLOCK_SECS depth q s1) as [[r2 s2] l2].
  unfold emitted, final in *. cbn [fst snd] in *.
  rewrite block_epochs_app. intros Hnd. apply nondecreasing_app in Hnd as [_ Hnd].
  rewrite <- Hlen1 in Hnd. auto.
Qed.

(** ** The chain check before each extrinsic *)

Lemma wp_and {A} (m : M A) s (Q1 Q2 : Res A → State → list Event → Prop) :
  wp m s Q1 → wp m s Q2 → wp m s (λ r s' l, Q1 r s' l ∧ Q2 r s' l).
Proof. intros H1 H2 r s' l Hm. split; [by apply H1 | by apply H2]. Qed.

Lemma guarded_app_any (acct : string) (len : Z) (l1 l2 : list Event) cur pend :
  guarded acct len cur pend l1 →
  (∀ cur' pend', guarded acct len cur' pend' l2) →
  guarded acct len cur pend (l1 ++ l2).
Proof.
  intros H1 H2. revert cur pend H1.
  induction l1 as [|ev l1 IH]; intros cur pend H1; [apply H2|].
  destruct ev; cbn [app guarded] in *; try (apply IH; exact H1).
  - destruct H1 as [Hp H1]. split; [exact Hp|]. by apply IH.
  - destruct H1 as [Hp H1]. split; [exact Hp|]. by apply IH.
Qed.

Lemma guarded_quiet (acct : string) (len : Z) (l : list Event) :
  Forall quiet l → ∀ cur pend, guarded acct len cur pend l.
Proof.
  induction 1 as [|ev l Hq _ IH]; intros cur pend; [exact I|].
  destruct ev; cbn [guarded quiet] in *; try apply IH; contradiction.
Qed.

Lemma has_attested_not_In (acct : string) (attestations : list (string * Z)) :
  existsb (λ data : string * Z, bool_decide (data.1 = acct)) attestations = false →
  ¬ In acct (map fst attestations).
Proof.
  intros Hex Hin. rewrite (has_attested_In _ _ Hin) in Hex. discriminate.
Qed.

(** [attest] checks the chain before its extrinsic. *)
Lemma attest_guarded (acct : string) (len epoch : Z) s :
  account_id (self s) = acct →
  wp (attest epoch) s (λ r s' l, ∀ pend, guarded acct len (Some epoch) pend l).
Proof.
  intros Hacc.
  unfold attest, should_attest, _do_attest, receipt_is_success,
    _get_validator_consensus_submission, _has_attested, _get_consensus_data.
  repeat wp_step.
  all: try match goal with
       | Hs : set_of_dataclasses (submission_iter _) = Ok _ |- _ => discriminate Hs
       end.
  all: intros pend; flatten_events; cbn [guarded].
  all: rewrite ?bool_decide_eq_true_2 by reflexivity.
  all: try exact I.
  all: split; [|exact I]; eexists; split; [reflexivity|].
  all: rewrite <- Hacc; by apply has_attested_not_In.
Qed.

(** The inner loop fetches the block number before each call of
    [attest]. *)
Lemma attest_loop_guarded (acct : string) (len : Z) (fuel : nat)
    (initial_epoch attest_checks : Z) s :
  account_id (self s) = acct →
  epoch_length (self s) = len →
  wp (attest_loop BLOCK_SECS fuel initial_epoch attest_checks) s
     (λ r s' l,
        (account_id (self s') = acct ∧ epoch_length (self s') = len)
        ∧ ∀ cur pend, guarded acct len cur pend l).
Proof.
  revert attest_checks s. induction fuel as [|fuel IH]; intros attest_checks s Hacc Hlen;
    cbn [attest_loop].
  { wp_lin. split; [done|]. intros cur pend. exact I. }
  repeat first
    [ wp_step
    | lazymatch goal with
      | |- wp (attest _) ?s1 _ =>
          eapply wp_mono;
          [apply (wp_and _ _ _ _ (attest_frame _ s1) (attest_guarded acct len _ s1 Hacc))|];
          cbn beta; intros ? ? ? [(Hlast1 & Hlen1 & Hacc1) Hg1];
          cbn [self] in Hlast1, Hlen1, Hacc1
      | |- wp (attest_loop _ _ _ _) ?s1 _ =>
          eapply wp_mono; [apply (IH _ s1); cbn [self]; congruence|];
          cbn beta; intros ? ? ? [[Hacc2 Hlen2] Hrec]
      end ].
  all: (split; [cbn [self account_id epoch_length set_last_epoch]; split; congruence|]).
  all: intros cur pend; flatten_events; cbn [guarded block_epoch].
  all: try exact I.
  all: try match goal with
       | E : epoch_of _ (epoch_length _) = _ |- _ => rewrite Hlen in E; rewrite E
       end.
  all: try exact I.
  all: first [ apply Hg1
             | apply guarded_app_any;
               [apply Hg1 | intros; cbn [guarded]; apply Hrec] ].
Qed.

(** [_activate_subnet] submits neither [validate] nor [attest]. *)
Lemma activate_subnet_quiet (depth : nat) s :
  wp (_activate_subnet BLOCK_SECS depth) s (λ r s' l, Forall quiet l).
Proof.
  revert s. induction depth as [|depth IH]; intros s; cbn [_activate_subnet].
  { wp_lin. constructor. }
  repeat first
    [ wp_step
    | lazymatch goal with
      | |- wp (_activate_subnet _ _) ?s1 _ =>
          eapply wp_mono; [apply (IH s1)|]; cbn beta; intros ? ? ? ?
      | |- wp (activated_of ?d) _ _ => destruct d; unfold activated_of
      end ].
  all: repeat first [ apply Forall_app; split | apply Forall_cons; split
                    | apply Forall_nil | assumption | exact I ].
Qed.

(** One pass of the outer loop checks the chain before each extrinsic. *)
Lemma run_body_guarded (acct : string) (len : Z) (depth : nat) s :
  account_id (self s) = acct →
  epoch_length (self s) = len →
  wp (run_body BLOCK_SECS depth) s
     (λ r s' l,
        (account_id (self s') = acct ∧ epoch_length (self s') = len)
        ∧ ∀ cur pend, guarded acct len cur pend l).
Proof.
  intros Hacc Hlen.
  unfold run_body, validate, _get_validator, _get_validator_consensus_submission,
    _get_consensus_data, _do_validate, receipt_is_success.
  repeat first
    [ wp_step
    | lazymatch goal with
      | |- wp (_activate_subnet _ _) ?s1 _ =>
          eapply wp_mono;
          [apply (wp_and _ _ _ _ (activate_subnet_frame _ s1) (activate_subnet_quiet _ s1))|];
          cbn beta; intros ? ? ? [(Hlast1 & Hlen1 & Hacc1) Hq1];
          cbn [self] in Hlast1, Hlen1, Hacc1
      | |- wp (attest_loop _ _ _ _) ?s1 _ =>
          eapply wp_mono;
          [apply (attest_loop_guarded acct len _ _ _ s1);
           cbn [self account_id epoch_length set_eligible]; congruence|];
          cbn beta; intros ? ? ? [[Hacc2 Hlen2] Hrec]
      end ].
  all: (split; [cbn [self account_id epoch_length set_last_epoch set_eligible];
                split; congruence|]).
  all: intros cur pend; flatten_events; cbn [guarded block_epoch].
  all: try exact I.
  all: try match goal with
       | E : epoch_of _ (epoch_length _) = _ |- _ => rewrite Hlen in E; rewrite E
       end.
  all: cbn [guarded].
  all: rewrite ?bool_decide_eq_true_2 by reflexivity.
  all: try exact I.
  all: first [ split; [reflexivity | exact I]
             | apply Hrec
             | apply guarded_quiet; assumption
             | apply guarded_app_any;
               [apply guarded_quiet; assumption | intros; exact I] ].
Qed.

Lemma run_guarded (acct : string) (len : Z) (depth passes : nat) s :
  account_id (self s) = acct →
  epoch_length (self s) = len →
  wp (run BLOCK_SECS depth passes) s
     (λ r s' l,
        (account_id (self s') = acct ∧ epoch_length (self s') = len)
        ∧ ∀ cur pend, guarded acct len cur pend l).
Proof.
  revert s. induction passes as [|passes IH]; intros s Hacc Hlen; cbn [run].
  { wp_lin. split; [done|]. intros cur pend. exact I. }
  wp_lin. wp_step; [wp_lin; split; [done|]; intros cur pend; exact I|].
  wp_step. unfold run_once. apply wp_try_except.
  eapply wp_mono; [apply (run_body_guarded acct len depth s Hacc Hlen)|]. cbn beta.
  intros [flow|x] s1 l1 [[Hacc1 Hlen1] Hg1]; [destruct flow|]; wp_lin.
  1, 3: eapply wp_mono; [apply (IH s1 Hacc1 Hlen1)|]; cbn beta;
    intros r2 s2 l2 [[Hacc2 Hlen2] Hg2].
  all: (split; [done|]); intros cur pend; flatten_events.
  all: first [ apply Hg1 | apply guarded_app_any; [apply Hg1 | exact Hg2] ].
Qed.

Lemma lifetime_guarded (acct : string) (len : Z) (depth : nat) (runs : list nat) s :
  account_id (self s) = acct →
  epoch_length (self s) = len →
  ∀ cur pend, guarded acct len cur pend (lifetime BLOCK_SECS depth runs s).
Proof.
  revert s. induction runs as [|passes runs IH]; intros s Hacc Hlen cur pend;
    cbn [lifetime]; [exact I|].
  pose proof (run_guarded acct len depth passes s Hacc Hlen) as Hrun.
  destruct (run BLOCK_SECS depth passes s) as [[r s1] l1] eqn:Hr.
  destruct (Hrun _ _ _ Hr) as [[Hacc1 Hlen1] Hg1].
  apply guarded_app_any; [apply Hg1|]. intros cur' pend'.
  apply IH; cbn [self restart init account_id epoch_length]; assumption.
Qed.

(** ** Who submits, and what *)

Lemma elected_app_any (acct : string) (len : Z) (l1 l2 : list Event) cur v :
  elected acct len cur v l1 →
  (∀ cur' v', elected acct len cur' v' l2) →
  elected acct len cur v (l1 ++ l2).
Proof.
  intros H1 H2. revert cur v H1.
  induction l1 as [|ev l1 IH]; intros cur v H1; [apply H2|].
  destruct ev; cbn [app elected] in *; try (apply IH; exact H1).
  - destruct H1 as [Hp H1]. split; [exact Hp|]. by apply IH.
  - destruct H1 as [Hp H1]. split; [exact Hp|]. by apply IH.
Qed.

Lemma elected_quiet (acct : string) (len : Z) (l : list Event) :
  Forall quiet l → ∀ cur v, elected acct len cur v l.
Proof.
  induction 1 as [|ev l Hq _ IH]; intros cur v; [exact I|].
  destruct ev; cbn [elected quiet] in *; try apply IH; contradiction.
Qed.

Lemma probed_app_any (l1 l2 : list Event) d :
  probed d l1 → (∀ d', probed d' l2) → probed d (l1 ++ l2).
Proof.
  intros H1 H2. revert d H1.
  induction l1 as [|ev l1 IH]; intros d H1; [apply H2|].
  destruct ev as [| | | | | |sid [data|x]|sid data r| | |];
    cbn [app probed] in *; try (apply IH; exact H1).
  destruct H1 as [Hp H1]. split; [exact Hp|]. by apply IH.
Qed.

Lemma probed_quiet (l : list Event) : Forall quiet l → ∀ d, probed d l.
Proof.
  induction 1 as [|ev l Hq _ IH]; intros d; [exact I|].
  destruct ev as [| | | | | |sid [data|x]|sid data r| | |];
    cbn [probed quiet] in *; try apply IH; contradiction.
Qed.

(** [attest] submits its extrinsic only as an attester, and no
    [validate]. *)
Lemma attest_elected (acct : string) (len epoch : Z) s :
  wp (attest epoch) s
     (λ r s' l,
        (∀ e w rest,
           w ≠ acct → epoch <= e →
           elected acct len (Some epoch) (Some (e, w)) rest →
           elected acct len (Some epoch) (Some (e, w)) (l ++ rest))
        ∧ (∀ d rest, (∀ d', probed d' rest) → probed d (l ++ rest))).
Proof.
  unfold attest, should_attest, _do_attest, receipt_is_success,
    _get_validator_consensus_submission, _has_attested, _get_consensus_data.
  repeat wp_step.
  all: split; [intros named_e named_w rest Hother Hepoch Hrest | intros d rest Hrest].
  all: flatten_events; cbn [elected probed].
  all: repeat first [ assumption | apply Hrest | split ].
  all: eexists _, _, _; repeat split; first [reflexivity | assumption].
Qed.

Lemma attest_loop_elected (acct : string) (len : Z) (fuel : nat)
    (initial_epoch attest_checks : Z) s :
  epoch_length (self s) = len →
  wp (attest_loop BLOCK_SECS fuel initial_epoch attest_checks) s
     (λ r s' l,
        epoch_length (self s') = len
        ∧ (∀ cur w, w ≠ acct → elected acct len cur (Some (initial_epoch, w)) l)
        ∧ (∀ d, probed d l)).
Proof.
  revert attest_checks s. induction fuel as [|fuel IH]; intros attest_checks s Hlen;
    cbn [attest_loop].
  { wp_lin. split; [done|]. split; intros; exact I. }
  repeat first
    [ wp_step
    | lazymatch goal with
      | |- wp (attest _) ?s1 _ =>
          eapply wp_mono;
          [apply (wp_and _ _ _ _ (attest_frame _ s1) (attest_elected acct len _ s1))|];
          cbn beta; intros ? ? ? [(Hlast1 & Hlen1 & Hacc1) [He1 Hp1]];
          cbn [self] in Hlast1, Hlen1, Hacc1
      | |- wp (attest_loop _ _ _ _) ?s1 _ =>
          eapply wp_mono; [apply (IH _ s1); cbn [self]; congruence|];
          cbn beta; intros ? ? ? (Hlen2 & He2 & Hp2)
      end ].
  all: (split; [cbn [self epoch_length set_last_epoch]; congruence|]).
  all: bool_to_prop.
  all: split; [intros cur w Hw | intros d].
  all: flatten_events; cbn [elected probed block_epoch].
  all: try exact I.
  all: try match goal with
       | E : epoch_of _ (epoch_length _) = _ |- _ => rewrite Hlen in E; rewrite E
       end.
  all: try exact I.
  all: try match goal with
       | |- elected _ _ _ _ ?l0 => is_var l0; rewrite <- (app_nil_r l0)
       | |- probed _ ?l0 => is_var l0; rewrite <- (app_nil_r l0)
       end.
  all: first [ apply He1; [assumption | lia | cbn [elected]; first [exact I | apply He2; assumption]]
             | apply Hp1; intros; cbn [probed]; first [exact I | apply Hp2] ].
Qed.

(** One pass of the outer loop. *)
Lemma run_body_elected (acct : string) (len : Z) (depth : nat) s :
  account_id (self s) = acct →
  epoch_length (self s) = len →
  wp (run_body BLOCK_SECS depth) s
     (λ r s' l,
        (account_id (self s') = acct ∧ epoch_length (self s') = len)
        ∧ (∀ cur v, elected acct len cur v l)
        ∧ (∀ d, probed d l)).
Proof.
  intros Hacc Hlen.
  unfold run_body, validate, _get_validator, _get_validator_consensus_submission,
    _get_consensus_data, _do_validate, receipt_is_success.
  repeat first
    [ wp_step
    | lazymatch goal with
      | |- wp (_activate_subnet _ _) ?s1 _ =>
          eapply wp_mono;
          [apply (wp_and _ _ _ _ (activate_subnet_frame _ s1) (activate_subnet_quiet _ s1))|];
          cbn beta; intros ? ? ? [(Hlast1 & Hlen1 & Hacc1) Hq1];
          cbn [self] in Hlast1, Hlen1, Hacc1
      | |- wp (attest_loop _ _ _ _) ?s1 _ =>
          eapply wp_mono;
          [apply (wp_and _ _ _ _ (attest_loop_untouched _ _ _ s1)
                    (attest_loop_elected acct len _ _ _ s1 ltac:(cbn; congruence)))|];
          cbn beta; intros ? ? ? [[Hu2 _] (Hlen2 & He2 & Hp2)]
      end ].
  all: (split; [unfold untouched in *;
                cbn [self account_id epoch_length set_last_epoch set_eligible] in *;
                destruct_and?; split; congruence|]).
  all: split; [intros cur v | intros d].
  all: flatten_events; cbn [elected probed block_epoch named].
  all: try exact I.
  all: try match goal with
       | E : epoch_of _ (epoch_length _) = _ |- _ => rewrite Hlen in E; rewrite E
       end.
  all: cbn [elected probed].
  all: try exact I.
  all: first [ split; [|exact I]; first [reflexivity | eexists; split; [reflexivity|]]
             | apply He2
             | apply Hp2
             | apply elected_quiet; assumption
             | apply probed_quiet; assumption
             | apply elected_app_any;
               [apply elected_quiet; assumption | intros; exact I]
             | apply probed_app_any;
               [apply probed_quiet; assumption | intros; exact I] ].
  all: cbn [account_id set_eligible] in *.
  all: repeat match goal with
       | Hb : bool_decide (_ = _) = true |- _ => apply bool_decide_eq_true_1 in Hb
       | Hb : bool_decide (_ = _) = false |- _ => apply bool_decide_eq_false_1 in Hb
       end.
  all: congruence.
Qed.

Lemma run_elected (acct : string) (len : Z) (depth passes : nat) s :
  account_id (self s) = acct →
  epoch_length (self s) = len →
  wp (run BLOCK_SECS depth passes) s
     (λ r s' l,
        (account_id (self s') = acct ∧ epoch_length (self s') = len)
        ∧ (∀ cur v, elected acct len cur v l)
        ∧ (∀ d, probed d l)).
Proof.
  revert s. induction passes as [|passes IH]; intros s Hacc Hlen; cbn [run].
  { wp_lin. split; [done|]. split; intros; exact I. }
  wp_lin. wp_step; [wp_lin; split; [done|]; split; intros; exact I|].
  wp_step. unfold run_once. apply wp_try_except.
  eapply wp_mono; [apply (run_body_elected acct len depth s Hacc Hlen)|]. cbn beta.
  intros [flow|x] s1 l1 ([Hacc1 Hlen1] & He1 & Hp1); [destruct flow|]; wp_lin.
  1, 3: eapply wp_mono; [apply (IH s1 Hacc1 Hlen1)|]; cbn beta;
    intros r2 s2 l2 ([Hacc2 Hlen2] & He2 & Hp2).
  all: (split; [done|]); split; [intros cur v | intros d]; flatten_events.
  all: first [ apply He1 | apply Hp1
             | apply elected_app_any; [apply He1 | exact He2]
             | apply probed_app_any; [apply Hp1 | exact Hp2] ].
Qed.

Lemma lifetime_elected (acct : string) (len : Z) (depth : nat) (runs : list nat) s :
  account_id (self s) = acct →
  epoch_length (self s) = len →
  (∀ cur v, elected acct len cur v (lifetime BLOCK_SECS depth runs s))
  ∧ (∀ d, probed d (lifetime BLOCK_SECS depth runs s)).
Proof.
  revert s. induction runs as [|passes runs IH]; intros s Hacc Hlen;
    cbn [lifetime]; [split; intros; exact I|].
  pose proof (run_elected acct len depth passes s Hacc Hlen) as Hrun.
  destruct (run BLOCK_SECS depth passes s) as [[r s1] l1] eqn:Hr.
  destruct (Hrun _ _ _ Hr) as ([Hacc1 Hlen1] & He1 & Hp1).
  destruct (IH {| env := env s1; self := restart (self s1) |}) as [He2 Hp2];
    [cbn [self restart init account_id]; assumption
    |cbn [self restart init epoch_length]; assumption|].
  split; [intros cur v; apply elected_app_any; [apply He1 | exact He2]
         |intros d; apply probed_app_any; [apply Hp1 | exact Hp2]].
Qed.

(** X23: over the successive processes of a node, a [validate] extrinsic
    is submitted only when the latest answer of [get_rewards_validator]
    named the node's account validator of the epoch the agent is in (the
    epoch of the latest block number fetched), and an [attest] extrinsic
    only when the latest answer named another account, for an epoch that
    is not before the one the agent is in.  The epoch of an [attest] can be
    an earlier one than the epoch asked about: the inner loop fetches the
    block number again and only leaves on a later epoch. *)
Theorem extrinsics_follow_election (depth : nat) (runs : list nat) s :
  elected (account_id (self s)) (epoch_length (self s)) None None
          (lifetime BLOCK_SECS depth runs s).
Proof. apply (lifetime_elected _ _ depth runs s eq_refl eq_refl). Qed.

(** X24: over the successive processes of a node, every [validate]
    extrinsic submits the list the scoring probe returned in the call just
    before it, for the same subnet: the agent never submits scores it kept
    from an earlier pass. *)
Theorem validate_submits_fresh_scores (depth : nat) (runs : list nat) s :
  probed None (lifetime BLOCK_SECS depth runs s).
Proof. apply (lifetime_elected _ _ depth runs s eq_refl eq_refl). Qed.

(** ** Eligibility *)

Lemma listed_first_true (acct : string) (l : list Event) : listed_first acct true l.
Proof. induction l as [|ev l IH]; [exact I|]. destruct ev; cbn [listed_first orb]; auto. Qed.

Lemma listed_first_ungated (acct : string) (l : list Event) :
  Forall ungated l →
  ∀ seen rest,
    (∀ seen', (seen = true → seen' = true) → listed_first acct seen' rest) →
    listed_first acct seen (l ++ rest).
Proof.
  induction 1 as [|ev l Hu _ IH]; intros seen rest Hrest; [by apply Hrest|].
  destruct ev; cbn [ungated app listed_first] in *; try contradiction;
    apply IH; intros seen' Hs; apply Hrest; intros Hseen; apply Hs; try assumption.
  by rewrite Hseen.
Qed.

Lemma activate_subnet_ungated (depth : nat) s :
  wp (_activate_subnet BLOCK_SECS depth) s (λ r s' l, Forall ungated l).
Proof.
  revert s. induction depth as [|depth IH]; intros s; cbn [_activate_subnet].
  { wp_lin. constructor. }
  repeat first
    [ wp_step
    | lazymatch goal with
      | |- wp (_activate_subnet _ _) ?s1 _ =>
          eapply wp_mono; [apply (IH s1)|]; cbn beta; intros ? ? ? ?
      | |- wp (activated_of ?d) _ _ => destruct d; unfold activated_of
      end ].
  all: repeat first [ apply Forall_app; split | apply Forall_cons; split
                    | apply Forall_nil | assumption | exact I ].
Qed.

(** One pass of the outer loop. *)
Lemma run_body_listed_first (acct : string) (depth : nat) s :
  account_id (self s) = acct →
  wp (run_body BLOCK_SECS depth) s
     (λ r s' l,
        account_id (self s') = acct
        ∧ ∀ seen rest,
            (subnet_node_eligible (self s) = true → seen = true) →
            (∀ seen', (subnet_node_eligible (self s') = true → seen' = true) →
                      listed_first acct seen' rest) →
            listed_first acct seen (l ++ rest)).
Proof.
  intros Hacc.
  unfold run_body, validate, _get_validator, _get_validator_consensus_submission,
    _get_consensus_data, _do_validate, receipt_is_success.
  repeat first
    [ wp_step
    | lazymatch goal with
      | |- wp (_activate_subnet _ _) ?s1 _ =>
          eapply wp_mono;
          [apply (wp_and _ _ _ _ (activate_subnet_keeps _ s1) (activate_subnet_ungated _ s1))|];
          cbn beta; intros ? ? ? [[(_ & Hacc1 & _ & Hel1 & _) _] Hu1];
          cbn [self] in Hacc1, Hel1
      | |- wp (attest_loop _ _ _ _) ?s1 _ =>
          eapply wp_mono; [apply (attest_loop_untouched _ _ _ s1)|];
          cbn beta; intros ? ? ? [Hu2 _]
      end ].
  all: unfold untouched in *; fields; destruct_and?.
  all: (split; [congruence|]).
  all: intros seen rest Hseen Hrest; flatten_events; cbn [listed_first app lists].
  all: try (apply listed_first_ungated; [assumption|]; intros seen1 Hmono;
            cbn [listed_first app]).
  all: destruct (subnet_node_eligible (self s)) eqn:Hel; cbn [negb] in *;
    try discriminate.
  all: try (pose proof (Hseen eq_refl) as ->).
  all: rewrite ?Hacc in *.
  all: repeat match goal with
       | Hex : existsb _ _ = _ |- _ => rewrite Hex
       end.
  all: rewrite ?orb_true_r, ?orb_false_r.
  all: repeat first [ apply listed_first_true | split; [reflexivity|] ].
  all: apply Hrest; intros; first [ congruence | auto ].
Qed.

Lemma run_listed_first (acct : string) (depth passes : nat) s :
  account_id (self s) = acct →
  wp (run BLOCK_SECS depth passes) s
     (λ r s' l,
        account_id (self s') = acct
        ∧ ∀ seen rest,
            (subnet_node_eligible (self s) = true → seen = true) →
            (∀ seen', (subnet_node_eligible (self s') = true → seen' = true) →
                      listed_first acct seen' rest) →
            listed_first acct seen (l ++ rest)).
Proof.
  revert s. induction passes as [|passes IH]; intros s Hacc; cbn [run].
  { wp_lin. split; [done|]. intros seen rest Hseen Hrest. by apply Hrest. }
  wp_lin. wp_step.
  { wp_lin. split; [done|]. intros seen rest Hseen Hrest. by apply Hrest. }
  wp_step. unfold run_once. apply wp_try_except.
  eapply wp_mono; [apply (run_body_listed_first acct depth s Hacc)|]. cbn beta.
  intros [flow|x] s1 l1 [Hacc1 Hl1]; [destruct flow|]; wp_lin.
  1, 3: eapply wp_mono; [apply (IH s1 Hacc1)|]; cbn beta; intros r2 s2 l2 [Hacc2 Hl2].
  all: (split; [done|]); intros seen rest Hseen Hrest; flatten_events.
  all: apply Hl1; [exact Hseen|]; intros seen' Hseen'.
  all: first [ apply Hl2; assumption | by apply Hrest ].
Qed.

(** X25: over the successive processes of a node that starts not
    eligible, a fresh one for instance, the agent asks for the validator,
    reads submissions, probes the scores and submits [validate] or
    [attest] only after an answer of [get_submittable_nodes] has listed
    its account. *)
Theorem listed_before_consensus (depth : nat) (runs : list nat) s :
  subnet_node_eligible (self s) = false →
  listed_first (account_id (self s)) false (lifetime BLOCK_SECS depth runs s).
Proof.
  assert (∀ acct s' seen, account_id (self s') = acct →
            (subnet_node_eligible (self s') = true → seen = true) →
            listed_first acct seen (lifetime BLOCK_SECS depth runs s')) as Hgen.
  { intros acct. induction runs as [|passes runs IH]; intros s' seen Hacc Hseen;
      cbn [lifetime]; [exact I|].
    pose proof (run_listed_first acct depth passes s' Hacc) as Hrun.
    destruct (run BLOCK_SECS depth passes s') as [[r s1] l1] eqn:Hr.
    destruct (Hrun _ _ _ Hr) as [Hacc1 Hl1].
    apply Hl1; [exact Hseen|]. intros seen' _.
    apply IH; cbn [self restart init account_id subnet_node_eligible];
      [assumption|discriminate]. }
  intros Hel. apply Hgen; [reflexivity|]. rewrite Hel. discriminate.
Qed.

(** ** At most one success in an epoch *)

Lemma successes_cons (role : Role) (e : Z) (x : Role * option Z * bool)
    (xs : list (Role * option Z * bool)) :
  successes role e (x :: xs)
  = if bool_decide (x.1.1 = role) && bool_decide (x.1.2 = Some e) && x.2
    then S (successes role e xs) else successes role e xs.
Proof. unfold successes. cbn [List.filter]. by destruct (_ && _). Qed.

(** With the chain check before each extrinsic, on a chain that keeps the
    successes, an epoch already validated (attested) sees no further
    success, and any epoch sees at most one. *)
Lemma successes_bound (acct : string) (len : Z) (evs : list Event) :
  ∀ cur pend V A,
    guarded acct len cur pend evs →
    chain_remembers acct len cur V A evs →
    (pend = Some None → ∀ e, cur = Some e → ¬ In e V) →
    (∀ sub, pend = Some (Some sub) → ¬ In acct (map fst (sub_attests sub)) →
            ∀ e, cur = Some e → ¬ In e A) →
    ∀ e,
      (In e V → successes Validator e (extrinsics len cur evs) = 0%nat)
      ∧ (successes Validator e (extrinsics len cur evs) <= 1)%nat
      ∧ (In e A → successes Attester e (extrinsics len cur evs) = 0%nat)
      ∧ (successes Attester e (extrinsics len cur evs) <= 1)%nat.
Proof.
  induction evs as [|ev evs IH]; intros cur pend V A Hg Hc HV HA e.
  { cbn. repeat split; auto. }
  destruct ev as [rb| | | | |sid e' rs|sid rd|sid d rv|sid ra| |];
    cbn [guarded chain_remembers extrinsics] in *.
  all: try (apply (IH _ None V A Hg Hc); [discriminate | intros; discriminate]).
  - (* get_rewards_submission *)
    destruct rs as [[sub|]|x].
    + destruct Hc as [Hsub Hc]. eapply IH; [exact Hg | exact Hc | |].
      * case_bool_decide; discriminate.
      * intros sub' Hp Hnot e0 He0. case_bool_decide as Hcur; [|discriminate].
        injection Hp as <-. rewrite He0 in Hcur. injection Hcur as <-. tauto.
    + destruct Hc as [HnV Hc]. eapply IH; [exact Hg | exact Hc | |].
      * intros Hp e0 He0. case_bool_decide as Hcur; [|discriminate].
        rewrite He0 in Hcur. injection Hcur as <-. exact HnV.
      * intros sub' Hp. case_bool_decide; discriminate.
    + eapply IH; [exact Hg | exact Hc | discriminate | intros; discriminate].
  - (* get_consensus_data *)
    eapply IH; eauto.
  - (* validate *)
    destruct Hg as [Hp Hg]. specialize (HV Hp).
    rewrite !successes_cons. cbn [fst snd].
    specialize (IH _ _ _ _ Hg Hc ltac:(discriminate) ltac:(intros; discriminate) e)
      as (IHV0 & IHV1 & IHA0 & IHA1).
    rewrite (bool_decide_eq_false_2 (Validator = Attester)) by discriminate.
    rewrite (bool_decide_eq_true_2 (Validator = Validator)) by reflexivity.
    cbn [andb]. split; [|split; [|split]]; try assumption.
    + intros HeV. case_bool_decide as Hcur; cbn [andb].
      * exfalso. by apply (HV e).
      * apply IHV0. destruct cur; [destruct (succeeded rv)|]; [right| |]; assumption.
    + case_bool_decide as Hcur; cbn [andb]; [|assumption].
      destruct (succeeded rv); [|assumption].
      subst cur. rewrite IHV0; [lia|]. by left.
  - (* attest *)
    destruct Hg as [(sub & Hp & Hnot) Hg]. specialize (HA sub Hp Hnot).
    rewrite !successes_cons. cbn [fst snd].
    specialize (IH _ _ _ _ Hg Hc ltac:(discriminate) ltac:(intros; discriminate) e)
      as (IHV0 & IHV1 & IHA0 & IHA1).
    rewrite (bool_decide_eq_false_2 (Attester = Validator)) by discriminate.
    rewrite (bool_decide_eq_true_2 (Attester = Attester)) by reflexivity.
    cbn [andb]. split; [|split; [|split]]; try assumption.
    + intros HeA. case_bool_decide as Hcur; cbn [andb].
      * exfalso. by apply (HA e).
      * apply IHA0. destruct cur; [destruct (succeeded ra)|]; [right| |]; assumption.
    + case_bool_decide as Hcur; cbn [andb]; [|assumption].
      destruct (succeeded ra); [|assumption].
      subst cur. rewrite IHA0; [lia|]. by left.
Qed.

(** C1 (amended): over the successive processes of a node, every
    [validate] and [attest] extrinsic comes right after the chain check
    ([guarded]); and on a chain that keeps the agent's successes, at most
    one [validate] and at most one [attest] succeed in any epoch.  An
    extrinsic that fails is submitted again. *)
Theorem one_success_per_epoch (depth : nat) (runs : list nat) s (role : Role) (e : Z) :
  chain_remembers (account_id (self s)) (epoch_length (self s)) None [] []
                  (lifetime BLOCK_SECS depth runs s) →
  guarded (account_id (self s)) (epoch_length (self s)) None None
          (lifetime BLOCK_SECS depth runs s)
  ∧ (successes role e
       (extrinsics (epoch_length (self s)) None (lifetime BLOCK_SECS depth runs s))
     <= 1)%nat.
Proof.
  intros Hc.
  pose proof (lifetime_guarded (account_id (self s)) (epoch_length (self s))
                depth runs s eq_refl eq_refl None None) as Hg.
  split; [exact Hg|].
  destruct (successes_bound _ _ _ _ _ _ _ Hg Hc ltac:(discriminate)
              ltac:(intros; discriminate) e) as (_ & HV & _ & HA).
  by destruct role.
Qed.

End Proofs.

(** * Examples *)

(** C3 (evaluation of the code where the claim fails): an agent with no
    remembered score set receives the validator's [p1] while its own probe
    found nobody, and the previous epoch's submission on chain holds [p1].
    The specification's verdict is [True]; the code raises [TypeError],
    because it iterates over the submission itself and hands its keys to
    [asdict], where [attest] decodes [submission["data"]]. *)
Theorem should_attest_first_epoch_raises :
  let previous := {| sub_data := [p1]; sub_attests := [] |} in
  let s := {| env := [EvRewardsSubmission (Some 1) 9 (Ok (Some previous))];
              self := joined |} in
  should_attest (list_from_scale_info [p1]) [] 10 s
  = (Raise TypeError, {| env := []; self := joined |},
     [EvRewardsSubmission (Some 1) 9 (Ok (Some previous))])
  ∧ fallback_verdict {[ frozenset p1 ]} ∅ previous = Ok true.
Proof.
  intros previous s. split.
  - change 9 with (10 - 1).
    apply (should_attest_fallback_raises [PDataclass p1] [] {[ frozenset p1 ]} ∅ 10 previous [] s).
    + change [PDataclass p1] with (PDataclass <$> [p1]).
      rewrite set_of_dataclasses_decoded. apply (f_equal Ok). csimpl. set_solver.
    + reflexivity.
    + intros Heq. assert (frozenset p1 ∈ (∅ : ScoreSet)) as Hin
        by (rewrite <- Heq; set_solver). set_solver.
    + reflexivity.
    + reflexivity.
  - unfold fallback_verdict, list_from_scale_info.
    rewrite set_of_dataclasses_decoded. cbn [res_bind]. apply (f_equal Ok).
    apply bool_decide_eq_true_2. unfold symmetric_difference.
    csimpl. set_solver.
Qed.


(** C8 (evaluation of the code where the claim fails): the node ["me"] is
    second among the submittable nodes, so its slot starts at block
    [150 + 10 * 6 * (2 - 1) = 210]; the call submits [activate_subnet] with
    block [175] the latest fetched.  The first frame did not find the
    account, so its loop left [n = 1], the number of nodes; lines 403-405
    call the method again without returning, and when that call is back the
    frame goes on with its own [n] and the window from [150] to [210]. *)
Theorem activation_before_slot :
  let s := {| env := early_chain; self := init "subnet" "me" 10 |} in
  emitted (_activate_subnet 6 5 s)
  = [EvSubnetIdByPath "subnet" (Ok (Some 1));
     EvSubnetData 1 (Ok (Some registering));
     EvSubmittableNodes (Some 1) (Ok [{| node_account_id := "other" |}]);
     EvSleep (inject_Z 6);
     EvSubnetIdByPath "subnet" (Ok (Some 1));
     EvSubnetData 1 (Ok (Some registering));
     EvSubmittableNodes (Some 1) (Ok two_nodes);
     EvBlockNumber (Ok 170);
     EvSleep (inject_Z 240);
     EvSubnetIdByPath "subnet" (Ok None);
     EvBlockNumber (Ok 175);
     EvSubnetData 1 (Ok (Some registering));
     EvActivateSubnet 1 (Ok (Some {| is_success := true;
                                     triggered_events := ["SubnetActivated"] |}))]
  ∧ outcome (_activate_subnet 6 5 s) = Ok true
  ∧ listed_at "me" two_nodes 2
  ∧ initialized registering + registration_blocks registering = 150
  ∧ 175 < 150 + 10 * 6 * (2 - 1).
Proof.
  cbn zeta. split; [vm_compute; reflexivity|]. split; [vm_compute; reflexivity|].
  split; [|split; [reflexivity|lia]].
  split; [lia|]. split; [reflexivity|]. simpl. repeat constructor. discriminate.
Qed.

(** The agent comes back in epoch [10] and finds its own attestation on
    chain. *)
Lemma already_attested_completes_witness :
  attest_loop 6 1 10 0 {| env := [EvBlockNumber (Ok 100);
                                  EvRewardsSubmission (Some 1) 10 (Ok (Some attested_by_me))];
                          self := joined |}
  = (Ok ExitAlreadyAttested, {| env := []; self := set_last_epoch 10 joined |},
     [EvSleep (inject_Z 6); EvBlockNumber (Ok 100);
      EvRewardsSubmission (Some 1) 10 (Ok (Some attested_by_me))]).
Proof.
  refine (proj2 (already_attested_completes 6 0 10 0 100 10 attested_by_me
                   [EvRewardsSubmission (Some 1) 10 (Ok (Some attested_by_me))] []
                   {| env := [EvBlockNumber (Ok 100);
                              EvRewardsSubmission (Some 1) 10 (Ok (Some attested_by_me))];
                      self := joined |} _ _ _ _ _ _ _)).
  - lia.
  - reflexivity.
  - vm_compute. reflexivity.
  - lia.
  - unfold MAX_ATTEST_CHECKS. lia.
  - reflexivity.
  - simpl. right. left. reflexivity.
Defined.

(** Four attempts on the silent chain, then the loop gives up. *)
Lemma attest_loop_max_checks_witness :
  outcome (attest_loop 6 (Z.to_nat (MAX_ATTEST_CHECKS + 2)) 10 0
             {| env := silent_chain; self := joined |}) = Ok ExitMaxChecks
  ∧ attest_attempts
      (emitted (attest_loop 6 (Z.to_nat (MAX_ATTEST_CHECKS + 2)) 10 0
                  {| env := silent_chain; self := joined |})) = 4%nat
  ∧ self (final (attest_loop 6 (Z.to_nat (MAX_ATTEST_CHECKS + 2)) 10 0
                   {| env := silent_chain; self := joined |})) = joined.
Proof.
  apply (attest_loop_max_checks 6 10 {| env := silent_chain; self := joined |}).
  - lia.
  - match goal with
    | |- Forall _ ?l => let l' := eval vm_compute in l in change l with l'
    end.
    repeat (constructor; [vm_compute; first [exact I | discriminate]|]). constructor.
Defined.

(** C2 (the claim as stated fails): on a chain whose block number goes
    back from [110] to [95], the first pass completes epoch [10] and the
    second pass, started in epoch [11], stores epoch [9]. *)
Lemma last_epoch_decreases_on_regressing_chain :
  last_epoch_after 6 5 1 {| env := regressing_chain; self := joined |} = 10
  ∧ last_epoch_after 6 5 2 {| env := regressing_chain; self := joined |} = 9.
Proof. split; vm_compute; reflexivity. Qed.

(** Two passes on the advancing chain: epoch [10], then epoch [11]. *)
Lemma last_epoch_never_decreases_witness :
  last_epoch_after 6 5 1 {| env := advancing_chain; self := joined |}
  <= last_epoch_after 6 5 (1 + 1) {| env := advancing_chain; self := joined |}.
Proof.
  apply (last_epoch_never_decreases 6 5 1 1 {| env := advancing_chain; self := joined |}).
  match goal with
  | |- nondecreasing ?l => let l' := eval vm_compute in l in change l with l'
  end.
  cbn [nondecreasing]. repeat split; repeat constructor; lia.
Defined.

(** C1 (the claim as stated fails): the first [validate] of epoch [10] is
    rejected, the next pass submits [validate] again in the same epoch:
    two [validate] extrinsics in one epoch in which the agent is the
    validator. *)
Lemma validate_submitted_twice :
  submissions Validator 10
    (extrinsics 10 None (lifetime 6 5 [2%nat] {| env := rejecting_chain; self := joined |}))
  = 2%nat.
Proof. vm_compute. reflexivity. Qed.

(** A success, a restart within the epoch, and no second [validate]. *)
Lemma one_success_per_epoch_witness :
  (successes Validator 10
     (extrinsics 10 None
        (lifetime 6 5 [1%nat; 3%nat] {| env := remembering_chain; self := joined |}))
   <= 1)%nat.
Proof.
  apply (one_success_per_epoch 6 5 [1%nat; 3%nat]
           {| env := remembering_chain; self := joined |} Validator 10).
  match goal with
  | |- chain_remembers _ _ _ _ _ ?l => let l' := eval vm_compute in l in change l with l'
  end.
  vm_compute. tauto.
Defined.

(** ** Examples of the further properties *)

(** Block [105] with epochs of ten blocks is in epoch [10]. *)
Lemma epoch_of_floor_below_2p53_witness :
  ∃ epoch, epoch_of 105 10 = Ok epoch ∧ epoch = 105 / 10
           ∧ epoch * 10 <= 105 < (epoch + 1) * 10.
Proof. apply (epoch_of_floor_below_2p53 105 10); lia. Defined.

(** The validator still lists [p1], which the node no longer sees but
    remembers from the epoch before: approved. *)
Lemma should_attest_remembered_witness :
  should_attest [PDataclass p1; PDataclass p2] [PDict p2] 10
    {| env := ([] : Replay);
       self := set_previous_epoch_data (Some {[ frozenset p1 ]}) joined |}
  = (Ok (bool_decide
           (symmetric_difference (list_to_set (frozenset <$> [p1; p2]))
                                 (list_to_set (frozenset <$> [p2]))
            ⊆ ({[ frozenset p1 ]} : ScoreSet))),
     {| env := ([] : Replay);
        self := set_previous_epoch_data (Some (list_to_set (frozenset <$> [p2])))
                  (set_previous_epoch_data (Some {[ frozenset p1 ]}) joined) |}, []).
Proof.
  apply (should_attest_remembered
           [PDataclass p1; PDataclass p2] [PDict p2]
           (list_to_set (frozenset <$> [p1; p2])) (list_to_set (frozenset <$> [p2]))
           {[ frozenset p1 ]} 10
           {| env := ([] : Replay);
              self := set_previous_epoch_data (Some {[ frozenset p1 ]}) joined |}).
  - reflexivity.
  - reflexivity.
  - left. discriminate.
  - reflexivity.
Defined.

(** The validator's list in another order and with a repetition, the
    node's record with its fields in another order. *)
Lemma should_attest_order_irrelevant_witness :
  should_attest (PDataclass <$> [p1; p2]) (PDict <$> [p1]) 10
    {| env := ([] : Replay); self := joined |}
  = should_attest (PDataclass <$> [p2; p1; p1]) (PDict <$> [p1_reordered]) 10
      {| env := ([] : Replay); self := joined |}.
Proof.
  apply (should_attest_order_irrelevant [p1; p2] [p2; p1; p1] [p1] [p1_reordered] 10
           {| env := ([] : Replay); self := joined |}).
  - intros k. csimpl. rewrite !elem_of_cons, !elem_of_nil. tauto.
  - intros k. csimpl. rewrite !elem_of_cons, !elem_of_nil.
    assert (frozenset p1_reordered = frozenset p1) as ->; [|tauto].
    unfold frozenset, p1_reordered, p1. apply set_eq. intros x.
    rewrite !elem_of_list_to_set, !elem_of_cons, !elem_of_nil. tauto.
Defined.

(** The node's set is remembered after an approval. *)
Lemma should_attest_remembers_witness :
  match outcome (should_attest [PDataclass p1] [PDict p1] 10
                   {| env := ([] : Replay); self := joined |}) with
  | Ok _ =>
      ∃ S2, set_of_dicts [PDict p1] = Ok S2
            ∧ self (final (should_attest [PDataclass p1] [PDict p1] 10
                             {| env := ([] : Replay); self := joined |}))
              = set_previous_epoch_data (Some S2) joined
  | Raise _ =>
      self (final (should_attest [PDataclass p1] [PDict p1] 10
                     {| env := ([] : Replay); self := joined |})) = joined
  end.
Proof.
  apply (should_attest_remembers [PDataclass p1] [PDict p1] 10
           {| env := ([] : Replay); self := joined |}).
  left. discriminate.
Defined.

(** A first epoch without a submission for the epoch before: refused. *)
Lemma should_attest_first_epoch_never_approves_witness :
  outcome (should_attest [PDataclass p1] [] 10
             {| env := [EvRewardsSubmission (Some 1) 9 (Ok None)]; self := joined |})
  ≠ Ok true
  ∧ outcome (should_attest [PDataclass p1] [] 10
               {| env := [EvRewardsSubmission (Some 1) 9 (Ok None)]; self := joined |})
    = match (chain_functions.get_rewards_submission (Some 1) (10 - 1)
               [EvRewardsSubmission (Some 1) 9 (Ok None)]).1 with
      | Ok None => Ok false
      | Ok (Some _) => Raise TypeError
      | Raise x => Raise x
      end.
Proof.
  apply (should_attest_first_epoch_never_approves
           [PDataclass p1] [] (list_to_set (frozenset <$> [p1])) ∅ 10
           {| env := [EvRewardsSubmission (Some 1) 9 (Ok None)]; self := joined |}).
  - reflexivity.
  - reflexivity.
  - intros Heq. apply (not_elem_of_empty (C:=ScoreSet) (frozenset p1)).
    rewrite <- Heq. csimpl. apply elem_of_union_l, elem_of_singleton. reflexivity.
  - reflexivity.
Defined.

(** An epoch length of zero: the pass is the one fetch. *)
Lemma run_once_fetch_failure_witness :
  run_once 6 5 {| env := [EvBlockNumber (Ok 100)]; self := init "subnet" "me" 0 |}
  = (Ok Continue, {| env := []; self := init "subnet" "me" 0 |}, [EvBlockNumber (Ok 100)]).
Proof.
  apply (run_once_fetch_failure 6 5 (Ok 100) ZeroDivisionError []
           {| env := [EvBlockNumber (Ok 100)]; self := init "subnet" "me" 0 |}).
  - reflexivity.
  - reflexivity.
Defined.

(** No subnet at the path: two calls, and [run] is over. *)
Lemma run_shuts_down_without_subnet_witness :
  run 6 5 3 {| env := [EvBlockNumber (Ok 100); EvSubnetIdByPath "subnet" (Ok None)];
               self := init "subnet" "me" 10 |}
  = (Ok tt, {| env := []; self := set_stop true (init "subnet" "me" 10) |},
     [EvBlockNumber (Ok 100); EvSubnetIdByPath "subnet" (Ok None)]).
Proof.
  apply (run_shuts_down_without_subnet 6 4 2 100 10
           [EvSubnetIdByPath "subnet" (Ok None)] []
           {| env := [EvBlockNumber (Ok 100); EvSubnetIdByPath "subnet" (Ok None)];
              self := init "subnet" "me" 10 |}).
  - reflexivity.
  - reflexivity.
  - reflexivity.
  - vm_compute. reflexivity.
  - reflexivity.
Defined.

(** The second of two nodes activates the subnet in its slot. *)
Lemma activate_subnet_true_witness :
  subnet_accepting_consensus
    (self (final (_activate_subnet 6 5
                    {| env := slot_chain; self := init "subnet" "me" 10 |}))) = true
  ∧ is_Some (subnet_id
       (self (final (_activate_subnet 6 5
                       {| env := slot_chain; self := init "subnet" "me" 10 |}))))
  ∧ 0 < subnet_activated
          (self (final (_activate_subnet 6 5
                          {| env := slot_chain; self := init "subnet" "me" 10 |}))).
Proof.
  apply (activate_subnet_true 6 5
           {| env := slot_chain; self := init "subnet" "me" 10 |}).
  vm_compute. reflexivity.
Defined.

(** A fresh agent on the restart chain: the first pass looks the subnet
    up by its path and reads its data, both are found, and [stop] stays
    unset. *)
Lemma run_stops_only_when_not_found_witness :
  stop (self (final (run 6 5 2 {| env := restart_chain;
                                  self := init "subnet" "me" 10 |})))
  = stop (init "subnet" "me" 10).
Proof.
  apply (run_stops_only_when_not_found 6 5 2
           {| env := restart_chain; self := init "subnet" "me" 10 |}).
  match goal with
  | |- Forall _ ?l => let l' := eval vm_compute in l in change l with l'
  end.
  repeat (constructor; [exact I|]). constructor.
Defined.

(** A fresh agent is well formed, and stays so through an activation. *)
Lemma run_well_formed_witness :
  well_formed (self (final (run 6 5 3 {| env := restart_chain;
                                         self := init "subnet" "me" 10 |})))
  ∧ (subnet_accepting_consensus (init "subnet" "me" 10) = true
     → subnet_id (self (final (run 6 5 3 {| env := restart_chain;
                                            self := init "subnet" "me" 10 |})))
       = subnet_id (init "subnet" "me" 10)).
Proof.
  apply (run_well_formed 6 5 3 {| env := restart_chain; self := init "subnet" "me" 10 |}).
  split; simpl; discriminate.
Defined.

(** A success and a restart: every call names subnet [1]. *)
Lemma calls_carry_subnet_id_witness :
  Forall with_subnet_id
         (lifetime 6 5 [1%nat; 3%nat] {| env := remembering_chain; self := joined |}).
Proof.
  apply (calls_carry_subnet_id 6 5 [1%nat; 3%nat]
           {| env := remembering_chain; self := joined |}).
  split; simpl; [intros _; split; [by eexists|lia] | reflexivity].
Defined.

(** The second of two nodes, with [base = 150] and slots of sixty blocks:
    the activation at block [215] is inside [210, 270). *)
Lemma activation_in_slot_witness :
  in_slot (150 + 10 * 6 * (2 - 1)) (150 + 10 * 6 * 2) None None
          (emitted (_activate_subnet 6 5
                      {| env := activation_chain; self := init "subnet" "me" 10 |})).
Proof.
  apply (activation_in_slot 6 5 2 150
           {| env := activation_chain; self := init "subnet" "me" 10 |}).
  match goal with
  | |- Forall _ ?l => let l' := eval vm_compute in l in change l with l'
  end.
  repeat (constructor;
          [unfold registered, listed_at;
           first [ exact I | reflexivity
                 | split; [lia|split; [reflexivity|]];
                   vm_compute; repeat constructor; discriminate ]
          |]).
  constructor.
Defined.

(** With two frames allowed, the unlisted node sleeps twice and the call
    ends in [RecursionError]. *)
Lemma activate_subnet_recursion_limit_witness :
  outcome (_activate_subnet 6 2 {| env := unlisted_chain; self := init "subnet" "me" 10 |})
  = Raise RecursionError
  ∧ self (final (_activate_subnet 6 2
                   {| env := unlisted_chain; self := init "subnet" "me" 10 |}))
    = init "subnet" "me" 10
  ∧ sleeps (emitted (_activate_subnet 6 2
                       {| env := unlisted_chain; self := init "subnet" "me" 10 |}))
    = 2%nat.
Proof.
  apply (activate_subnet_recursion_limit 6 2
           {| env := unlisted_chain; self := init "subnet" "me" 10 |}).
  - lia.
  - match goal with
    | |- Forall _ ?l => let l' := eval vm_compute in l in change l with l'
    end.
    repeat (constructor;
            [first [ exact I | simpl; lia | simpl; repeat constructor; discriminate ]|]).
    constructor.
Defined.

(** A fresh process in an activated subnet: it is listed, then asks for
    the validator. *)
Lemma listed_before_consensus_witness :
  listed_first "me" false
    (lifetime 6 5 [3%nat] {| env := restart_chain; self := init "subnet" "me" 10 |}).
Proof.
  apply (listed_before_consensus 6 5 [3%nat]
           {| env := restart_chain; self := init "subnet" "me" 10 |}).
  reflexivity.
Defined.

(** The validator of epoch [10] submits its scores at block [100] and
    sleeps the ten blocks to epoch [11]. *)
Lemma validator_pass_witness :
  run_body 6 5
    {| env := [EvBlockNumber (Ok 100); EvRewardsValidator (Some 1) 10 (Ok (Some "me"));
               EvRewardsSubmission (Some 1) 10 (Ok None);
               EvConsensusData (Some 1) (Ok [PDict p1]);
               EvValidate (Some 1) [PDict p1]
                 (Ok (Some {| is_success := true; triggered_events := [] |}))];
       self := joined |}
  = (Ok Continue, {| env := []; self := set_last_epoch 10 joined |},
     [EvBlockNumber (Ok 100); EvRewardsValidator (Some 1) 10 (Ok (Some "me"));
      EvRewardsSubmission (Some 1) 10 (Ok None);
      EvConsensusData (Some 1) (Ok [PDict p1]);
      EvValidate (Some 1) [PDict p1]
        (Ok (Some {| is_success := true; triggered_events := [] |}));
      EvSleep (inject_Z 60)]).
Proof.
  refine (validator_pass 6 5 100 10 [PDict p1]
            (Ok (Some {| is_success := true; triggered_events := [] |}))
            _ _ _ _ []
            {| env := [EvBlockNumber (Ok 100);
                       EvRewardsValidator (Some 1) 10 (Ok (Some "me"));
                       EvRewardsSubmission (Some 1) 10 (Ok None);
                       EvConsensusData (Some 1) (Ok [PDict p1]);
                       EvValidate (Some 1) [PDict p1]
                         (Ok (Some {| is_success := true; triggered_events := [] |}))];
               self := joined |} _ _ _ _ _ _ _ _ _ _ _).
  - reflexivity.
  - reflexivity.
  - reflexivity.
  - vm_compute. reflexivity.
  - simpl. lia.
  - reflexivity.
  - reflexivity.
  - reflexivity.
  - reflexivity.
  - lia.
  - vm_compute. discriminate.
Defined.

(** Restarted at block [103], the validator of epoch [10] finds its
    submission and sleeps the seven blocks to epoch [11]. *)
Lemma validator_already_submitted_witness :
  run_body 6 5
    {| env := [EvBlockNumber (Ok 103); EvRewardsValidator (Some 1) 10 (Ok (Some "me"));
               EvRewardsSubmission (Some 1) 10 (Ok (Some submitted))];
       self := joined |}
  = (Ok Continue, {| env := []; self := set_last_epoch 10 joined |},
     [EvBlockNumber (Ok 103); EvRewardsValidator (Some 1) 10 (Ok (Some "me"));
      EvRewardsSubmission (Some 1) 10 (Ok (Some submitted));
      EvSleep (inject_Z 42)]).
Proof.
  refine (validator_already_submitted 6 5 103 10 submitted _ _ []
            {| env := [EvBlockNumber (Ok 103);
                       EvRewardsValidator (Some 1) 10 (Ok (Some "me"));
                       EvRewardsSubmission (Some 1) 10 (Ok (Some submitted))];
               self := joined |} _ _ _ _ _ _ _ _).
  - reflexivity.
  - reflexivity.
  - reflexivity.
  - vm_compute. reflexivity.
  - simpl. lia.
  - reflexivity.
  - reflexivity.
  - vm_compute. discriminate.
Defined.

(** Epoch [10] is completed: at block [104] the agent sleeps the six
    blocks to epoch [11]. *)
Lemma completed_epoch_pass_witness :
  run_body 6 5 {| env := [EvBlockNumber (Ok 104)]; self := set_last_epoch 10 joined |}
  = (Ok Continue, {| env := []; self := set_last_epoch 10 joined |},
     [EvBlockNumber (Ok 104); EvSleep (inject_Z 36)]).
Proof.
  refine (completed_epoch_pass 6 5 104 10 []
            {| env := [EvBlockNumber (Ok 104)]; self := set_last_epoch 10 joined |}
            _ _ _ _ _).
  - reflexivity.
  - reflexivity.
  - vm_compute. reflexivity.
  - simpl. lia.
  - vm_compute. discriminate.
Defined.

(** The loop started in epoch [10] and the chain is at block [110]. *)
Lemma attest_loop_next_epoch_witness :
  attest_loop 6 5 10 0 {| env := [EvBlockNumber (Ok 110)]; self := joined |}
  = (Ok ExitNextEpoch, {| env := []; self := joined |},
     [EvSleep (inject_Z 6); EvBlockNumber (Ok 110)]).
Proof.
  refine (attest_loop_next_epoch 6 4 10 0 110 11 []
            {| env := [EvBlockNumber (Ok 110)]; self := joined |} _ _ _ _).
  - lia.
  - reflexivity.
  - vm_compute. reflexivity.
  - lia.
Defined.

(** The node sees the peer the validator scored: it attests in epoch
    [10]. *)
Lemma attester_attests_witness :
  attest_loop 6 5 10 0
    {| env := [EvBlockNumber (Ok 101);
               EvRewardsSubmission (Some 1) 10 (Ok (Some submitted));
               EvConsensusData (Some 1) (Ok [PDict p1]);
               EvAttest (Some 1) (Ok (Some {| is_success := true; triggered_events := [] |}))];
       self := joined |}
  = (Ok ExitAttested,
     {| env := [];
        self := set_last_epoch 10
                  (set_previous_epoch_data (Some (list_to_set (frozenset <$> [p1]))) joined) |},
     [EvSleep (inject_Z 6); EvBlockNumber (Ok 101);
      EvRewardsSubmission (Some 1) 10 (Ok (Some submitted));
      EvConsensusData (Some 1) (Ok [PDict p1]);
      EvAttest (Some 1) (Ok (Some {| is_success := true; triggered_events := [] |}))]).
Proof.
  refine (attester_attests 6 4 10 0 101 10 submitted [p1]
            {| is_success := true; triggered_events := [] |} _ _ _ []
            {| env := [EvBlockNumber (Ok 101);
                       EvRewardsSubmission (Some 1) 10 (Ok (Some submitted));
                       EvConsensusData (Some 1) (Ok [PDict p1]);
                       EvAttest (Some 1)
                         (Ok (Some {| is_success := true; triggered_events := [] |}))];
               self := joined |} _ _ _ _ _ _ _ _ _ _ _ _).
  - lia.
  - reflexivity.
  - vm_compute. reflexivity.
  - lia.
  - unfold MAX_ATTEST_CHECKS. lia.
  - reflexivity.
  - simpl. tauto.
  - discriminate.
  - reflexivity.
  - reflexivity.
  - reflexivity.
  - reflexivity.
Defined.

(** A node that joins an activated subnet. *)
Lemma activate_subnet_already_activated_witness :
  _activate_subnet 6 5
    {| env := [EvSubnetIdByPath "subnet" (Ok (Some 1));
               EvSubnetData 1 (Ok (Some {| initialized := 10; registration_blocks := 20;
                                           activated := 40 |}))];
       self := init "subnet" "me" 10 |}
  = (Ok true, {| env := []; self := set_activated 1 40 (init "subnet" "me" 10) |},
     [EvSubnetIdByPath "subnet" (Ok (Some 1));
      EvSubnetData 1 (Ok (Some {| initialized := 10; registration_blocks := 20;
                                  activated := 40 |}))]).
Proof.
  refine (activate_subnet_already_activated 6 4 1
            {| initialized := 10; registration_blocks := 20; activated := 40 |} _ []
            {| env := [EvSubnetIdByPath "subnet" (Ok (Some 1));
                       EvSubnetData 1
                         (Ok (Some {| initialized := 10; registration_blocks := 20;
                                      activated := 40 |}))];
               self := init "subnet" "me" 10 |} _ _ _).
  - reflexivity.
  - reflexivity.
  - simpl. lia.
Defined.

(** The second of two nodes at block [215], inside its slot
    [210, 270). *)
Lemma activate_subnet_in_slot_pass_witness :
  _activate_subnet 6 5 {| env := slot_chain; self := init "subnet" "me" 10 |}
  = (Ok true, {| env := []; self := set_activated 1 1 (init "subnet" "me" 10) |},
     [EvSubnetIdByPath "subnet" (Ok (Some 1)); EvSubnetData 1 (Ok (Some registering));
      EvSubmittableNodes (Some 1) (Ok two_nodes); EvBlockNumber (Ok 215);
      EvSubnetData 1 (Ok (Some registering));
      EvActivateSubnet 1 (Ok (Some {| is_success := true;
                                      triggered_events := ["SubnetActivated"] |}))]).
Proof.
  refine (activate_subnet_in_slot_pass 6 4 1 2 215 registering registering two_nodes
            (Some {| is_success := true; triggered_events := ["SubnetActivated"] |})
            _ _ _ _ _ []
            {| env := slot_chain; self := init "subnet" "me" 10 |} _ _ _ _ _ _ _ _ _ _).
  - reflexivity.
  - reflexivity.
  - simpl. lia.
  - reflexivity.
  - split; [lia|]. split; [reflexivity|]. simpl. repeat constructor. discriminate.
  - reflexivity.
  - simpl. lia.
  - reflexivity.
  - simpl. lia.
  - reflexivity.
Defined.
